(** * Session supervisor of wwebjs-api: a shallow embedding of [src/sessions.js]

    The module keeps one long-running protocol client per session id in a
    module-level [Map], persists each session in a folder under the storage
    root and forwards the client's events to a webhook and a websocket sink.

    The JavaScript is embedded as a state-and-exception monad over a [World]
    (registry, client objects, file system, trace of calls made to external
    collaborators).  The third-party client, the browser surface and the
    operating system are not part of the repository: their answers are read
    from an [Env] of oracles, and every call made to them is recorded in the
    trace.  An [await] is a sequencing point; calls on other sessions that
    could interleave at an [await] are not modelled. *)

From Stdlib Require Import String Ascii List Bool ZArith Lia.
From stdpp Require Import base option gmap strings list fin_maps.

Local Open Scope string_scope.
Local Open Scope Z_scope.
Local Open Scope stdpp_scope.

(** ** JavaScript values shared by the module

    A JavaScript string is represented by its UTF-8 encoding. *)

(** A thrown [Error]: only its [message] is ever read by the module. *)
Record Error := MkError { error_message : string }.

(** How a call finishes: it returns (an awaited promise resolves) or it
    throws (the promise rejects). *)
Inductive Outcome (A : Type) : Type :=
| Returned (a : A)
| Thrown (e : Error).
Arguments Returned {A} a.
Arguments Thrown {A} e.

(** ** Strings and POSIX paths ([path.join], [path.resolve], [path.sep]) *)

Module Path.

Definition sep : string := "/".

Definition slash : ascii := "/"%char.

(** [s.split('/')] *)
Fixpoint split_from (cur : string) (s : string) : list string :=
  match s with
  | EmptyString => [cur]
  | String c rest =>
      if Ascii.eqb c slash then cur :: split_from EmptyString rest
      else split_from (cur +:+ String c EmptyString) rest
  end.

Definition split (s : string) : list string := split_from EmptyString s.

Definition starts_with_slash (s : string) : bool :=
  match s with
  | String c _ => Ascii.eqb c slash
  | EmptyString => false
  end.

Fixpoint ends_with_slash (s : string) : bool :=
  match s with
  | EmptyString => false
  | String c EmptyString => Ascii.eqb c slash
  | String _ rest => ends_with_slash rest
  end.

(** One step of [normalizeString]: [acc] holds the kept segments, last
    segment first. *)
Definition push_segment (absolute : bool) (acc : list string) (seg : string)
  : list string :=
  if String.eqb seg EmptyString then acc
  else if String.eqb seg "." then acc
  else if String.eqb seg ".." then
    match acc with
    | [] => if absolute then [] else [".."]
    | top :: below => if String.eqb top ".." then ".." :: acc else below
    end
  else seg :: acc.

Definition resolve_segments (absolute : bool) (segs : list string) : list string :=
  rev (fold_left (push_segment absolute) segs []).

Fixpoint join_segments (segs : list string) : string :=
  match segs with
  | [] => EmptyString
  | [x] => x
  | x :: rest => x +:+ sep +:+ join_segments rest
  end.

(** [path.posix.normalize] *)
Definition normalize (p : string) : string :=
  if String.eqb p EmptyString then "."
  else
    let absolute := starts_with_slash p in
    let trailing := ends_with_slash p in
    let body := join_segments (resolve_segments absolute (split p)) in
    let body :=
      if String.eqb body EmptyString then (if absolute then EmptyString else ".")
      else if trailing then body +:+ sep else body in
    if absolute then sep +:+ body else body.

(** [path.posix.join]: the non-empty arguments, joined by the separator
    and normalized. *)
Definition join (parts : list string) : string :=
  let kept := filter (fun s => negb (String.eqb s EmptyString)) parts in
  match kept with
  | [] => "."
  | _ => normalize (join_segments kept)
  end.

(** [path.posix.resolve] of one argument against the working directory
    [cwd] (an absolute path): the result is absolute, normalized and has no
    trailing separator. *)
Definition resolve (cwd : string) (p : string) : string :=
  let full := if starts_with_slash p then p else cwd +:+ sep +:+ p in
  let body := join_segments (resolve_segments true (split full)) in
  sep +:+ body.

End Path.

(** [s.startsWith(prefix)] *)
Definition startsWith (s prefix : string) : bool := String.prefix prefix s.

(** ** Configuration ([src/config.js], read-only to the module)

    The configuration module is not among the sources; the values the session
    module imports from it are taken as a record.  [process_env] stands for
    [process.env], which [initializeEvents] consults for a per-session webhook
    override. *)
Record Config := {
  baseWebhookURL : string;
  sessionFolderPath : string;
  maxAttachmentSize : Z;
  setMessagesAsSeen : bool;
  webVersion : option string;
  webVersionCacheType : string;
  recoverSessions : bool;
  chromeBin : option string;
  headless : bool;
  releaseBrowserLock : bool;
  disabledCallbacks : list string;
  process_env : string -> option string
}.

(** [isEventEnabled] of [src/utils.js]:
    [!disabledCallbacks.includes(event)]. *)
Definition isEventEnabled (cfg : Config) (event : string) : bool :=
  negb (existsb (String.eqb event) (disabledCallbacks cfg)).

(** ** Event payloads *)

(** The fields of an inbound message the listener reads: [hasMedia] and
    [_data?.size] ([None] when [_data] or [size] is undefined). *)
Record Message := {
  msg_id : string;
  hasMedia : bool;
  data_size : option Z
}.

Inductive Payload :=
| NoData
| MessageData (m : Message)
| MediaData (media : string) (m : Message)
| QrData (qr : string)
| OtherData (fields : list string).

(** [message._data?.size < maxAttachmentSize]: a comparison with [undefined]
    is false. *)
Definition size_below (m : Message) (limit : Z) : bool :=
  match data_size m with
  | Some n => n <? limit
  | None => false
  end.

(** ** Client objects *)

(** The callbacks [initializeEvents] passes to [client.on], one constructor
    per shape of function body; each closes over [sessionWebhook] and
    [sessionId]. *)
Inductive Listener :=
| Forward (sessionWebhook sessionId dataType : string)
| OnMessage (sessionWebhook sessionId : string)
| OnQr (sessionWebhook sessionId : string).

Inductive WebVersionCache :=
| CacheLocal
| CacheRemote (remotePath : string)
| CacheNone.

Record ClientOptions := {
  opt_executablePath : option string;
  opt_headless : bool;
  opt_clientId : string;
  opt_dataPath : string;
  opt_webVersion : option string;
  opt_webVersionCache : option WebVersionCache;
  opt_args : list string
}.

(** A [Client] object as far as the module reads or writes it. *)
Record Client := {
  options : ClientOptions;
  listeners : list (string * Listener);   (* [client.on] registrations, in order *)
  qr : option string;                     (* [client.qr] *)
  qrClearTimeout : bool;                  (* a QR expiry timer is pending *)
  recovery_hooks : bool                   (* [pupPage.once('close'|'error')] bound *)
}.

(** Object identity of a client: its address in the heap of the [World]. *)
Abbreviation Handle := nat (only parsing).

(** ** The file system under the storage root *)

(** Existing entries by canonical absolute path, and symbolic links by the
    path of the link and the canonical path they resolve to.  The model is
    of a storage area reached by canonical paths: the directories above an
    entry are not symbolic links, only the entry itself may be one, and
    entries are not told apart by kind (a regular file lists as an empty
    directory). *)
Record FileSystem := {
  nodes : list string;
  links : list (string * string)
}.

(** ** Calls made to external collaborators

    The trace of a [World] lists them most recent first. *)
Inductive LogLevel := Info | Warn | Err.

Inductive Effect :=
| Log (level : LogLevel) (sessionId : option string) (err : option Error) (text : string)
| Initialize (h : Handle)
| InitWebSocketServer (sessionId : string)
| TerminateWebSocketServer (sessionId : string)
| RemoveAllListeners (h : Handle) (event : string)
| Probe (h : Handle) (attempt : nat)
| GetState (h : Handle)
| Logout (h : Handle)
| Destroy (h : Handle)
| IsConnected (h : Handle) (poll : nat)
| Sleep (ms : nat)
| TriggerWebhook (url sessionId dataType : string) (data : Payload)
| TriggerWebSocket (sessionId dataType : string) (data : Payload)
| DownloadMedia (m : Message)
| SendMessageSeenStatus (m : Message)
| Unlink (path : string)
| Rm (path : string).

(** ** Program state *)
Record World := {
  sessions : gmap string Handle;   (* [const sessions = new Map()] *)
  heap : gmap nat Client;          (* the client objects *)
  next_handle : nat;
  fs : FileSystem;
  trace : list Effect
}.

(** ** Answers of the external collaborators *)

(** What one round of the probe loop of [validateSession] observes on
    [client.pupPage]. *)
Inductive PageObservation :=
| PageMissing      (* [client.pupPage] is undefined: reading [isClosed] throws *)
| PageClosed       (* [isClosed()] is true *)
| ProbeResolved    (* [evaluate('1')] resolves before the timer *)
| ProbeRejected (e : Error)  (* [evaluate('1')] rejects before the timer *)
| ProbeTimedOut.   (* the one-second timer resolves first *)

(** A rejected [fs.promises.rm(p, { recursive: true, force: true })]: the
    error, and which of the entries below [p] were already gone when it was
    raised.  The removal works from the leaves up and takes [p] itself last,
    so that [p] is still there when the call rejects. *)
Record RmFailure := {
  rm_error : Error;
  rm_removed : string -> bool
}.

Record Env := {
  cwd : string;
  unlink_fails : string -> option Error;    (* [fs.promises.unlink(p)] rejects *)
  rm_fails : string -> option RmFailure;    (* [fs.promises.rm(p, ...)] rejects *)
  new_client : ClientOptions -> option Error;
  initialize : Handle -> option Error;
  initWebSocketServer : string -> option Error;
  terminateWebSocketServer : string -> option Error;
  pupPage_appears : Handle -> bool;
  pupPage : Handle -> nat -> PageObservation;
  getState : Handle -> Outcome (option string);
  logout : Handle -> option Error;
  destroy : Handle -> option Error;
  isConnected : Handle -> nat -> Outcome bool;
  downloadMedia : Message -> Outcome string;
  media_settles_first : Message -> bool     (* [downloadMedia()] settles before
                                               the one-second pause of the
                                               message listener is over *)
}.

(** ** The monad of the embedding: state and exceptions

    A thrown error keeps the state reached so far, as in JavaScript. *)
Definition M (A : Type) : Type := World -> Outcome A * World.

Definition ret {A} (a : A) : M A := fun w => (Returned a, w).

Definition bind {A B} (m : M A) (k : A -> M B) : M B :=
  fun w => match m w with
           | (Returned a, w') => k a w'
           | (Thrown e, w') => (Thrown e, w')
           end.

Definition throw {A} (e : Error) : M A := fun w => (Thrown e, w).

(** [try { body } catch (error) { handler }] *)
Definition try_catch {A} (body : M A) (handler : Error -> M A) : M A :=
  fun w => match body w with
           | (Returned a, w') => (Returned a, w')
           | (Thrown e, w') => handler e w'
           end.

Declare Scope js_scope.
Delimit Scope js_scope with js.
Notation "x <- m ;; k" := (bind m (fun x => k))
  (at level 100, m at next level, right associativity) : js_scope.
Notation "m ;;; k" := (bind m (fun _ => k))
  (at level 100, right associativity) : js_scope.
Local Open Scope js_scope.

Definition get_world : M World := fun w => (Returned w, w).

Definition tell (e : Effect) : M unit :=
  fun w => (Returned tt,
            {| sessions := sessions w; heap := heap w; next_handle := next_handle w;
               fs := fs w; trace := e :: trace w |}).

Definition set_sessions (s : gmap string Handle) : M unit :=
  fun w => (Returned tt,
            {| sessions := s; heap := heap w; next_handle := next_handle w;
               fs := fs w; trace := trace w |}).

Definition set_fs (f : FileSystem) : M unit :=
  fun w => (Returned tt,
            {| sessions := sessions w; heap := heap w; next_handle := next_handle w;
               fs := f; trace := trace w |}).

Definition set_client (h : Handle) (c : Client) : M unit :=
  fun w => (Returned tt,
            {| sessions := sessions w; heap := <[h := c]> (heap w);
               next_handle := next_handle w; fs := fs w; trace := trace w |}).

(** Allocate a fresh client object. *)
Definition alloc_client (c : Client) : M Handle :=
  fun w => (Returned (next_handle w),
            {| sessions := sessions w; heap := <[next_handle w := c]> (heap w);
               next_handle := S (next_handle w); fs := fs w; trace := trace w |}).

(** Perform an external call whose answer is [None] (resolves) or an error. *)
Definition call (e : Effect) (answer : option Error) : M unit :=
  tell e ;;;
  match answer with
  | None => ret tt
  | Some err => throw err
  end.

(** An answer already computed from the state, as a step of the program. *)
Definition lift {A} (answer : Outcome A) : M A :=
  match answer with
  | Returned a => ret a
  | Thrown err => throw err
  end.

Definition call_value {A} (e : Effect) (answer : Outcome A) : M A :=
  tell e ;;;
  match answer with
  | Returned a => ret a
  | Thrown err => throw err
  end.

(** ** File-system calls ([fs], [fs.promises]) *)

Definition enoent (syscall path : string) : Error :=
  MkError ("ENOENT: no such file or directory, " +:+ syscall +:+ " '" +:+ path +:+ "'").

Definition exists_node (f : FileSystem) (p : string) : bool :=
  existsb (String.eqb p) (nodes f).

Definition lookup_link (f : FileSystem) (p : string) : option string :=
  match find (fun l => String.eqb (fst l) p) (links f) with
  | Some l => Some (snd l)
  | None => None
  end.

(** [fs.promises.realpath]: the canonical path of an existing entry; a
    missing entry (or a dangling link) rejects with ENOENT. *)
Definition realpath (env : Env) (f : FileSystem) (p : string) : Outcome string :=
  let q := Path.resolve (cwd env) p in
  let target := match lookup_link f q with Some t => t | None => q end in
  if exists_node f target then Returned target else Thrown (enoent "realpath" p).

(** [p] is [dir] itself or lies below it. *)
Definition under (dir p : string) : bool :=
  String.eqb p dir || startsWith p (dir +:+ Path.sep).

(** [fs.promises.rm(p, { recursive: true, force: true })] when it resolves:
    the entry and everything below it disappear; a missing entry is not an
    error. *)
Definition rm_recursive_force (f : FileSystem) (p : string) : FileSystem :=
  {| nodes := List.filter (fun n => negb (under p n)) (nodes f);
     links := List.filter (fun l => negb (under p (fst l))) (links f) |}.

(** [p] lies below [dir]. *)
Definition strictly_under (dir p : string) : bool :=
  startsWith p (dir +:+ Path.sep).

(** The file system a rejected [rm] leaves behind: the entries below [p]
    that were removed before the error are gone. *)
Definition rm_interrupted (f : FileSystem) (p : string) (removed : string -> bool)
  : FileSystem :=
  {| nodes := List.filter (fun n => negb (strictly_under p n && removed n)) (nodes f);
     links := List.filter (fun l => negb (strictly_under p (fst l) && removed (fst l)))
                (links f) |}.

(** [fs.promises.lstat(p).then(() => true).catch(() => false)] *)
Definition lstat_exists (f : FileSystem) (p : string) : bool :=
  exists_node f p || existsb (fun l => String.eqb (fst l) p) (links f).

(** [fs.promises.unlink(p)] when it resolves *)
Definition unlink (f : FileSystem) (p : string) : FileSystem :=
  {| nodes := List.filter (fun n => negb (String.eqb n p)) (nodes f);
     links := List.filter (fun l => negb (String.eqb (fst l) p)) (links f) |}.

Fixpoint has_slash (s : string) : bool :=
  match s with
  | EmptyString => false
  | String c rest => Ascii.eqb c Path.slash || has_slash rest
  end.

(** The name of [p] when [p] is a direct child of [dir]. *)
Definition child_name (dir p : string) : option string :=
  let prefix := dir +:+ Path.sep in
  if startsWith p prefix then
    let name := substring (String.length prefix) (String.length p - String.length prefix) p in
    if String.eqb name EmptyString || has_slash name then None else Some name
  else None.

(** [fs.promises.readdir(dir)]: the names of the direct children, in the
    order the file system enumerates them. *)
Definition readdir (env : Env) (f : FileSystem) (dir : string) : Outcome (list string) :=
  match realpath env f dir with
  | Returned d => Returned (omap (child_name d) (nodes f ++ map fst (links f))%list)
  | Thrown _ => Thrown (enoent "scandir" dir)
  end.

(** ** ASCII case mapping ([toUpperCase], [toLowerCase]) *)

Definition upper_char (c : ascii) : ascii :=
  let n := nat_of_ascii c in
  if (97 <=? n)%nat && (n <=? 122)%nat then ascii_of_nat (n - 32) else c.

Definition lower_char (c : ascii) : ascii :=
  let n := nat_of_ascii c in
  if (65 <=? n)%nat && (n <=? 90)%nat then ascii_of_nat (n + 32) else c.

Fixpoint map_chars (f : ascii -> ascii) (s : string) : string :=
  match s with
  | EmptyString => EmptyString
  | String c rest => String (f c) (map_chars f rest)
  end.

Definition toUpperCase : string -> string := map_chars upper_char.
Definition toLowerCase : string -> string := map_chars lower_char.

(** The line terminators, which the dot of a regular expression does not
    match: LF, CR, and U+2028 and U+2029, whose UTF-8 encodings are the
    bytes E2 80 A8 and E2 80 A9. *)
Definition starts_with_separator (s : string) : bool :=
  match s with
  | String c0 (String c1 (String c2 _)) =>
      Ascii.eqb c0 "226"%char && Ascii.eqb c1 "128"%char &&
      (Ascii.eqb c2 "168"%char || Ascii.eqb c2 "169"%char)
  | _ => false
  end.

Fixpoint has_line_terminator (s : string) : bool :=
  match s with
  | EmptyString => false
  | String c rest =>
      Ascii.eqb c "010"%char || Ascii.eqb c "013"%char ||
      starts_with_separator s || has_line_terminator rest
  end.

(** [file.match(/^session-(.+)$/)]: the capture group, when the name starts
    with the prefix and the rest is non-empty and free of line terminators. *)

Definition match_session_folder (file : string) : option string :=
  let prefix := "session-" in
  if startsWith file prefix then
    let rest := substring (String.length prefix) (String.length file - String.length prefix) file in
    if String.eqb rest EmptyString || has_line_terminator rest then None else Some rest
  else None.

(** ** Results returned by the module *)

(** The liveness result of [validateSession]. *)
Module Validation.
Record t := Build { success : bool; state : option string; message : string }.
End Validation.

(** The result of [setupSession]. *)
Module SetupResult.
Record t := Build { success : bool; message : string; client : option Handle }.
End SetupResult.

(** ** The functions of [src/sessions.js] *)

Section Sessions.

Variable env : Env.
Variable cfg : Config.

Definition log (level : LogLevel) (sessionId : option string) (err : option Error)
    (text : string) : M unit :=
  tell (Log level sessionId err text).

(** [waitForNestedObject(client, 'pupPage')] of [src/utils.js]: resolves
    once the property is set, logs and rejects after the maximum wait. *)
Definition waitForNestedObject (client : Handle) : M unit :=
  if pupPage_appears env client then ret tt
  else
    log Err None None "Timed out waiting for nested object" ;;;
    throw (MkError "Timeout waiting for nested object").

(** *** validateSession *)

Inductive LoopExit :=
| Break
| Return (v : Validation.t).

Definition type_error_isClosed : Error :=
  MkError "Cannot read properties of undefined (reading 'isClosed')".

(** The body of the [while (true)] loop of [validateSession].  The counter
    [maxRetry] runs through 0, 1, 2; the recursion is on [2 - maxRetry], the
    number of retries still allowed, so that [maxRetry === 2] reads
    [retries_left = 0]. *)
Fixpoint probe_loop (client : Handle) (retries_left : nat) : M LoopExit :=
  let maxRetry := (2 - retries_left)%nat in
  try_catch
    (match pupPage env client maxRetry with
     | PageMissing => throw type_error_isClosed
     | PageClosed =>
         ret (Return (Validation.Build false None "browser tab closed"))
     | ProbeResolved => tell (Probe client maxRetry) ;;; ret Break
     | ProbeRejected e => tell (Probe client maxRetry) ;;; throw e
     | ProbeTimedOut => tell (Probe client maxRetry) ;;; ret Break
     end)
    (fun error =>
       match retries_left with
       | O => ret (Return (Validation.Build false None "session closed"))
       | S fewer => probe_loop client fewer
       end).

Definition validateSession (sessionId : string) : M Validation.t :=
  try_catch
    (w <- get_world ;;
     match sessions w !! sessionId with
     | None => ret (Validation.Build false None "session_not_found")
     | Some client =>
         try_catch (waitForNestedObject client) (fun _ => ret tt) ;;;
         exit <- probe_loop client 2 ;;
         match exit with
         | Return v => ret v
         | Break =>
             state <- call_value (GetState client) (getState env client) ;;
             if bool_decide (state = Some "CONNECTED") then
               ret (Validation.Build true state "session_connected")
             else
               ret (Validation.Build false state "session_not_connected")
         end
     end)
    (fun error =>
       log Err (Some sessionId) (Some error) "Failed to validate session" ;;;
       ret (Validation.Build false None (error_message error))).

(** *** initializeEvents *)

Definition on (event : string) (l : Listener) (c : Client) : Client :=
  {| options := options c; listeners := listeners c ++ [(event, l)];
     qr := qr c; qrClearTimeout := qrClearTimeout c;
     recovery_hooks := recovery_hooks c |}.

Definition set_qr (q : option string) (timer : bool) (c : Client) : Client :=
  {| options := options c; listeners := listeners c;
     qr := q; qrClearTimeout := timer; recovery_hooks := recovery_hooks c |}.

Definition set_recovery_hooks (b : bool) (c : Client) : Client :=
  {| options := options c; listeners := listeners c;
     qr := qr c; qrClearTimeout := qrClearTimeout c; recovery_hooks := b |}.

(** [process.env[sessionId.toUpperCase() + '_WEBHOOK_URL'] || baseWebhookURL] *)
Definition sessionWebhook (sessionId : string) : string :=
  match process_env cfg (toUpperCase sessionId +:+ "_WEBHOOK_URL") with
  | Some url => if String.eqb url EmptyString then baseWebhookURL cfg else url
  | None => baseWebhookURL cfg
  end.

(** [if (isEventEnabled(event)) { client.on(event, ...) }], the callback
    forwarding to both sinks under [dataType]. *)
Definition on_if_enabled (sessionId event dataType : string) (c : Client) : Client :=
  if isEventEnabled cfg event
  then on event (Forward (sessionWebhook sessionId) sessionId dataType) c
  else c.

(** The categories bound before the message listener, between it and the
    QR listener, and after the QR listener, in source order. *)
Definition events_before_message : list string :=
  ["call"; "change_state"; "disconnected"; "group_join"; "group_leave";
   "group_admin_changed"; "group_membership_request"; "group_update";
   "loading_screen"; "media_uploaded"].

Definition events_before_qr : list string :=
  ["message_ack"; "message_create"; "message_reaction"; "message_edit";
   "message_ciphertext"; "message_revoke_everyone"; "message_revoke_me"].

Definition events_after_qr : list string :=
  ["ready"; "contact_changed"; "chat_removed"; "chat_archived";
   "unread_count"; "vote_update"].

Definition bind_all (sessionId : string) (events : list string) (c : Client) : Client :=
  fold_left (fun c event => on_if_enabled sessionId event event c) events c.

Definition bind_listeners (client : Handle) (sessionId : string) (c : Client) : Client :=
  let c := if recoverSessions cfg
           then set_recovery_hooks (pupPage_appears env client) c else c in
  let c := on_if_enabled sessionId "auth_failure" "status" c in
  let c := if isEventEnabled cfg "authenticated"
           then on "authenticated"
                  (Forward (sessionWebhook sessionId) sessionId "authenticated")
                  (set_qr None (qrClearTimeout c) c)
           else c in
  let c := bind_all sessionId events_before_message c in
  let c := on "message" (OnMessage (sessionWebhook sessionId) sessionId) c in
  let c := bind_all sessionId events_before_qr c in
  let c := on "qr" (OnQr (sessionWebhook sessionId) sessionId) c in
  bind_all sessionId events_after_qr c.

Definition type_error_client : Error :=
  MkError "Cannot read properties of undefined".

Definition initializeEvents (client : Handle) (sessionId : string) : M unit :=
  w <- get_world ;;
  match heap w !! client with
  | Some c => set_client client (bind_listeners client sessionId c)
  | None => throw type_error_client
  end.

(** *** The listeners, run by the client's event emitter *)

Definition sinks (url sessionId dataType : string) (data : Payload) : M unit :=
  tell (TriggerWebhook url sessionId dataType data) ;;;
  tell (TriggerWebSocket sessionId dataType data).

(** The continuation of [message.downloadMedia()]: its [then] and [catch]
    callbacks. *)
Definition media_settled (url sessionId : string) (message : Message) : M unit :=
  match downloadMedia env message with
  | Returned messageMedia =>
      sinks url sessionId "media" (MediaData messageMedia message)
  | Thrown error =>
      log Err (Some sessionId) (Some error) "Failed to download media"
  end.

(** The callback bound to ['message'].  [downloadMedia()] is called and not
    awaited: the listener goes on to [sleep(1000)] at once, and the
    continuation of the download runs when the download settles, before or
    after the pause is over. *)
Definition on_message (url sessionId : string) (message : Message) : M unit :=
  downloading <-
    (if isEventEnabled cfg "message" then
       sinks url sessionId "message" (MessageData message) ;;;
       if hasMedia message && size_below message (maxAttachmentSize cfg) then
         if isEventEnabled cfg "media" then
           tell (DownloadMedia message) ;;; ret true
         else ret false
       else ret false
     else ret false) ;;
  let settled :=
    if downloading : bool then media_settled url sessionId message else ret tt in
  if setMessagesAsSeen cfg then
    tell (Sleep 1000) ;;;
    if media_settles_first env message then
      settled ;;; tell (SendMessageSeenStatus message)
    else
      tell (SendMessageSeenStatus message) ;;; settled
  else settled.

(** The callback bound to ['qr']. *)
Definition on_qr (client : Handle) (url sessionId : string) (code : string) : M unit :=
  w <- get_world ;;
  match heap w !! client with
  | Some c => set_client client (set_qr (Some code) true c)
  | None => throw type_error_client
  end ;;;
  if isEventEnabled cfg "qr" then sinks url sessionId "qr" (QrData code)
  else ret tt.

(** [if (client.qr)]: [null], [undefined] and the empty string are falsy. *)
Definition truthy (value : option string) : bool :=
  match value with
  | Some text => negb (String.eqb text EmptyString)
  | None => false
  end.

(** The timer set by the QR callback, when it fires after 30 seconds. *)
Definition qr_timeout (client : Handle) (sessionId : string) : M unit :=
  w <- get_world ;;
  match heap w !! client with
  | Some c =>
      if truthy (qr c) then
        log Warn (Some sessionId) None "Removing expired QR code" ;;;
        set_client client (set_qr None (qrClearTimeout c) c)
      else ret tt
  | None => ret tt
  end.

Definition run_listener (client : Handle) (l : Listener) (data : Payload) : M unit :=
  match l with
  | Forward url sessionId dataType => sinks url sessionId dataType data
  | OnMessage url sessionId =>
      match data with
      | MessageData message => on_message url sessionId message
      | _ => ret tt
      end
  | OnQr url sessionId =>
      match data with
      | QrData code => on_qr client url sessionId code
      | _ => ret tt
      end
  end.

Fixpoint run_listeners (client : Handle) (bound : list (string * Listener))
    (event : string) (data : Payload) : M unit :=
  match bound with
  | [] => ret tt
  | (name, l) :: rest =>
      (if String.eqb name event then run_listener client l data else ret tt) ;;;
      run_listeners client rest event data
  end.

(** [client.emit(event, data)], as the third-party client does when the
    protocol layer reports an event. *)
Definition client_emit (client : Handle) (event : string) (data : Payload) : M unit :=
  w <- get_world ;;
  match heap w !! client with
  | Some c => run_listeners client (listeners c) event data
  | None => ret tt
  end.

(** *** setupSession *)

Definition puppeteer_args : list string :=
  ["--autoplay-policy=user-gesture-required"; "--disable-background-networking";
   "--disable-background-timer-throttling";
   "--disable-backgrounding-occluded-windows"; "--disable-breakpad";
   "--disable-client-side-phishing-detection"; "--disable-component-update";
   "--disable-default-apps"; "--disable-dev-shm-usage";
   "--disable-domain-reliability"; "--disable-extensions";
   "--disable-features=AudioServiceOutOfProcess"; "--disable-hang-monitor";
   "--disable-ipc-flooding-protection"; "--disable-notifications";
   "--disable-offer-store-unmasked-wallet-cards"; "--disable-popup-blocking";
   "--disable-print-preview"; "--disable-prompt-on-repost";
   "--disable-renderer-backgrounding"; "--disable-speech-api"; "--disable-sync";
   "--disable-gpu"; "--disable-accelerated-2d-canvas"; "--hide-scrollbars";
   "--ignore-gpu-blacklist"; "--metrics-recording-only"; "--mute-audio";
   "--no-default-browser-check"; "--no-first-run"; "--no-pings"; "--no-zygote";
   "--password-store=basic"; "--use-gl=swiftshader"; "--use-mock-keychain";
   "--disable-setuid-sandbox"; "--no-sandbox";
   "--disable-blink-features=AutomationControlled"].

Definition webVersionCache_for (version : string) : WebVersionCache :=
  let kind := toLowerCase (webVersionCacheType cfg) in
  if String.eqb kind "local" then CacheLocal
  else if String.eqb kind "remote" then
    CacheRemote ("https://raw.githubusercontent.com/wppconnect-team/wa-version/main/html/"
                 +:+ version +:+ ".html")
  else CacheNone.

Definition clientOptions (sessionId : string) : ClientOptions :=
  let version :=
    match webVersion cfg with
    | Some v => if String.eqb v EmptyString then None else Some v
    | None => None
    end in
  {| opt_executablePath := chromeBin cfg;
     opt_headless := headless cfg;
     opt_clientId := sessionId;
     opt_dataPath := sessionFolderPath cfg;
     opt_webVersion := version;
     opt_webVersionCache := webVersionCache_for <$> version;
     opt_args := puppeteer_args |}.

(** [new LocalAuth(...)] and [new Client(clientOptions)]: the constructors
    of the library may reject the options. *)
Definition new_Client (opts : ClientOptions) : M Handle :=
  match new_client env opts with
  | Some error => throw error
  | None =>
      alloc_client {| options := opts; listeners := []; qr := None;
                      qrClearTimeout := false; recovery_hooks := false |}
  end.

Definition release_browser_lock (sessionId : string) : M unit :=
  let singletonLockPath :=
    Path.resolve (cwd env)
      (Path.join [sessionFolderPath cfg; "session-" +:+ sessionId; "SingletonLock"]) in
  w <- get_world ;;
  if lstat_exists (fs w) singletonLockPath then
    log Warn (Some sessionId) None "Browser lock file exists, removing" ;;;
    call (Unlink singletonLockPath) (unlink_fails env singletonLockPath) ;;;
    set_fs (unlink (fs w) singletonLockPath)
  else ret tt.

Definition setupSession (sessionId : string) : M SetupResult.t :=
  try_catch
    (w <- get_world ;;
     match sessions w !! sessionId with
     | Some existing =>
         ret (SetupResult.Build false ("Session already exists for: " +:+ sessionId)
                (Some existing))
     | None =>
         log Info (Some sessionId) None "Session is being initiated" ;;;
         client <- new_Client (clientOptions sessionId) ;;
         (if releaseBrowserLock cfg then release_browser_lock sessionId else ret tt) ;;;
         try_catch
           (call (Initialize client) (initialize env client))
           (fun error =>
              log Err (Some sessionId) (Some error) "Initialize error" ;;;
              throw error) ;;;
         call (InitWebSocketServer sessionId) (initWebSocketServer env sessionId) ;;;
         initializeEvents client sessionId ;;;
         w <- get_world ;;
         set_sessions (<[sessionId := client]> (sessions w)) ;;;
         ret (SetupResult.Build true "Session initiated successfully" (Some client))
     end)
    (fun error => ret (SetupResult.Build false (error_message error) None)).

(** *** deleteSessionFolder *)

Definition traversal_detected : Error :=
  MkError "Invalid path: Directory traversal detected".

Definition deleteSessionFolder (sessionId : string) : M unit :=
  try_catch
    (let targetDirPath :=
       Path.join [sessionFolderPath cfg; "session-" +:+ sessionId] in
     w <- get_world ;;
     resolvedTargetDirPath <- lift (realpath env (fs w) targetDirPath) ;;
     resolvedSessionPath <- lift (realpath env (fs w) (sessionFolderPath cfg)) ;;
     let safeSessionPath := resolvedSessionPath +:+ Path.sep in
     if negb (startsWith resolvedTargetDirPath safeSessionPath) then
       throw traversal_detected
     else
       tell (Rm resolvedTargetDirPath) ;;;
       match rm_fails env resolvedTargetDirPath with
       | None => set_fs (rm_recursive_force (fs w) resolvedTargetDirPath)
       | Some failure =>
           set_fs (rm_interrupted (fs w) resolvedTargetDirPath (rm_removed failure)) ;;;
           throw (rm_error failure)
       end)
    (fun error =>
       log Err (Some sessionId) (Some error) "Folder deletion error" ;;;
       throw error).

(** *** deleteSession *)

(** [client.pupPage?.removeAllListeners('close')] and the same for
    ['error']. *)
Definition remove_recovery_listeners (client : Handle) : M unit :=
  if pupPage_appears env client then
    tell (RemoveAllListeners client "close") ;;;
    tell (RemoveAllListeners client "error") ;;;
    w <- get_world ;;
    match heap w !! client with
    | Some c => set_client client (set_recovery_hooks false c)
    | None => ret tt
    end
  else ret tt.

(** [while (client.pupBrowser.isConnected() && (maxDelay < 10))]: the
    counter [maxDelay] runs from 0; the recursion is on [10 - maxDelay]. *)
Fixpoint wait_disconnected (client : Handle) (polls_left : nat) : M unit :=
  let maxDelay := (10 - polls_left)%nat in
  connected <- call_value (IsConnected client maxDelay) (isConnected env client maxDelay) ;;
  if connected && (maxDelay <? 10)%nat then
    match polls_left with
    | O => ret tt
    | S fewer => tell (Sleep 1000) ;;; wait_disconnected client fewer
    end
  else ret tt.

(** The statements of [deleteSession] from the detaching of the recovery
    hooks to the end of the disconnection wait. *)
Definition disconnect_client (sessionId : string) (client : Handle)
    (validation : Validation.t) : M unit :=
  remove_recovery_listeners client ;;;
  try_catch
    (call (TerminateWebSocketServer sessionId)
       (terminateWebSocketServer env sessionId))
    (fun error =>
       log Err (Some sessionId) (Some error)
         "Failed to terminate WebSocket server") ;;;
  (if Validation.success validation then
     log Info (Some sessionId) None "Logging out session" ;;;
     call (Logout client) (logout env client)
   else if String.eqb (Validation.message validation) "session_not_connected" then
     log Info (Some sessionId) None "Destroying session" ;;;
     call (Destroy client) (destroy env client)
   else ret tt) ;;;
  wait_disconnected client 10.

(** [sessions.delete(sessionId)] *)
Definition unregister (sessionId : string) : M unit :=
  w <- get_world ;;
  set_sessions (delete sessionId (sessions w)).

Definition deleteSession (sessionId : string) (validation : Validation.t) : M unit :=
  try_catch
    (w <- get_world ;;
     match sessions w !! sessionId with
     | None => ret tt
     | Some client =>
         disconnect_client sessionId client validation ;;;
         unregister sessionId ;;;
         deleteSessionFolder sessionId
     end)
    (fun error =>
       log Err (Some sessionId) (Some error) "Failed to delete session" ;;;
       throw error).

(** *** flushSessions *)

(** The body of the [for (const file of files)] loop. *)
Definition flush_file (deleteOnlyInactive : bool) (file : string) : M unit :=
  match match_session_folder file with
  | Some sessionId =>
      validation <- validateSession sessionId ;;
      if negb deleteOnlyInactive || negb (Validation.success validation)
      then deleteSession sessionId validation
      else ret tt
  | None => ret tt
  end.

Fixpoint flush_each (deleteOnlyInactive : bool) (files : list string) : M unit :=
  match files with
  | [] => ret tt
  | file :: rest =>
      flush_file deleteOnlyInactive file ;;;
      flush_each deleteOnlyInactive rest
  end.

Definition flushSessions (deleteOnlyInactive : bool) : M unit :=
  try_catch
    (w <- get_world ;;
     files <- lift (readdir env (fs w) (sessionFolderPath cfg)) ;;
     flush_each deleteOnlyInactive files)
    (fun error =>
       log Err None (Some error) "Failed to flush sessions" ;;;
       throw error).

End Sessions.

(** [s.includes(part)] *)
Definition includes (s part : string) : bool :=
  match String.index 0 part s with
  | Some _ => true
  | None => false
  end.

(** ** Concrete configurations, collaborators and worlds

    Used to run the functions above on explicit inputs. *)
Module Sample.

Definition config : Config :=
  {| baseWebhookURL := "http://localhost:3000/localCallbackExample";
     sessionFolderPath := "/data/sessions";
     maxAttachmentSize := 10000000;
     setMessagesAsSeen := true;
     webVersion := None;
     webVersionCacheType := "none";
     recoverSessions := false;
     chromeBin := None;
     headless := true;
     releaseBrowserLock := true;
     disabledCallbacks := [];
     process_env := fun _ => None |}.

Definition with_disabled (disabled : list string) (c : Config) : Config :=
  {| baseWebhookURL := baseWebhookURL c;
     sessionFolderPath := sessionFolderPath c;
     maxAttachmentSize := maxAttachmentSize c;
     setMessagesAsSeen := setMessagesAsSeen c;
     webVersion := webVersion c;
     webVersionCacheType := webVersionCacheType c;
     recoverSessions := recoverSessions c;
     chromeBin := chromeBin c;
     headless := headless c;
     releaseBrowserLock := releaseBrowserLock c;
     disabledCallbacks := disabled;
     process_env := process_env c |}.

(** Collaborators that always succeed: the page answers the probe, the
    protocol layer is connected, the browser is disconnected at the first
    poll. *)
Definition healthy : Env :=
  {| cwd := "/app";
     unlink_fails := fun _ => None;
     rm_fails := fun _ => None;
     new_client := fun _ => None;
     initialize := fun _ => None;
     initWebSocketServer := fun _ => None;
     terminateWebSocketServer := fun _ => None;
     pupPage_appears := fun _ => true;
     pupPage := fun _ _ => ProbeResolved;
     getState := fun _ => Returned (Some "CONNECTED");
     logout := fun _ => None;
     destroy := fun _ => None;
     isConnected := fun _ _ => Returned false;
     downloadMedia := fun _ => Returned "base64";
     media_settles_first := fun _ => true |}.

Definition with_initialize (answer : Handle -> option Error) (e : Env) : Env :=
  {| cwd := cwd e; unlink_fails := unlink_fails e; rm_fails := rm_fails e;
     new_client := new_client e; initialize := answer;
     initWebSocketServer := initWebSocketServer e;
     terminateWebSocketServer := terminateWebSocketServer e;
     pupPage_appears := pupPage_appears e; pupPage := pupPage e;
     getState := getState e; logout := logout e; destroy := destroy e;
     isConnected := isConnected e; downloadMedia := downloadMedia e;
     media_settles_first := media_settles_first e |}.

Definition with_pupPage (answer : Handle -> nat -> PageObservation) (e : Env) : Env :=
  {| cwd := cwd e; unlink_fails := unlink_fails e; rm_fails := rm_fails e;
     new_client := new_client e; initialize := initialize e;
     initWebSocketServer := initWebSocketServer e;
     terminateWebSocketServer := terminateWebSocketServer e;
     pupPage_appears := pupPage_appears e; pupPage := answer;
     getState := getState e; logout := logout e; destroy := destroy e;
     isConnected := isConnected e; downloadMedia := downloadMedia e;
     media_settles_first := media_settles_first e |}.

Definition with_getState (answer : Handle -> Outcome (option string)) (e : Env) : Env :=
  {| cwd := cwd e; unlink_fails := unlink_fails e; rm_fails := rm_fails e;
     new_client := new_client e; initialize := initialize e;
     initWebSocketServer := initWebSocketServer e;
     terminateWebSocketServer := terminateWebSocketServer e;
     pupPage_appears := pupPage_appears e; pupPage := pupPage e;
     getState := answer; logout := logout e; destroy := destroy e;
     isConnected := isConnected e; downloadMedia := downloadMedia e;
     media_settles_first := media_settles_first e |}.

Definition with_logout (answer : Handle -> option Error) (e : Env) : Env :=
  {| cwd := cwd e; unlink_fails := unlink_fails e; rm_fails := rm_fails e;
     new_client := new_client e; initialize := initialize e;
     initWebSocketServer := initWebSocketServer e;
     terminateWebSocketServer := terminateWebSocketServer e;
     pupPage_appears := pupPage_appears e; pupPage := pupPage e;
     getState := getState e; logout := answer; destroy := destroy e;
     isConnected := isConnected e; downloadMedia := downloadMedia e;
     media_settles_first := media_settles_first e |}.

Definition with_rm (answer : string -> option RmFailure) (e : Env) : Env :=
  {| cwd := cwd e; unlink_fails := unlink_fails e; rm_fails := answer;
     new_client := new_client e; initialize := initialize e;
     initWebSocketServer := initWebSocketServer e;
     terminateWebSocketServer := terminateWebSocketServer e;
     pupPage_appears := pupPage_appears e; pupPage := pupPage e;
     getState := getState e; logout := logout e; destroy := destroy e;
     isConnected := isConnected e; downloadMedia := downloadMedia e;
     media_settles_first := media_settles_first e |}.

Definition with_unlink (answer : string -> option Error) (e : Env) : Env :=
  {| cwd := cwd e; unlink_fails := answer; rm_fails := rm_fails e;
     new_client := new_client e; initialize := initialize e;
     initWebSocketServer := initWebSocketServer e;
     terminateWebSocketServer := terminateWebSocketServer e;
     pupPage_appears := pupPage_appears e; pupPage := pupPage e;
     getState := getState e; logout := logout e; destroy := destroy e;
     isConnected := isConnected e; downloadMedia := downloadMedia e;
     media_settles_first := media_settles_first e |}.

(** A file system on which the removal of a folder empties it and then
    fails on the folder itself. *)
Definition rm_busy : Env :=
  with_rm
    (fun p => Some {| rm_error := MkError ("EBUSY: resource busy or locked, rmdir '"
                                           +:+ p +:+ "'");
                      rm_removed := fun _ => true |})
    healthy.

(** A file system on which the stale browser lock cannot be removed. *)
Definition lock_stuck : Env :=
  with_unlink (fun _ => Some (MkError "EPERM: operation not permitted, unlink")) healthy.

(** A storage root with the folders of two sessions and an unrelated
    directory, next to a sibling directory outside the root. *)
Definition disk : FileSystem :=
  {| nodes := ["/data"; "/data/etc"; "/data/etc/passwd"; "/data/sessions";
               "/data/sessions/session-alpha";
               "/data/sessions/session-alpha/SingletonLock";
               "/data/sessions/session-beta";
               "/data/sessions/scratch"];
     links := [] |}.

(** The state of a freshly started process. *)
Definition boot : World :=
  {| sessions := ∅; heap := ∅; next_handle := 0; fs := disk; trace := [] |}.

(** The state after [setupSession('alpha')] and [setupSession('beta')]. *)
Definition two_sessions : World :=
  snd (setupSession healthy config "beta"
         (snd (setupSession healthy config "alpha" boot))).

(** A page on which [evaluate] never settles: every round of the probe is
    ended by the timer. *)
Definition hung : Env := with_pupPage (fun _ _ => ProbeTimedOut) healthy.

(** A page whose tab has been closed. *)
Definition closed_tab : Env := with_pupPage (fun _ _ => PageClosed) healthy.

(** Both sessions registered, the folder of [alpha] gone from the disk. *)
Definition folder_lost : World :=
  {| sessions := sessions two_sessions; heap := heap two_sessions;
     next_handle := next_handle two_sessions;
     fs := {| nodes := ["/data"; "/data/etc"; "/data/etc/passwd"; "/data/sessions";
                        "/data/sessions/session-beta"; "/data/sessions/scratch"];
              links := [] |};
     trace := trace two_sessions |}.

(** A client whose [logout()] rejects. *)
Definition logout_fails : Env :=
  with_logout (fun _ => Some (MkError "Protocol error")) healthy.

(** The client object [new Client(...)] returns, before any listener is
    bound. *)
Definition fresh_client (sessionId : string) : Client :=
  {| options := clientOptions config sessionId; listeners := []; qr := None;
     qrClearTimeout := false; recovery_hooks := false |}.

(** The state right after the client of [alpha] has been constructed. *)
Definition constructed : World :=
  snd (new_Client healthy (clientOptions config "alpha") boot).

(** An inbound message with a one-kilobyte attachment. *)
Definition photo : Message :=
  {| msg_id := "3EB0C767D097B7C7C030"; hasMedia := true; data_size := Some 1024 |}.

(** A second client, at address 1, whose protocol layer is not connected. *)
Definition second_offline : Env :=
  with_getState
    (fun h => if Nat.eqb h 1 then Returned (Some "UNPAIRED") else Returned (Some "CONNECTED"))
    healthy.

End Sample.

(** ** Vocabulary of the statements *)

(** The round of the probe loop ends in the [catch] block. *)
Definition attempt_throws (o : PageObservation) : bool :=
  match o with
  | PageMissing | ProbeRejected _ => true
  | _ => false
  end.

(** The round of the probe loop reaches [break]: the probe resolved, or the
    timer resolved the race first. *)
Definition attempt_passes (o : PageObservation) : bool :=
  match o with
  | ProbeResolved | ProbeTimedOut => true
  | _ => false
  end.

(** ** Relations between the worlds before and after a run *)

(** [steps R m]: every run of [m] relates the initial world to the final one
    by [R], whether [m] returns or throws. *)
Definition steps {A} (R : relation World) (m : M A) : Prop :=
  ∀ w, R w (snd (m w)).

(** The run only adds effects satisfying [P] to the trace. *)
Definition adds (P : Effect → Prop) : relation World :=
  λ w w', ∃ t, trace w' = (t ++ trace w)%list ∧ Forall P t.

(** The run leaves the component [f] of the world as it was. *)
Definition keeps {B} (f : World → B) : relation World :=
  λ w w', f w' = f w.

Definition both (R1 R2 : relation World) : relation World :=
  λ w w', R1 w w' ∧ R2 w w'.

(** Calls that tear a client down. *)
Definition teardown_call (e : Effect) : bool :=
  match e with
  | Logout _ | Destroy _ => true
  | _ => false
  end.

Definition not_teardown (e : Effect) : Prop := teardown_call e = false.

(** Runs that issue neither [logout()] nor [destroy()] and touch neither the
    registry nor the file system. *)
Definition quiet : relation World :=
  both (adds not_teardown) (both (keeps sessions) (keeps fs)).

(** The world after [sessions.delete(sessionId)]. *)
Definition unregistered (sessionId : string) (w : World) : World :=
  snd (unregister sessionId w).

(** The world after the [logger.error] of the [catch] block of
    [deleteSession]. *)
Definition delete_logged (sessionId : string) (e : Error) (w : World) : World :=
  snd (tell (Log Err (Some sessionId) (Some e) "Failed to delete session") w).

(** The effects of the teardown request. *)
Definition teardown_effects (sessionId : string) (client : nat)
    (validation : Validation.t) : list Effect :=
  if Validation.success validation then
    [Logout client; Log Info (Some sessionId) None "Logging out session"]
  else if String.eqb (Validation.message validation) "session_not_connected" then
    [Destroy client; Log Info (Some sessionId) None "Destroying session"]
  else [].

(** The error the teardown request throws, if any. *)
Definition teardown_error (env : Env) (client : nat) (validation : Validation.t)
  : option Error :=
  if Validation.success validation then logout env client
  else if String.eqb (Validation.message validation) "session_not_connected"
       then destroy env client
       else None.

(** The world after the [logger.error] of the [catch] block of
    [flushSessions]. *)
Definition flush_logged (e : Error) (w : World) : World :=
  snd (tell (Log Err None (Some e) "Failed to flush sessions") w).

(** The category under which a call to a sink delivers its envelope. *)
Definition sink_dataType (e : Effect) : option string :=
  match e with
  | TriggerWebhook _ _ dataType _ | TriggerWebSocket _ dataType _ => Some dataType
  | _ => None
  end.

(** What happens to a client after its listeners are bound: the client emits
    an event while the configuration reads [cfg], or a QR expiry timer
    fires. *)
Inductive Happening :=
| Emitted (cfg : Config) (client : Handle) (event : string) (data : Payload)
| QrExpired (client : Handle) (sessionId : string).

Definition happen (env : Env) (hp : Happening) : M unit :=
  match hp with
  | Emitted cfg client event data => client_emit env cfg client event data
  | QrExpired client sessionId => qr_timeout client sessionId
  end.

(** The world after a history of happenings. *)
Fixpoint replay (env : Env) (history : list Happening) (w : World) : World :=
  match history with
  | [] => w
  | hp :: rest => replay env rest (snd (happen env hp w))
  end.

(** The listeners [bind_all] adds for a list of categories. *)
Definition bound_forwarders (cfg : Config) (sessionId : string) (events : list string)
  : list (string * Listener) :=
  flat_map
    (fun event =>
       if isEventEnabled cfg event
       then [(event, Forward (sessionWebhook cfg sessionId) sessionId event)]
       else [])
    events.

(** The listeners [initializeEvents] adds, in order. *)
Definition bound_listeners (cfg : Config) (sessionId : string) : list (string * Listener) :=
  ((if isEventEnabled cfg "auth_failure"
    then [("auth_failure", Forward (sessionWebhook cfg sessionId) sessionId "status")]
    else []) ++
   (if isEventEnabled cfg "authenticated"
    then [("authenticated",
           Forward (sessionWebhook cfg sessionId) sessionId "authenticated")]
    else []) ++
   bound_forwarders cfg sessionId events_before_message ++
   [("message", OnMessage (sessionWebhook cfg sessionId) sessionId)] ++
   bound_forwarders cfg sessionId events_before_qr ++
   [("qr", OnQr (sessionWebhook cfg sessionId) sessionId)] ++
   bound_forwarders cfg sessionId events_after_qr)%list.

(** The listeners bound on the client at address [h]. *)
Definition listeners_of (h : nat) (w : World) : option (list (string * Listener)) :=
  listeners <$> heap w !! h.

(** The effect is not a sink call delivering under [category]. *)
Definition no_sink_for (category : string) (e : Effect) : Prop :=
  sink_dataType e ≠ Some category.

(** ** The remaining functions of [src/sessions.js] *)

(** Answers of the browser object [client.pupBrowser], which
    [destroySession] and [reloadSession] use beyond [isConnected].  The
    calls [reloadSession] makes on it ([pages], [close], [process], [kill])
    change nothing the module reads; they are answered here and leave no
    entry in the trace. *)
Record Browser := {
  pupBrowser_defined : Handle -> bool;      (* [client.pupBrowser] is set *)
  close_pages : Handle -> option Error;     (* [pages()] and each [page.close()] *)
  close_browser : Handle -> option Error;   (* the race of [close()] with the
                                               five-second timer; [None] when
                                               either resolves *)
  browser_process : Handle -> bool          (* [process()] is not null *)
}.

(** The [TypeError] of reading the member [member] of an unset
    [client.pupBrowser]. *)
Definition type_error_reading (member : string) : Error :=
  MkError ("Cannot read properties of undefined (reading '" +:+ member +:+ "')").

(** [fs.existsSync(p)] *)
Definition existsSync (env : Env) (f : FileSystem) (p : string) : bool :=
  match realpath env f p with
  | Returned _ => true
  | Thrown _ => false
  end.

(** [fs.mkdirSync(p)], not recursive: the entry must be new and its parent
    must exist. *)
Definition mkdirSync (env : Env) (f : FileSystem) (p : string) : Outcome FileSystem :=
  let q := Path.resolve (cwd env) p in
  if lstat_exists f q then
    Thrown (MkError ("EEXIST: file already exists, mkdir '" +:+ p +:+ "'"))
  else if existsSync env f (q +:+ "/..") then
    Returned {| nodes := (nodes f ++ [q])%list; links := links f |}
  else Thrown (enoent "mkdir" p).

Section Lifecycle.

Variable env : Env.
Variable browser : Browser.
Variable cfg : Config.

(** *** restoreSessions *)

(** The body of the [for (const file of files)] loop in the callback of
    [fs.readdir]. *)
Definition restore_file (file : string) : M unit :=
  match match_session_folder file with
  | Some sessionId =>
      log Warn (Some sessionId) None "Existing session detected" ;;;
      _ <- setupSession env cfg sessionId ;;
      ret tt
  | None => ret tt
  end.

Fixpoint restore_each (files : list string) : M unit :=
  match files with
  | [] => ret tt
  | file :: rest => restore_file file ;;; restore_each rest
  end.

(** The callback [async (_, files) => ...]: when [readdir] fails, [files] is
    undefined and the loop header throws. *)
Definition restore_callback (files : Outcome (list string)) : M unit :=
  match files with
  | Returned names => restore_each names
  | Thrown _ => throw (MkError "files is not iterable")
  end.

(** [restoreSessions]: the synchronous part runs inside the [try]; the
    callback of [fs.readdir] runs afterwards, outside it, so that an error
    thrown by the callback is not caught here (it surfaces as the outcome of
    the run). *)
Definition restoreSessions : M unit :=
  scheduled <-
    try_catch
      (w <- get_world ;;
       (if negb (existsSync env (fs w) (sessionFolderPath cfg)) then
          created <- lift (mkdirSync env (fs w) (sessionFolderPath cfg)) ;;
          set_fs created
        else ret tt) ;;;
       ret true)
      (fun error =>
         log Err None (Some error) "Failed to restore sessions" ;;;
         ret false) ;;
  if scheduled then
    w <- get_world ;;
    restore_callback (readdir env (fs w) (sessionFolderPath cfg))
  else ret tt.

(** *** The recovery hooks of [initializeEvents] *)

(** [restartSession], the closure over [client] bound to the page's
    ['close'] and ['error'] events. *)
Definition restartSession (client : Handle) (sessionId : string) : M unit :=
  unregister sessionId ;;;
  try_catch (call (Destroy client) (destroy env client)) (fun _ => ret tt) ;;;
  _ <- setupSession env cfg sessionId ;;
  ret tt.

(** The handler of the page's ['close'] event. *)
Definition on_page_close (client : Handle) (sessionId : string) : M unit :=
  log Warn (Some sessionId) None "Browser page closed. Restoring" ;;;
  restartSession client sessionId.

(** The handler of the page's ['error'] event. *)
Definition on_page_error (client : Handle) (sessionId : string) : M unit :=
  log Warn (Some sessionId) None "Error occurred on browser page. Restoring" ;;;
  restartSession client sessionId.

(** *** reloadSession *)

(** The inner [try] of [reloadSession]: close every page, then the browser
    within five seconds. *)
Definition close_gracefully (client : Handle) : M unit :=
  if pupBrowser_defined browser client then
    lift (match close_pages browser client with
          | Some e => Thrown e
          | None => Returned tt
          end) ;;;
    lift (match close_browser browser client with
          | Some e => Thrown e
          | None => Returned tt
          end)
  else throw (type_error_reading "pages").

(** The inner [catch] of [reloadSession]: kill the browser process, if there
    is one. *)
Definition kill_process (client : Handle) : M unit :=
  if pupBrowser_defined browser client then
    if browser_process browser client then ret tt (* [childProcess.kill(9)] *)
    else ret tt
  else throw (type_error_reading "process").

Definition reloadSession (sessionId : string) : M unit :=
  try_catch
    (w <- get_world ;;
     match sessions w !! sessionId with
     | None => ret tt
     | Some client =>
         remove_recovery_listeners env client ;;;
         try_catch (close_gracefully client) (fun _ => kill_process client) ;;;
         unregister sessionId ;;;
         _ <- setupSession env cfg sessionId ;;
         ret tt
     end)
    (fun error =>
       log Err (Some sessionId) (Some error) "Failed to reload session" ;;;
       throw error).

(** *** destroySession *)

(** [while (client.pupBrowser?.isConnected() && (maxDelay < 10))]: as
    [wait_disconnected], except that an unset [pupBrowser] reads as not
    connected. *)
Fixpoint wait_disconnected_if_browser (client : Handle) (polls_left : nat) : M unit :=
  let maxDelay := (10 - polls_left)%nat in
  connected <-
    (if pupBrowser_defined browser client
     then call_value (IsConnected client maxDelay) (isConnected env client maxDelay)
     else ret false) ;;
  if connected && (maxDelay <? 10)%nat then
    match polls_left with
    | O => ret tt
    | S fewer => tell (Sleep 1000) ;;; wait_disconnected_if_browser client fewer
    end
  else ret tt.

Definition destroySession (sessionId : string) : M unit :=
  try_catch
    (w <- get_world ;;
     match sessions w !! sessionId with
     | None => ret tt
     | Some client =>
         remove_recovery_listeners env client ;;;
         try_catch
           (call (TerminateWebSocketServer sessionId)
              (terminateWebSocketServer env sessionId))
           (fun error =>
              log Err (Some sessionId) (Some error)
                "Failed to terminate WebSocket server") ;;;
         call (Destroy client) (destroy env client) ;;;
         wait_disconnected_if_browser client 10 ;;;
         unregister sessionId
     end)
    (fun error =>
       log Err (Some sessionId) (Some error) "Failed to stop session" ;;;
       throw error).

End Lifecycle.

(** ** [decodeBase64] of [src/utils.js] *)

Definition chunkSize : nat := 1024.

(** [base64String.slice(i, i + chunkSize)] *)
Definition slice_chunk (s : string) (i : nat) : string := substring i chunkSize s.

(** The chunks the generator cuts, from index [i] on.  Every round advances
    [i] by [chunkSize]; [rounds] bounds the number of rounds. *)
Fixpoint chunks_from (rounds : nat) (s : string) (i : nat) : list string :=
  match rounds with
  | O => []
  | S fewer =>
      if (i <? String.length s)%nat
      then slice_chunk s i :: chunks_from fewer s (i + chunkSize)
      else []
  end.

(** The values the generator yields, [decode] standing for
    [Buffer.from(chunk, 'base64')].  The loop runs at most once per
    character. *)
Definition decodeBase64 {B} (decode : string -> B) (base64String : string) : list B :=
  map decode (chunks_from (String.length base64String) base64String 0).

(** ** Vocabulary of the further properties *)

(** The calls a liveness check may make. *)
Definition validation_call (e : Effect) : Prop :=
  match e with
  | Probe _ _ | GetState _ | Log _ _ _ _ => True
  | _ => False
  end.

(** Runs that leave everything but the trace as it was. *)
Definition observes : relation World :=
  both (adds validation_call)
    (both (keeps sessions) (both (keeps heap) (both (keeps fs) (keeps next_handle)))).

(** The registry is tidy: every registered handle has been allocated and
    has its client object, and no two ids share a client. *)
Definition tidy (w : World) : Prop :=
  (∀ sid h, sessions w !! sid = Some h →
            (h < next_handle w)%nat ∧ is_Some (heap w !! h)) ∧
  (∀ sid1 sid2 h, sessions w !! sid1 = Some h → sessions w !! sid2 = Some h →
                  sid1 = sid2).

(** The run neither frees a handle nor drops a client object, and keeps
    registered whatever it does not unregister: the registry afterwards
    holds old entries only. *)
Definition shrinks : relation World :=
  λ w w', (next_handle w ≤ next_handle w')%nat ∧
          (∀ h, is_Some (heap w !! h) → is_Some (heap w' !! h)) ∧
          (∀ sid h, sessions w' !! sid = Some h → sessions w !! sid = Some h).

(** The run keeps the registry tidy. *)
Definition keeps_tidy : relation World := λ w w', tidy w → tidy w'.

(** What the module may be asked to do, or may see happen. *)
Inductive Request :=
| ReqSetup (sessionId : string)
| ReqValidate (sessionId : string)
| ReqDelete (sessionId : string) (validation : Validation.t)
| ReqDestroy (sessionId : string)
| ReqReload (sessionId : string)
| ReqFlush (deleteOnlyInactive : bool)
| ReqRestore
| ReqPageClose (client : Handle) (sessionId : string)
| ReqPageError (client : Handle) (sessionId : string)
| ReqHappening (hp : Happening).

Definition serve (env : Env) (browser : Browser) (cfg : Config) (req : Request) : M unit :=
  match req with
  | ReqSetup sessionId => _ <- setupSession env cfg sessionId ;; ret tt
  | ReqValidate sessionId => _ <- validateSession env sessionId ;; ret tt
  | ReqDelete sessionId validation => deleteSession env cfg sessionId validation
  | ReqDestroy sessionId => destroySession env browser sessionId
  | ReqReload sessionId => reloadSession env browser cfg sessionId
  | ReqFlush deleteOnlyInactive => flushSessions env cfg deleteOnlyInactive
  | ReqRestore => restoreSessions env cfg
  | ReqPageClose client sessionId => on_page_close env cfg client sessionId
  | ReqPageError client sessionId => on_page_error env cfg client sessionId
  | ReqHappening hp => happen env hp
  end.

(** The state after a series of requests, each served to its end (returned
    or thrown) before the next. *)
Fixpoint serve_all (env : Env) (browser : Browser) (cfg : Config)
    (requests : list Request) (w : World) : World :=
  match requests with
  | [] => w
  | req :: rest => serve_all env browser cfg rest (snd (serve env browser cfg req w))
  end.

(** Calls that neither log a client out, nor destroy it, nor touch the
    disk. *)
Definition harmless (e : Effect) : Prop :=
  match e with
  | Logout _ | Destroy _ | Rm _ | Unlink _ => False
  | _ => True
  end.

(** Runs that make harmless calls only and keep the registry and the file
    system. *)
Definition idle : relation World :=
  both (adds harmless) (both (keeps sessions) (keeps fs)).

(** The path of the browser's lock file in the folder of a session. *)
Definition singletonLockPath (env : Env) (cfg : Config) (sid : string) : string :=
  Path.resolve (cwd env)
    (Path.join [sessionFolderPath cfg; "session-" +:+ sid; "SingletonLock"]).

(** Calls other than [logout()], [destroy()] and [rm]. *)
Definition keeps_credentials (e : Effect) : Prop :=
  match e with
  | Logout _ | Destroy _ | Rm _ => False
  | _ => True
  end.

(** What the registry holds after the id has been unregistered and set up
    again from the state [w]. *)
Definition renewed (sid : string) (w w' : World) : Prop :=
  sessions w' = delete sid (sessions w) ∨
  sessions w' = <[sid := next_handle w]> (delete sid (sessions w)).

(** Runs that leave the registry, the disk and the handle counter alone and
    neither log a client out, nor destroy it, nor remove a folder. *)
Definition calm : relation World :=
  both (adds keeps_credentials)
    (both (keeps sessions) (both (keeps fs) (keeps next_handle))).

(** A browser that is attached to every client and closes when asked. *)
Definition attached_browser : Browser :=
  {| pupBrowser_defined := fun _ => true; close_pages := fun _ => None;
     close_browser := fun _ => None; browser_process := fun _ => true |}.

(** No client has a browser: [client.pupBrowser] is unset. *)
Definition detached_browser : Browser :=
  {| pupBrowser_defined := fun _ => false; close_pages := fun _ => None;
     close_browser := fun _ => None; browser_process := fun _ => false |}.

(** The first client starts; the browser of the second one fails to
    launch. *)
Definition relaunch_fails : Env :=
  Sample.with_initialize
    (fun h => if (h =? 0)%nat then None
              else Some (MkError "Failed to launch the browser process"))
    Sample.healthy.

(** The state after [alpha] has been set up on an empty disk. *)
Definition alpha_running : World :=
  snd (setupSession Sample.healthy Sample.config "alpha" Sample.boot).

(** Every call of the collaborators that [setupSession] makes succeeds: the
    constructors, the removal of a stale lock, [initialize()] and
    [initWebSocketServer]. *)
Definition cooperative (env : Env) : Prop :=
  (∀ opts, new_client env opts = None) ∧
  (∀ path, unlink_fails env path = None) ∧
  (∀ h, initialize env h = None) ∧
  (∀ sid, initWebSocketServer env sid = None).

(** A chunk as the generator cuts it: not empty, and of at most [chunkSize]
    characters. *)
Definition chunk_sized (c : string) : Prop :=
  (1 ≤ String.length c ≤ chunkSize)%nat.




(** [client.qr] of the client at address [h]. *)
Definition qr_of (h : nat) (w : World) : option (option string) :=
  qr <$> heap w !! h.

(** The first of the calls of [setupSession] to fail, if one does, when it
    starts in the state [w]: the constructors, the removal of the stale
    lock (attempted when [releaseBrowserLock] is set and the lock is there),
    [initialize()] and [initWebSocketServer], in this order. *)
Definition setup_failure (env : Env) (cfg : Config) (sid : string) (w : World)
  : option Error :=
  match new_client env (clientOptions cfg sid) with
  | Some e => Some e
  | None =>
      match (if releaseBrowserLock cfg
                && lstat_exists (fs w) (singletonLockPath env cfg sid)
             then unlink_fails env (singletonLockPath env cfg sid)
             else None) with
      | Some e => Some e
      | None =>
          match initialize env (next_handle w) with
          | Some e => Some e
          | None => initWebSocketServer env sid
          end
      end
  end.

Definition is_sleep (e : Effect) : bool :=
  match e with
  | Sleep _ => true
  | _ => false
  end.

(** The number of pauses in a stretch of the trace. *)
Definition sleeps (t : list Effect) : nat := length (List.filter is_sleep t).

(** Calls other than a pause. *)
Definition no_sleep (e : Effect) : Prop := is_sleep e = false.

(** A browser that never reports a disconnect. *)
Definition never_disconnects : Env :=
  {| cwd := cwd Sample.healthy; unlink_fails := unlink_fails Sample.healthy;
     rm_fails := rm_fails Sample.healthy; new_client := new_client Sample.healthy;
     initialize := initialize Sample.healthy;
     initWebSocketServer := initWebSocketServer Sample.healthy;
     terminateWebSocketServer := terminateWebSocketServer Sample.healthy;
     pupPage_appears := pupPage_appears Sample.healthy; pupPage := pupPage Sample.healthy;
     getState := getState Sample.healthy; logout := logout Sample.healthy;
     destroy := destroy Sample.healthy;
     isConnected := fun _ _ => Returned true;
     downloadMedia := downloadMedia Sample.healthy;
     media_settles_first := media_settles_first Sample.healthy |}.

(** ** Vocabulary of the verdict of [validateSession] *)

Definition is_probe (e : Effect) : bool :=
  match e with
  | Probe _ _ => true
  | _ => false
  end.

(** The number of probes of the page ([evaluate('1')]) in a stretch of the
    trace. *)
Definition probes (t : list Effect) : nat := length (List.filter is_probe t).

(** What [validateSession] answers once the probe loop has reached [break]:
    the verdict of [getState()]. *)
Definition state_verdict (env : Env) (h : nat) : Validation.t :=
  match getState env h with
  | Returned state =>
      if bool_decide (state = Some "CONNECTED")
      then Validation.Build true state "session_connected"
      else Validation.Build false state "session_not_connected"
  | Thrown error => Validation.Build false None (error_message error)
  end.

(** [f'] is [f] with some paths gone: the entries and links at the paths that
    [keep] rejects. *)
Definition pruned (f f' : FileSystem) : Prop :=
  ∃ keep : string → bool,
    nodes f' = List.filter keep (nodes f) ∧
    links f' = List.filter (fun l => keep (fst l)) (links f).

(** [p] is the resolved folder of a session registered in [w]. *)
Definition registered_folder (env : Env) (cfg : Config) (w : World) (p : string) : Prop :=
  ∃ sid, is_Some (sessions w !! sid) ∧
         realpath env (fs w) (Path.join [sessionFolderPath cfg; "session-" +:+ sid])
         = Returned p.

(** The state [w'] is reached from [w] by unregistering sessions and
    removing resolved folders of sessions registered in [w], or parts of
    them, with the calls [t]. *)
Definition flushed (env : Env) (cfg : Config) (w w' : World) (t : list Effect) : Prop :=
  trace w' = (t ++ trace w)%list ∧
  (∀ sid h, sessions w' !! sid = Some h → sessions w !! sid = Some h) ∧
  pruned (fs w) (fs w') ∧
  (∀ p, Rm p ∈ t → registered_folder env cfg w p) ∧
  (∀ n, n ∈ nodes (fs w) → n ∉ nodes (fs w') → ∃ p, Rm p ∈ t ∧ under p n = true).

(** Calls other than [rm]. *)
Definition no_rm (e : Effect) : Prop :=
  match e with
  | Rm _ => False
  | _ => True
  end.

(** * Properties *)

(** ** Reasoning about runs *)

Ltac unfold_monad :=
  unfold bind, try_catch, ret, throw, lift, call, call_value, log, tell,
    get_world, set_sessions, set_fs, set_client, alloc_client in *.

Lemma grown_nil (l : list Effect) : l = ([] ++ l)%list.
Proof. reflexivity. Qed.

Lemma grown_cons (e : Effect) (t l l0 : list Effect) :
  l = (t ++ l0)%list -> e :: l = ((e :: t) ++ l0)%list.
Proof. intros ->. reflexivity. Qed.

Lemma grown_app (t1 t2 l l0 : list Effect) :
  l = (t2 ++ l0)%list -> (t1 ++ l)%list = ((t1 ++ t2) ++ l0)%list.
Proof. intros ->. by rewrite app_assoc. Qed.

(** Solves [e1 :: ... :: en :: l = ?t ++ l], also with [++] on the left. *)
Ltac grown :=
  repeat first [eapply grown_cons | eapply grown_app]; apply grown_nil.

(** Decomposes a membership hypothesis over a trace built with [::] and [++]. *)
Ltac in_trace H :=
  repeat first
    [ apply elem_of_cons in H as [H|H]
    | apply elem_of_app in H as [H|H]
    | apply elem_of_nil in H; destruct H ].

Global Instance adds_preorder P : PreOrder (adds P).
Proof.
  split.
  - intros w. exists []. by split.
  - intros w1 w2 w3 (t1 & H1 & F1) (t2 & H2 & F2).
    exists (t2 ++ t1)%list. split.
    + by rewrite H2, H1, app_assoc.
    + by apply Forall_app.
Qed.

Global Instance keeps_preorder {B} (f : World → B) : PreOrder (keeps f).
Proof. split; [by intros w|]. intros w1 w2 w3 H1 H2. unfold keeps in *. congruence. Qed.

Global Instance both_preorder R1 R2 :
  PreOrder R1 → PreOrder R2 → PreOrder (both R1 R2).
Proof.
  intros P1 P2. split.
  - intros w. split; reflexivity.
  - intros w1 w2 w3 [H1 H2] [H3 H4]. split; etrans; eauto.
Qed.

Section Steps.
Context {R : relation World} `{!PreOrder R}.

Lemma steps_ret {A} (a : A) : steps R (ret a).
Proof. intros w. reflexivity. Qed.

Lemma steps_throw {A} (e : Error) : steps R (throw (A := A) e).
Proof. intros w. reflexivity. Qed.

Lemma steps_get_world : steps R get_world.
Proof. intros w. reflexivity. Qed.

Lemma steps_lift {A} (o : Outcome A) : steps R (lift o).
Proof. intros w. destruct o; reflexivity. Qed.

Lemma steps_bind {A B} (m : M A) (k : A → M B) :
  steps R m → (∀ a, steps R (k a)) → steps R (bind m k).
Proof.
  intros Hm Hk w. unfold bind. specialize (Hm w).
  destruct (m w) as [[a|e] w1]; simpl in *; [|done].
  etrans; [exact Hm|]. apply Hk.
Qed.

Lemma steps_try_catch {A} (m : M A) (handler : Error → M A) :
  steps R m → (∀ e, steps R (handler e)) → steps R (try_catch m handler).
Proof.
  intros Hm Hh w. unfold try_catch. specialize (Hm w).
  destruct (m w) as [[a|e] w1]; simpl in *; [done|].
  etrans; [exact Hm|]. apply Hh.
Qed.
End Steps.

Lemma adds_tell (P : Effect → Prop) (e : Effect) : P e → steps (adds P) (tell e).
Proof. intros He w. exists [e]. split; [reflexivity|]. by constructor. Qed.

Lemma adds_silent {A} (P : Effect → Prop) (m : M A) :
  steps (keeps trace) m → steps (adds P) m.
Proof. intros Hm w. exists []. split; [apply Hm|constructor]. Qed.

Lemma steps_both {A} (R1 R2 : relation World) (m : M A) :
  steps R1 m → steps R2 m → steps (both R1 R2) m.
Proof. intros H1 H2 w. split; [apply H1|apply H2]. Qed.

(** Breaks [steps R m] down along the structure of [m]. *)
Ltac steps :=
  repeat first
    [ assumption
    | apply steps_ret | apply steps_throw | apply steps_get_world | apply steps_lift
    | apply steps_bind; [|intros ?]
    | apply steps_try_catch; [|intros ?]
    | match goal with
      | |- steps _ (let _ := _ in _) => cbv zeta
      | |- steps _ (match ?x with _ => _ end) => destruct x
      | |- steps _ (call _ _) => unfold call
      | |- steps _ (call_value _ _) => unfold call_value
      | |- steps _ (log _ _ _ _) => unfold log
      | |- steps (adds _) (tell _) => apply adds_tell; try solve [done | reflexivity]
      | |- steps (adds _) _ => apply adds_silent; intros ?; reflexivity
      | |- steps (keeps _) _ => intros ?; reflexivity
      | |- steps (both _ _) _ => apply steps_both
      end ].

(** ** Paths and folder names on concrete inputs *)

Example join_plain :
  Path.join ["/data/sessions"; "session-alpha"] = "/data/sessions/session-alpha".
Proof. reflexivity. Qed.

Example join_dotdot_escapes :
  Path.join ["/data/sessions"; "session-x/../../etc"] = "/data/etc".
Proof. reflexivity. Qed.

Example join_relative :
  Path.join ["./sessions"; "session-a"] = "sessions/session-a".
Proof. reflexivity. Qed.

Example resolve_relative :
  Path.resolve "/app" "sessions/session-a/SingletonLock"
  = "/app/sessions/session-a/SingletonLock".
Proof. reflexivity. Qed.

Example match_alpha : match_session_folder "session-alpha" = Some "alpha".
Proof. reflexivity. Qed.

Example match_scratch : match_session_folder "scratch" = None.
Proof. reflexivity. Qed.

Example match_bare_prefix : match_session_folder "session-" = None.
Proof. reflexivity. Qed.

(** ** setupSession *)

(** C1. [setupSession] never throws; it leaves the registry as it was unless
    it returns success, in which case the one entry added is the client whose
    [initialize()] was called and resolved; and when [initialize()] throws the
    result is a failure carrying the error's message and the registry, which
    had no entry for the id, is unchanged. *)
Theorem setupSession_registers_only_after_initialize
    (env : Env) (cfg : Config) (sessionId : string) (w : World) :
  ∃ r w' t,
    setupSession env cfg sessionId w = (Returned r, w') ∧
    trace w' = (t ++ trace w)%list ∧
    ((SetupResult.success r = false ∧ sessions w' = sessions w) ∨
     (∃ h, SetupResult.success r = true ∧ SetupResult.client r = Some h ∧
           sessions w !! sessionId = None ∧
           sessions w' = <[sessionId := h]> (sessions w) ∧
           Initialize h ∈ t ∧ initialize env h = None)) ∧
    (∀ h e, Initialize h ∈ t → initialize env h = Some e →
       SetupResult.success r = false ∧
       SetupResult.message r = error_message e ∧
       SetupResult.client r = None ∧
       sessions w' = sessions w ∧
       sessions w' !! sessionId = None).
Proof.
  unfold setupSession, new_Client, release_browser_lock, initializeEvents.
  unfold_monad.
  destruct (sessions w !! sessionId) as [existing|] eqn:Hreg; simpl.
  { eexists _, _, []. split_and!; [reflexivity|reflexivity|by left|].
    intros h e Hin. by apply elem_of_nil in Hin. }
  destruct (new_client env (clientOptions cfg sessionId)) as [e0|] eqn:Hnew; simpl.
  { eexists _, _, [_]. split_and!; [reflexivity|reflexivity|by left|].
    intros h e Hin. by apply list_elem_of_singleton in Hin. }
  destruct (releaseBrowserLock cfg); simpl;
    [destruct (lstat_exists _ _); simpl;
       [destruct (unlink_fails env _) as [eu|] eqn:Hunlink; simpl|]|].
  all: try (destruct (initialize env (next_handle w)) as [e1|] eqn:Hinit; simpl;
            [|destruct (initWebSocketServer env sessionId) as [e2|] eqn:Hws; simpl;
              [|rewrite lookup_insert_eq; simpl]]).
  all: eexists _, _, _; split; [reflexivity|]; split; [simpl; grown|]; simpl.
  all: split;
    [ first [ left; split; reflexivity
            | right; exists (next_handle w); split_and!; try done; set_solver ]
    | intros h e Hin He;
      repeat (apply elem_of_cons in Hin as [Hin|Hin]; [try discriminate Hin|]);
      try (by apply elem_of_nil in Hin);
      try (injection Hin as ->); try congruence ].
  all: try (rewrite Hinit in He; injection He as <-; done).
Qed.

(** A rejected [initialize()] on the first session of a process: the result
    carries the error's message and the registry stays empty. *)
Example setupSession_initialize_rejected :
  exists w',
    setupSession
      (Sample.with_initialize (fun _ => Some (MkError "Failed to launch the browser process"))
         Sample.healthy)
      Sample.config "alpha" Sample.boot
    = (Returned (SetupResult.Build false "Failed to launch the browser process" None), w')
    /\ sessions w' = ∅.
Proof. eexists. split; [vm_compute; reflexivity|reflexivity]. Qed.

(** C8. On a registry without the id (an empty one, for instance), with
    collaborators that accept the options and complete the initialization,
    and a stale browser lock that, if there is one to remove, is removed
    without error, [setupSession] returns success and registers a client for
    the id.  A second call for the same id returns a failure whose message
    contains "already exists" together with the registered client, and
    changes nothing: the registry, the client object and the trace of
    external calls are exactly as before (nothing is restarted). *)
Theorem setupSession_twice
    (env : Env) (cfg : Config) (sessionId : string) (w : World) :
  sessions w !! sessionId = None →
  new_client env (clientOptions cfg sessionId) = None →
  (releaseBrowserLock cfg = true →
   lstat_exists (fs w) (singletonLockPath env cfg sessionId) = true →
   unlink_fails env (singletonLockPath env cfg sessionId) = None) →
  initialize env (next_handle w) = None →
  initWebSocketServer env sessionId = None →
  ∃ r1 w1 h,
    setupSession env cfg sessionId w = (Returned r1, w1) ∧
    SetupResult.success r1 = true ∧
    sessions w1 !! sessionId = Some h ∧
    ∃ r2,
      setupSession env cfg sessionId w1 = (Returned r2, w1) ∧
      SetupResult.success r2 = false ∧
      includes (SetupResult.message r2) "already exists" = true ∧
      SetupResult.client r2 = Some h.
Proof.
  intros Hnone Hnew Hlock Hinit Hws.
  assert (Hfirst : ∃ w1, setupSession env cfg sessionId w
            = (Returned (SetupResult.Build true "Session initiated successfully"
                           (Some (next_handle w))), w1)
            ∧ sessions w1 !! sessionId = Some (next_handle w)).
  { unfold singletonLockPath in Hlock.
    unfold setupSession, new_Client, release_browser_lock, initializeEvents.
    unfold_monad. rewrite Hnone; simpl. rewrite Hnew; simpl.
    destruct (releaseBrowserLock cfg); simpl;
      [destruct (lstat_exists _ _); simpl; [rewrite (Hlock eq_refl eq_refl); simpl|]|];
      rewrite Hinit; simpl; rewrite Hws; simpl; rewrite lookup_insert_eq; simpl;
      (eexists; split; [reflexivity|]; simpl; apply lookup_insert_eq). }
  destruct Hfirst as (w1 & Hrun & Hreg).
  eexists _, w1, (next_handle w). split_and!; [exact Hrun|reflexivity|exact Hreg|].
  eexists. unfold setupSession at 1. unfold_monad. cbv beta. rewrite Hreg. simpl.
  split_and!; reflexivity.
Qed.

Lemma setupSession_twice_witness :
  ∃ r1 w1 h,
    setupSession Sample.healthy Sample.config "s1" Sample.boot = (Returned r1, w1) ∧
    SetupResult.success r1 = true ∧
    sessions w1 !! "s1" = Some h ∧
    ∃ r2,
      setupSession Sample.healthy Sample.config "s1" w1 = (Returned r2, w1) ∧
      SetupResult.success r2 = false ∧
      includes (SetupResult.message r2) "already exists" = true ∧
      SetupResult.client r2 = Some h.
Proof.
  apply (setupSession_twice Sample.healthy Sample.config "s1" Sample.boot);
    reflexivity.
Defined.

(** ** validateSession *)

(** The case of [probe_loop_spec] in which the attempt throws and the loop
    goes round again: the induction hypothesis [IH] applies to the rest. *)
Ltac retry_case IH Hobs :=
  let exit := fresh "exit" in
  let w' := fresh "w'" in
  let t := fresh "t" in
  let Hrun := fresh "Hrun" in
  let Htr := fresh "Htr" in
  let Hprobe := fresh "Hprobe" in
  let Hfail := fresh "Hfail" in
  let Hbreak := fresh "Hbreak" in
  let Hall := fresh "Hall" in
  match goal with
  | |- context [probe_loop _ _ ?n ?w0] =>
      destruct (IH w0 ltac:(lia))
        as (exit & w' & t & Hrun & Htr & Hprobe & Hfail & Hbreak & Hall);
      eexists exit, w', _; split; [exact Hrun|]; split; [rewrite Htr; simpl; grown|];
      split; [intros ? ? Hin; in_trace Hin; eauto; injection Hin as -> ->; lia|];
      split; [exact Hfail|]; split;
      [ let Hexit := fresh in let a := fresh "a" in
        let Ha := fresh in let Hpass := fresh in let Hbefore := fresh in
        intros Hexit; destruct (Hbreak Hexit) as (a & Ha & Hpass & Hbefore);
        exists a; split_and!; [lia|lia|done|];
        let k := fresh "k" in let Hk := fresh in
        intros k Hk; destruct (decide (k = 1 - n)%nat) as [->|?];
        [by rewrite Hobs|apply Hbefore; lia]
      | let Hthrows := fresh in
        intros Hthrows; apply Hall; intros; apply Hthrows; lia ]
  end.

Lemma probe_loop_spec (env : Env) (h : nat) (n : nat) (w : World) :
  (n ≤ 2)%nat →
  ∃ exit w' t,
    probe_loop env h n w = (Returned exit, w') ∧
    trace w' = (t ++ trace w)%list ∧
    (∀ h' k, Probe h' k ∈ t → (k ≤ 2)%nat) ∧
    (∀ v, exit = Return v → Validation.success v = false) ∧
    (exit = Break →
       ∃ attempt, (2 - n ≤ attempt ≤ 2)%nat ∧
         attempt_passes (pupPage env h attempt) = true ∧
         ∀ k, (2 - n ≤ k < attempt)%nat → attempt_throws (pupPage env h k) = true) ∧
    ((∀ k, (2 - n ≤ k ≤ 2)%nat → attempt_throws (pupPage env h k) = true) →
       exit = Return (Validation.Build false None "session closed")).
Proof.
  revert w. induction n as [|n IH]; intros w Hn.
  - simpl. unfold_monad.
    destruct (pupPage env h 2) as [| | |e|] eqn:Hobs; simpl.
    all: eexists _, _, _; split; [reflexivity|]; split; [simpl; grown|].
    all: split; [intros h' k Hin; in_trace Hin; injection Hin as -> ->; lia|].
    all: split; [intros v [= <-]; reflexivity || discriminate|].
    all: split; [try discriminate|].
    all: try (intros _; exists 2%nat; rewrite Hobs; split_and!; [lia|lia|done|intros; lia]).
    all: try done.
    all: intros Hall; specialize (Hall 2%nat ltac:(lia)); rewrite Hobs in Hall; discriminate.
  - cbn [probe_loop]. replace (2 - S n)%nat with (1 - n)%nat by lia.
    unfold_monad.
    destruct (pupPage env h (1 - n)) as [| | |e|] eqn:Hobs; cbn beta iota.
    1,4: retry_case IH Hobs.
    all: eexists _, _, _; split; [reflexivity|]; split; [simpl; grown|].
    all: split; [intros h' k Hin; in_trace Hin; injection Hin as -> ->; lia|].
    all: split; [intros v [= <-]; reflexivity || discriminate|].
    all: split; [try discriminate|].
    all: try (intros _; exists (1 - n)%nat; rewrite Hobs;
              split_and!; [lia|lia|done|intros; lia]).
    all: intros Hthrows; specialize (Hthrows (1 - n)%nat ltac:(lia));
      rewrite Hobs in Hthrows; discriminate.
Qed.

(** [validateSession] never throws and numbers its probes of the page from
    0 to 2.  It returns success only for a registered
    session on which some round of the probe loop, among the first three and
    after rounds that all threw, reached [break] -- the probe resolved, or the
    one-second timer ended the race, which the loop does not tell apart -- and
    for which [getState()] answered ['CONNECTED'].  When all three rounds
    throw, the result is the failure ['session closed']. *)
Lemma validateSession_success_condition (env : Env) (sessionId : string) (w : World) :
  ∃ v w' t,
    validateSession env sessionId w = (Returned v, w') ∧
    trace w' = (t ++ trace w)%list ∧
    (∀ h n, Probe h n ∈ t → (n ≤ 2)%nat) ∧
    (Validation.success v = true →
       ∃ h attempt,
         sessions w !! sessionId = Some h ∧ (attempt ≤ 2)%nat ∧
         attempt_passes (pupPage env h attempt) = true ∧
         (∀ k, (k < attempt)%nat → attempt_throws (pupPage env h k) = true) ∧
         getState env h = Returned (Some "CONNECTED") ∧
         Validation.state v = Some "CONNECTED") ∧
    (∀ h, sessions w !! sessionId = Some h →
       (∀ k, (k ≤ 2)%nat → attempt_throws (pupPage env h k) = true) →
       v = Validation.Build false None "session closed").
Proof.
  unfold validateSession, waitForNestedObject. unfold_monad. cbv beta.
  destruct (sessions w !! sessionId) as [h|] eqn:Hreg; cbn beta iota.
  2:{ eexists _, _, []. split_and!; [reflexivity|reflexivity|..].
      - intros ? ? Hin. by apply elem_of_nil in Hin.
      - discriminate.
      - discriminate. }
  destruct (pupPage_appears env h); cbn beta iota;
  match goal with |- context [probe_loop env h 2 ?w0] =>
    destruct (probe_loop_spec env h 2 w0 ltac:(lia))
      as (exit & w1 & t & Hrun & Htr & Hprobe & Hfail & Hbreak & Hall)
  end; rewrite Hrun; cbn beta iota; simpl in Htr;
  (destruct exit as [|v0]; cbn beta iota;
   [unfold_monad; destruct (getState env h) as [st|eg] eqn:Hst; cbn beta iota;
     [destruct (bool_decide (st = Some "CONNECTED")) eqn:Hconn; cbn beta iota|] |]).
  all: eexists _, _, _; split; [reflexivity|]; split;
    [cbn [trace]; rewrite Htr; grown|].
  all: split; [intros h' k Hin; in_trace Hin; try discriminate; eauto|].
  all: split; [try discriminate; try (intros Hs; by rewrite (Hfail _ eq_refl) in Hs)|].
  all: try (intros _; destruct (Hbreak eq_refl) as (a & Ha & Hpass & Hbefore);
            apply bool_decide_eq_true in Hconn; subst st;
            exists h, a; split_and!; try done; [lia|intros; apply Hbefore; lia]).
  all: intros h0 [= <-] Hthrows;
    (unshelve epose proof (Hall _) as Hexit; [intros; apply Hthrows; lia|]);
    try discriminate Hexit; try (by injection Hexit as ->).
Qed.

Lemma probes_app (t1 t2 : list Effect) : probes (t1 ++ t2) = (probes t1 + probes t2)%nat.
Proof. unfold probes. by rewrite List.filter_app, length_app. Qed.

(** The case of [probe_loop_exit] in which the round throws and the loop
    goes round again. *)
Ltac retry_exit IH Hobs Hrange :=
  let exit := fresh "exit" in
  let w' := fresh "w'" in
  let t := fresh "t" in
  let Hrun := fresh "Hrun" in
  let Htr := fresh "Htr" in
  let Hcount := fresh "Hcount" in
  let Hall := fresh "Hall" in
  let Hfirst := fresh "Hfirst" in
  match goal with
  | |- context [probe_loop _ _ ?n ?w0] =>
      destruct (IH w0 ltac:(lia)) as (exit & w' & t & Hrun & Htr & Hcount & Hall & Hfirst);
      eexists exit, w', _; split; [exact Hrun|]; split; [rewrite Htr; simpl; grown|];
      (split; [rewrite ?probes_app; cbn; lia|]);
      (split; [let Hthrows := fresh in
               intros Hthrows; apply Hall; intros; apply Hthrows; lia|]);
      let attempt := fresh "attempt" in
      let Ha := fresh in let Hbefore := fresh in let Ha' := fresh in
      intros attempt Ha Hbefore;
      (destruct (Hrange attempt Ha) as [->|Ha'];
       [rewrite Hobs; split; discriminate|]);
      apply Hfirst; [lia|intros; apply Hbefore; lia]
  end.

(** How the probe loop leaves, by the first round that does not throw. *)
Lemma probe_loop_exit (env : Env) (h : nat) (n : nat) (w : World) :
  (n ≤ 2)%nat →
  ∃ exit w' t,
    probe_loop env h n w = (Returned exit, w') ∧
    trace w' = (t ++ trace w)%list ∧
    (probes t ≤ S n)%nat ∧
    ((∀ k, (2 - n ≤ k ≤ 2)%nat → attempt_throws (pupPage env h k) = true) →
       exit = Return (Validation.Build false None "session closed")) ∧
    (∀ attempt, (2 - n ≤ attempt ≤ 2)%nat →
       (∀ k, (2 - n ≤ k < attempt)%nat → attempt_throws (pupPage env h k) = true) →
       (pupPage env h attempt = PageClosed →
          exit = Return (Validation.Build false None "browser tab closed")) ∧
       (attempt_passes (pupPage env h attempt) = true → exit = Break)).
Proof.
  revert w. induction n as [|n IH]; intros w Hn.
  - simpl. unfold_monad.
    destruct (pupPage env h 2) as [| | |e|] eqn:Hobs; simpl.
    all: eexists _, _, _; split; [reflexivity|]; split; [simpl; grown|].
    all: split; [cbn; lia|].
    all: split;
      [intros Hall; specialize (Hall 2%nat ltac:(lia)); rewrite Hobs in Hall;
       try discriminate; done|].
    all: intros attempt Ha Hbefore; replace attempt with 2%nat by lia;
      rewrite Hobs; split; intros Hcase; try discriminate; done.
  - cbn [probe_loop]. replace (2 - S n)%nat with (1 - n)%nat by lia.
    assert (Hrange : ∀ attempt, (1 - n ≤ attempt ≤ 2)%nat →
              attempt = (1 - n)%nat ∨ (2 - n ≤ attempt ≤ 2)%nat) by (intros; lia).
    unfold_monad.
    destruct (pupPage env h (1 - n)) as [| | |e|] eqn:Hobs; cbn beta iota.
    1,4: retry_exit IH Hobs Hrange.
    all: eexists _, _, _; split; [reflexivity|]; split; [simpl; grown|].
    all: split; [cbn; lia|].
    all: split;
      [intros Hall; specialize (Hall (1 - n)%nat ltac:(lia)); rewrite Hobs in Hall;
       discriminate|].
    all: intros attempt Ha Hbefore;
      (destruct (Hrange attempt Ha) as [->|Ha'];
       [rewrite Hobs; split; intros Hcase; try discriminate; done|]);
      specialize (Hbefore (1 - n)%nat ltac:(lia)); rewrite Hobs in Hbefore; discriminate.
Qed.

(** X24. The verdict of [validateSession], whatever the collaborators
    answer.  It never throws and probes the page at most three times.  For a registered
    session the verdict is decided by the first round of the probe loop that
    does not throw: a closed tab gives ['browser tab closed']; a probe that
    resolved and a probe that the one-second timer cut off both reach
    [break], and the verdict is then that of [getState()] alone, success
    when it answers ['CONNECTED'].  Three throwing rounds give
    ['session closed']. *)
Theorem validateSession_verdict (env : Env) (sessionId : string) (w : World) :
  ∃ v w' t,
    validateSession env sessionId w = (Returned v, w') ∧
    trace w' = (t ++ trace w)%list ∧
    (probes t ≤ 3)%nat ∧
    match sessions w !! sessionId with
    | None => v = Validation.Build false None "session_not_found"
    | Some h =>
        ((∀ k, (k ≤ 2)%nat → attempt_throws (pupPage env h k) = true) →
           v = Validation.Build false None "session closed") ∧
        (∀ attempt, (attempt ≤ 2)%nat →
           (∀ k, (k < attempt)%nat → attempt_throws (pupPage env h k) = true) →
           (pupPage env h attempt = PageClosed →
              v = Validation.Build false None "browser tab closed") ∧
           (pupPage env h attempt = ProbeResolved → v = state_verdict env h) ∧
           (pupPage env h attempt = ProbeTimedOut → v = state_verdict env h))
    end.
Proof.
  unfold validateSession, waitForNestedObject, state_verdict. unfold_monad. cbv beta.
  destruct (sessions w !! sessionId) as [h|] eqn:Hreg; cbn beta iota.
  2:{ eexists _, _, []. split_and!; [reflexivity|reflexivity|cbn; lia|reflexivity]. }
  destruct (pupPage_appears env h); cbn beta iota;
  match goal with |- context [probe_loop env h 2 ?w0] =>
    destruct (probe_loop_exit env h 2 w0 ltac:(lia))
      as (exit & w1 & t & Hrun & Htr & Hcount & Hall & Hfirst)
  end; rewrite Hrun; cbn beta iota; simpl in Htr;
  (destruct exit as [|v0]; cbn beta iota;
   [unfold_monad; destruct (getState env h) as [st|eg] eqn:Hst; cbn beta iota;
     [destruct (bool_decide (st = Some "CONNECTED")) eqn:Hconn; cbn beta iota|] |]).
  all: eexists _, _, _; split; [reflexivity|]; split;
    [cbn [trace]; rewrite Htr; grown|].
  all: split; [unfold probes in *; cbn; rewrite ?List.filter_app, ?length_app; cbn; lia|].
  all: split;
    [intros Hthrows;
     (unshelve epose proof (Hall _) as Hexit; [intros; apply Hthrows; lia|]);
     try discriminate Hexit; by injection Hexit as ->|].
  all: intros attempt Ha Hbefore;
    (unshelve epose proof (Hfirst attempt _ _) as [Hclosed Hpass];
     [lia|intros; apply Hbefore; lia|]).
  all: split_and!; intros Hobs; rewrite Hobs in Hclosed, Hpass.
  all: try (specialize (Hclosed eq_refl)); try (specialize (Hpass eq_refl)).
  all: try discriminate; try done.
  all: try (by injection Hclosed as <-).
Qed.

(** A responsive page whose protocol layer is still opening. *)
Example validateSession_not_connected :
  exists w',
    validateSession
      (Sample.with_getState (fun _ => Returned (Some "OPENING")) Sample.healthy)
      "alpha" Sample.two_sessions
    = (Returned (Validation.Build false (Some "OPENING") "session_not_connected"), w').
Proof. eexists. vm_compute. reflexivity. Qed.

(** C7 does not hold of the code: on a page whose probe never answers, the
    first round is ended by the timer, whose promise resolves; the loop,
    written to wait until the page can be evaluated, takes that for an
    answer and breaks at once, and the session is reported live as soon as
    [getState()] answers ['CONNECTED']. *)
Theorem validateSession_hung_probe_reported_live :
  (forall attempt, pupPage Sample.hung 0%nat attempt = ProbeTimedOut) /\
  sessions Sample.two_sessions !! "alpha" = Some 0%nat /\
  exists w',
    validateSession Sample.hung "alpha" Sample.two_sessions
    = (Returned (Validation.Build true (Some "CONNECTED") "session_connected"), w').
Proof.
  split; [reflexivity|]. split; [reflexivity|].
  eexists. vm_compute. reflexivity.
Qed.

(** ** deleteSessionFolder *)

Lemma startsWith_trans (a b c : string) :
  startsWith b a = true → startsWith c b = true → startsWith c a = true.
Proof.
  unfold startsWith. revert b c.
  induction a as [|x a IH]; intros b c Hab Hbc; [by destruct c|].
  destruct b as [|y b]; [discriminate|].
  destruct c as [|z c]; [discriminate|].
  simpl in *.
  destruct (ascii_dec x y) as [->|]; [|discriminate].
  destruct (ascii_dec y z) as [->|]; [|discriminate].
  eauto.
Qed.

Lemma startsWith_append (a b : string) : startsWith (a +:+ b) a = true.
Proof.
  unfold startsWith. induction a as [|x a IH]; simpl; [by destruct b|].
  destruct (ascii_dec x x); [done|congruence].
Qed.

(** Everything [rm_recursive_force] removes lies in the removed directory. *)
Lemma rm_recursive_force_removes (f : FileSystem) (dir p : string) :
  p ∈ nodes f → p ∉ nodes (rm_recursive_force f dir) → under dir p = true.
Proof.
  intros Hin Hout. destruct (under dir p) eqn:Hu; [done|].
  exfalso. apply Hout. simpl. apply list_elem_of_In, filter_In.
  split; [by apply list_elem_of_In|]. by rewrite Hu.
Qed.

(** A rejected [rm] removes entries below the directory only. *)
Lemma rm_interrupted_removes (f : FileSystem) (dir : string) (removed : string → bool)
    (p : string) :
  p ∈ nodes f → p ∉ nodes (rm_interrupted f dir removed) → strictly_under dir p = true.
Proof.
  intros Hin Hout. destruct (strictly_under dir p) eqn:Hu; [done|].
  exfalso. apply Hout. simpl. apply list_elem_of_In, filter_In.
  split; [by apply list_elem_of_In|]. by rewrite Hu.
Qed.

Lemma strictly_under_under (dir p : string) :
  strictly_under dir p = true → under dir p = true.
Proof. intros Hu. unfold under. apply orb_true_iff. by right. Qed.

Lemma startsWith_length (s prefix : string) :
  startsWith s prefix = true → (String.length prefix ≤ String.length s)%nat.
Proof.
  unfold startsWith. revert s. induction prefix as [|x prefix IH]; intros s Hpre.
  - cbn. lia.
  - destruct s as [|y s]; [discriminate|]. simpl in Hpre.
    destruct (ascii_dec x y); [|discriminate]. apply IH in Hpre. cbn. lia.
Qed.

Lemma append_length (a b : string) :
  String.length (a +:+ b) = (String.length a + String.length b)%nat.
Proof.
  induction a as [|x a IH]; [done|].
  change (String x a +:+ b) with (String x (a +:+ b)).
  cbn [String.length Nat.add]. by rewrite IH.
Qed.

(** A directory does not lie below itself. *)
Lemma strictly_under_irrefl (dir : string) : strictly_under dir dir = false.
Proof.
  unfold strictly_under. destruct (startsWith dir (dir +:+ Path.sep)) eqn:Hpre; [|done].
  apply startsWith_length in Hpre. rewrite append_length in Hpre. cbn in Hpre. lia.
Qed.

(** A rejected [rm] leaves the directory itself in place. *)
Lemma rm_interrupted_keeps_target (f : FileSystem) (dir : string)
    (removed : string → bool) :
  exists_node (rm_interrupted f dir removed) dir = exists_node f dir.
Proof.
  unfold exists_node. cbn. induction (nodes f) as [|n ns IH]; [done|].
  cbn. destruct (String.eqb_spec dir n) as [<-|Hne].
  - rewrite strictly_under_irrefl. cbn. by rewrite String.eqb_refl.
  - destruct (negb _); cbn; [|exact IH].
    destruct (String.eqb_spec dir n); [done|exact IH].
Qed.

Lemma under_startsWith (root dir p : string) :
  startsWith dir (root +:+ Path.sep) = true → under dir p = true →
  startsWith p (root +:+ Path.sep) = true.
Proof.
  intros Hdir Hu. unfold under in Hu. apply orb_true_iff in Hu as [Heq|Hpre].
  - apply String.eqb_eq in Heq. by subst.
  - eapply startsWith_trans; [|exact Hpre].
    eapply startsWith_trans; [exact Hdir|]. apply startsWith_append.
Qed.

(** X6. [deleteSessionFolder] deletes nothing outside the resolved storage
    root: in every run, with whatever id, each entry that is gone afterwards
    lay strictly under the canonical root. *)
Lemma deleteSessionFolder_stays_under_root
    (env : Env) (cfg : Config) (sessionId : string) (w : World) (p : string) :
  p ∈ nodes (fs w) →
  p ∉ nodes (fs (snd (deleteSessionFolder env cfg sessionId w))) →
  ∃ root, realpath env (fs w) (sessionFolderPath cfg) = Returned root ∧
          startsWith p (root +:+ Path.sep) = true.
Proof.
  unfold deleteSessionFolder. unfold_monad. cbv beta.
  destruct (realpath env (fs w) (Path.join _)) as [target|e1]; cbn; [|done].
  destruct (realpath env (fs w) (sessionFolderPath cfg)) as [root|e2]; cbn; [|done].
  destruct (startsWith target (root +:+ Path.sep)) eqn:Hnested; cbn; [|done].
  destruct (rm_fails env target) as [failure|]; cbn;
    intros Hin Hout; exists root; (split; [done|]);
    (eapply under_startsWith; [exact Hnested|]).
  - exact (strictly_under_under _ _
             (rm_interrupted_removes (fs w) target (rm_removed failure) p Hin Hout)).
  - by eapply rm_recursive_force_removes.
Qed.

(** C3. When the canonical target of the id's folder is not strictly nested
    under the canonical storage root, [deleteSessionFolder] throws the
    traversal error, issues no [rm] and leaves the file system (and the
    registry) as they were. *)
Theorem deleteSessionFolder_refuses_traversal
    (env : Env) (cfg : Config) (sessionId : string) (w : World)
    (target root : string) :
  realpath env (fs w) (Path.join [sessionFolderPath cfg; "session-" +:+ sessionId])
    = Returned target →
  realpath env (fs w) (sessionFolderPath cfg) = Returned root →
  startsWith target (root +:+ Path.sep) = false →
  ∃ w',
    deleteSessionFolder env cfg sessionId w = (Thrown traversal_detected, w') ∧
    error_message traversal_detected = "Invalid path: Directory traversal detected" ∧
    fs w' = fs w ∧
    sessions w' = sessions w ∧
    trace w' = Log Err (Some sessionId) (Some traversal_detected) "Folder deletion error"
               :: trace w.
Proof.
  intros Htarget Hroot Hnested.
  unfold deleteSessionFolder. unfold_monad. cbv beta.
  rewrite Htarget. cbn. rewrite Hroot. cbn. rewrite Hnested. cbn.
  eexists. split_and!; reflexivity.
Qed.

Lemma deleteSessionFolder_refuses_traversal_witness :
  ∃ w',
    deleteSessionFolder Sample.healthy Sample.config "x/../../etc" Sample.boot
      = (Thrown traversal_detected, w') ∧
    error_message traversal_detected = "Invalid path: Directory traversal detected" ∧
    fs w' = fs Sample.boot ∧
    sessions w' = sessions Sample.boot ∧
    trace w' = Log Err (Some "x/../../etc") (Some traversal_detected)
                 "Folder deletion error" :: trace Sample.boot.
Proof.
  apply (deleteSessionFolder_refuses_traversal Sample.healthy Sample.config
           "x/../../etc" Sample.boot "/data/etc" "/data/sessions");
    reflexivity.
Defined.

(** An absent folder makes [deleteSessionFolder] throw the error of
    [realpath], with the file system untouched. *)
Lemma deleteSessionFolder_unresolved_target
    (env : Env) (cfg : Config) (sessionId : string) (w : World) (e : Error) :
  realpath env (fs w) (Path.join [sessionFolderPath cfg; "session-" +:+ sessionId])
    = Thrown e →
  ∃ w', deleteSessionFolder env cfg sessionId w = (Thrown e, w') ∧ fs w' = fs w.
Proof.
  intros Htarget. unfold deleteSessionFolder. unfold_monad. cbv beta.
  rewrite Htarget. cbn. eexists. split; reflexivity.
Qed.

(** C5 does not hold of the code: for a session whose folder is absent,
    [realpath] rejects with ENOENT before [rm], whose [force] option would
    have tolerated the absence, is reached; the error is logged and
    rethrown. *)
Theorem deleteSessionFolder_absent_folder_throws :
  exists_node (fs Sample.boot) "/data/sessions/session-ghost" = false ∧
  ∃ w',
    deleteSessionFolder Sample.healthy Sample.config "ghost" Sample.boot
      = (Thrown (enoent "realpath" "/data/sessions/session-ghost"), w') ∧
    fs w' = fs Sample.boot.
Proof.
  split; [reflexivity|]. eexists. split; reflexivity.
Qed.

(** ** deleteSession *)

Lemma wait_disconnected_quiet (env : Env) (h : nat) (n : nat) :
  steps quiet (wait_disconnected env h n).
Proof. unfold quiet. induction n as [|n IH]; cbn [wait_disconnected]; steps. Qed.

Lemma remove_recovery_listeners_quiet (env : Env) (h : nat) :
  steps quiet (remove_recovery_listeners env h).
Proof. unfold quiet, remove_recovery_listeners. steps. Qed.

Lemma remove_recovery_listeners_returns (env : Env) (h : nat) (w : World) :
  fst (remove_recovery_listeners env h w) = Returned tt.
Proof.
  unfold remove_recovery_listeners. unfold_monad.
  destruct (pupPage_appears env h); cbn; [|done].
  by destruct (heap w !! h).
Qed.

Lemma deleteSessionFolder_adds (env : Env) (cfg : Config) (sid : string) :
  steps (both (adds not_teardown) (keeps sessions)) (deleteSessionFolder env cfg sid).
Proof. unfold deleteSessionFolder. steps. Qed.

(** When [deleteSessionFolder] throws, either nothing was removed, or [rm]
    was called on the resolved folder and rejected: the error is its error
    and the file system is what the interrupted removal left. *)
Lemma deleteSessionFolder_throws
    (env : Env) (cfg : Config) (sid : string) (w w' : World) (e : Error) :
  deleteSessionFolder env cfg sid w = (Thrown e, w') →
  fs w' = fs w ∨
  ∃ target failure,
    realpath env (fs w) (Path.join [sessionFolderPath cfg; "session-" +:+ sid])
      = Returned target ∧
    rm_fails env target = Some failure ∧ e = rm_error failure ∧
    fs w' = rm_interrupted (fs w) target (rm_removed failure).
Proof.
  unfold deleteSessionFolder. unfold_monad. cbv beta.
  destruct (realpath env (fs w) (Path.join _)) as [target|e1]; cbn;
    [|intros [= _ <-]; by left].
  destruct (realpath env (fs w) (sessionFolderPath cfg)) as [root|e2]; cbn;
    [|intros [= _ <-]; by left].
  destruct (startsWith target (root +:+ Path.sep)); cbn;
    [|intros [= _ <-]; by left].
  destruct (rm_fails env target) as [failure|] eqn:Hrm; cbn; [|done].
  intros [= <- <-]. right. by exists target, failure.
Qed.

Lemma terminate_quiet (env : Env) (sid : string) :
  steps quiet
    (try_catch
       (call (TerminateWebSocketServer sid) (terminateWebSocketServer env sid))
       (fun error => log Err (Some sid) (Some error)
                       "Failed to terminate WebSocket server")).
Proof. unfold quiet. steps. Qed.

Lemma terminate_returns (env : Env) (sid : string) (w : World) :
  fst (try_catch
         (call (TerminateWebSocketServer sid) (terminateWebSocketServer env sid))
         (fun error => log Err (Some sid) (Some error)
                         "Failed to terminate WebSocket server") w) = Returned tt.
Proof. unfold_monad. by destruct (terminateWebSocketServer env sid). Qed.

Lemma disconnect_client_spec
    (env : Env) (sid : string) (h : nat) (v : Validation.t) (w : World) :
  ∃ r w1 t_before t_after,
    disconnect_client env sid h v w = (r, w1) ∧
    trace w1 = (t_after ++ teardown_effects sid h v ++ t_before ++ trace w)%list ∧
    Forall not_teardown t_before ∧ Forall not_teardown t_after ∧
    sessions w1 = sessions w ∧ fs w1 = fs w ∧
    (∀ e, teardown_error env h v = Some e → r = Thrown e).
Proof.
  unfold disconnect_client.
  pose proof (remove_recovery_listeners_quiet env h w) as Hq0.
  pose proof (remove_recovery_listeners_returns env h w) as Hr0.
  unfold bind at 1.
  destruct (remove_recovery_listeners env h w) as [r0 w0]; simpl in Hq0, Hr0.
  subst r0.
  pose proof (terminate_quiet env sid w0) as Hq1.
  pose proof (terminate_returns env sid w0) as Hr1.
  unfold bind at 1.
  destruct (try_catch _ _ w0) as [r1 w1]; simpl in Hq1, Hr1. subst r1.
  destruct Hq0 as ((t0 & Ht0 & Hf0) & Hs0 & Hfs0).
  destruct Hq1 as ((t1 & Ht1 & Hf1) & Hs1 & Hfs1).
  unfold keeps in *.
  assert (Hpre : trace w1 = ((t1 ++ t0) ++ trace w)%list)
    by (by rewrite Ht1, Ht0, app_assoc).
  assert (Hfpre : Forall not_teardown (t1 ++ t0)) by (by apply Forall_app).
  unfold teardown_effects, teardown_error.
  unfold bind at 1.
  destruct (Validation.success v); [|destruct (String.eqb _ _)].
  1,2: unfold_monad; cbv beta;
    match goal with
    | |- context [match ?o with Some _ => _ | None => _ end] => destruct o as [err|] eqn:Hreq
    end; cbn -[wait_disconnected].
  1,3: eexists _, _, (t1 ++ t0)%list, []; split; [reflexivity|]; cbn;
    rewrite Hpre; split_and!; try done; [congruence|congruence|by intros ? [= <-]].
  all: cbn -[wait_disconnected];
       match goal with
       | |- context [wait_disconnected ?env0 ?h0 10 ?w2] =>
           let Hq2 := fresh "Hq2" in
           pose proof (wait_disconnected_quiet env0 h0 10 w2) as Hq2;
           destruct (wait_disconnected env0 h0 10 w2) as [r2 w3];
           destruct Hq2 as ((t2 & Ht2 & Hf2) & Hs2 & Hfs2); unfold keeps in *;
           cbn in Ht2, Hs2, Hfs2;
           eexists r2, w3, (t1 ++ t0)%list, t2; split; [reflexivity|];
           rewrite Ht2, ?Hpre; split_and!; try done; congruence
       end.
Qed.

(** [deleteSession] on a registered id: the disconnection, then the removal
    from the registry, then the folder removal; an error of either is logged
    and rethrown. *)
Lemma deleteSession_run
    (env : Env) (cfg : Config) (sid : string) (v : Validation.t) (w : World) (h : nat) :
  sessions w !! sid = Some h →
  deleteSession env cfg sid v w =
    match disconnect_client env sid h v w with
    | (Thrown e, w1) => (Thrown e, delete_logged sid e w1)
    | (Returned _, w1) =>
        match deleteSessionFolder env cfg sid (unregistered sid w1) with
        | (Thrown e, w2) => (Thrown e, delete_logged sid e w2)
        | (Returned u, w2) => (Returned u, w2)
        end
    end.
Proof.
  intros Hreg. unfold deleteSession, unregistered, delete_logged, unregister.
  unfold_monad. cbv beta. rewrite Hreg.
  destruct (disconnect_client env sid h v w) as [[[]|e] w1]; cbn; [|done].
  by destruct (deleteSessionFolder env cfg sid _) as [[[]|e] w2].
Qed.

Lemma not_teardown_absent (t : list Effect) (e : Effect) :
  Forall not_teardown t → teardown_call e = true → e ∉ t.
Proof.
  intros Hall He Hin. rewrite Forall_forall in Hall.
  specialize (Hall e Hin). unfold not_teardown in Hall. congruence.
Qed.

Lemma teardown_in_run (t1 mid t2 : list Effect) (e : Effect) :
  Forall not_teardown t1 → Forall not_teardown t2 → teardown_call e = true →
  e ∈ (t1 ++ mid ++ t2)%list ↔ e ∈ mid.
Proof.
  intros H1 H2 He. rewrite !elem_of_app. split; [|tauto].
  intros [Hin|[Hin|Hin]]; [|done|]; exfalso.
  - by apply (not_teardown_absent t1 e).
  - by apply (not_teardown_absent t2 e).
Qed.

Lemma logout_in_teardown_effects (sid : string) (h : nat) (v : Validation.t) :
  Logout h ∈ teardown_effects sid h v ↔ Validation.success v = true.
Proof.
  unfold teardown_effects.
  destruct (Validation.success v); [|destruct (String.eqb _ _)].
  - split; [done|]. intros _. by left.
  - split; [|done]. intros Hin. in_trace Hin; discriminate.
  - split; [|done]. intros Hin. by apply elem_of_nil in Hin.
Qed.

Lemma destroy_in_teardown_effects (sid : string) (h : nat) (v : Validation.t) :
  Destroy h ∈ teardown_effects sid h v ↔
  Validation.success v = false ∧ Validation.message v = "session_not_connected".
Proof.
  unfold teardown_effects.
  destruct (Validation.success v);
    [|destruct (String.eqb_spec (Validation.message v) "session_not_connected")].
  - split; [|by intros [? _]]. intros Hin. in_trace Hin; discriminate.
  - split; [done|]. intros _. by left.
  - split; [|by intros [_ ?]]. intros Hin. by apply elem_of_nil in Hin.
Qed.

Lemma teardown_effects_calls (sid : string) (h : nat) (v : Validation.t) (e : Effect) :
  e ∈ teardown_effects sid h v → teardown_call e = true →
  e = Logout h ∨ e = Destroy h.
Proof.
  unfold teardown_effects.
  destruct (Validation.success v); [|destruct (String.eqb _ _)];
    intros Hin He; in_trace Hin; subst e; auto; discriminate.
Qed.

(** C2, as the code has it.  For a registered id, [deleteSession] issues
    [logout()] on the client exactly when [validation.success] is true, and
    [destroy()] exactly when [validation.success] is false and
    [validation.message] is ['session_not_connected']; for any other failed
    validation it issues neither.  No other client is logged out or
    destroyed. *)
Theorem deleteSession_logout_or_destroy
    (env : Env) (cfg : Config) (sid : string) (v : Validation.t) (w : World) (h : nat) :
  sessions w !! sid = Some h →
  ∃ r w' t,
    deleteSession env cfg sid v w = (r, w') ∧
    trace w' = (t ++ trace w)%list ∧
    (Logout h ∈ t ↔ Validation.success v = true) ∧
    (Destroy h ∈ t ↔
       Validation.success v = false ∧
       Validation.message v = "session_not_connected") ∧
    (∀ e, e ∈ t → teardown_call e = true → e = Logout h ∨ e = Destroy h).
Proof.
  intros Hreg. rewrite (deleteSession_run env cfg sid v w h Hreg).
  destruct (disconnect_client_spec env sid h v w)
    as (r1 & w1 & tb & ta & Hrun & Htr & Hfb & Hfa & Hs1 & Hfs1 & Herr).
  rewrite Hrun.
  assert (Hmid : ∀ t1 t2, Forall not_teardown t1 → Forall not_teardown t2 →
            (Logout h ∈ (t1 ++ teardown_effects sid h v ++ t2)%list
               ↔ Validation.success v = true) ∧
            (Destroy h ∈ (t1 ++ teardown_effects sid h v ++ t2)%list
               ↔ Validation.success v = false ∧
                 Validation.message v = "session_not_connected") ∧
            (∀ e, e ∈ (t1 ++ teardown_effects sid h v ++ t2)%list →
               teardown_call e = true → e = Logout h ∨ e = Destroy h)).
  { intros t1 t2 H1 H2. split_and!.
    - rewrite teardown_in_run by done. apply logout_in_teardown_effects.
    - rewrite teardown_in_run by done. apply destroy_in_teardown_effects.
    - intros e Hin He. rewrite teardown_in_run in Hin by done.
      by eapply teardown_effects_calls. }
  destruct r1 as [[]|e].
  - pose proof (deleteSessionFolder_adds env cfg sid (unregistered sid w1))
      as ((t2 & Ht2 & Hf2) & _).
    destruct (deleteSessionFolder env cfg sid (unregistered sid w1)) as [[[]|e] w2];
      cbn in Ht2.
    + exists (Returned tt), w2, ((t2 ++ ta) ++ teardown_effects sid h v ++ tb)%list.
      split; [done|]. split; [rewrite Ht2, Htr; by rewrite <- !app_assoc|].
      apply Hmid; [by apply Forall_app|done].
    + eexists (Thrown e), _, ((Log Err (Some sid) (Some e) "Failed to delete session"
                                 :: t2 ++ ta) ++ teardown_effects sid h v ++ tb)%list.
      split; [done|]. split; [cbn; rewrite Ht2, Htr; by rewrite <- !app_assoc|].
      apply Hmid; [|done]. constructor; [done|by apply Forall_app].
  - eexists (Thrown e), _, ((Log Err (Some sid) (Some e) "Failed to delete session"
                               :: ta) ++ teardown_effects sid h v ++ tb)%list.
    split; [done|]. split; [cbn; rewrite Htr; by rewrite <- !app_assoc|].
    apply Hmid; [|done]. by constructor.
Qed.

Lemma deleteSession_logout_or_destroy_witness :
  ∃ r w' t,
    deleteSession Sample.healthy Sample.config "alpha"
      (Validation.Build true (Some "CONNECTED") "session_connected")
      Sample.two_sessions = (r, w') ∧
    trace w' = (t ++ trace Sample.two_sessions)%list ∧
    (Logout 0%nat ∈ t ↔ true = true) ∧
    (Destroy 0%nat ∈ t ↔ true = false ∧ "session_connected" = "session_not_connected") ∧
    (∀ e, e ∈ t → teardown_call e = true → e = Logout 0%nat ∨ e = Destroy 0%nat).
Proof.
  apply (deleteSession_logout_or_destroy Sample.healthy Sample.config "alpha"
           (Validation.Build true (Some "CONNECTED") "session_connected")
           Sample.two_sessions 0%nat).
  reflexivity.
Defined.

(** C2 fails as stated: a registered session whose browser tab is closed is
    validated as [success = false] with message ['browser tab closed'];
    [deleteSession] then issues neither [destroy()] nor [logout()]. *)
Lemma deleteSession_closed_tab_not_destroyed :
  sessions Sample.two_sessions !! "alpha" = Some 0%nat ∧
  ∃ v w1 r w2,
    validateSession Sample.closed_tab "alpha" Sample.two_sessions = (Returned v, w1) ∧
    Validation.success v = false ∧
    deleteSession Sample.closed_tab Sample.config "alpha" v w1 = (r, w2) ∧
    (Destroy 0%nat ∉ trace w2) ∧ (Logout 0%nat ∉ trace w2).
Proof.
  split; [reflexivity|].
  eexists _, _, _, _. split; [vm_compute; reflexivity|]. split; [reflexivity|].
  split; [vm_compute; reflexivity|].
  split; intros Hin; cbn in Hin; in_trace Hin; discriminate.
Qed.

(** C10. For a registered id: the steps of [deleteSession] up to the end of
    the disconnection wait leave the registry and the file system alone, and
    throw whatever [logout()] or [destroy()] throws; an error thrown there
    reaches the caller with the registry entry still in place.  Otherwise the
    id is removed from the registry and only then the folder removal runs; if
    that throws, the error reaches the caller and the registry has no entry
    for the id (nothing is restored), and the folder persists: a folder that
    resolved before the call is still there, only entries below it can be
    gone, and the file system is exactly as it was unless [rm] itself was
    called on the folder and rejected. *)
Theorem deleteSession_unregisters_before_folder_removal
    (env : Env) (cfg : Config) (sid : string) (v : Validation.t) (w : World) (h : nat) :
  sessions w !! sid = Some h →
  ∃ r1 w1,
    disconnect_client env sid h v w = (r1, w1) ∧
    sessions w1 = sessions w ∧ fs w1 = fs w ∧
    (∀ e, teardown_error env h v = Some e → r1 = Thrown e) ∧
    match r1 with
    | Thrown e =>
        ∃ w', deleteSession env cfg sid v w = (Thrown e, w') ∧
              sessions w' !! sid = Some h
    | Returned _ =>
        sessions (unregistered sid w1) !! sid = None ∧
        ∃ r2 w2,
          deleteSessionFolder env cfg sid (unregistered sid w1) = (r2, w2) ∧
          match r2 with
          | Thrown e =>
              ∃ w', deleteSession env cfg sid v w = (Thrown e, w') ∧
                    sessions w' !! sid = None ∧
                    (∀ target,
                       realpath env (fs w)
                         (Path.join [sessionFolderPath cfg; "session-" +:+ sid])
                       = Returned target →
                       exists_node (fs w') target = true) ∧
                    (∀ p, p ∈ nodes (fs w) → p ∉ nodes (fs w') →
                       ∃ target,
                         realpath env (fs w)
                           (Path.join [sessionFolderPath cfg; "session-" +:+ sid])
                         = Returned target ∧
                         strictly_under target p = true) ∧
                    (fs w' = fs w ∨
                     ∃ target failure,
                       realpath env (fs w)
                         (Path.join [sessionFolderPath cfg; "session-" +:+ sid])
                       = Returned target ∧
                       rm_fails env target = Some failure ∧ e = rm_error failure)
          | Returned _ =>
              deleteSession env cfg sid v w = (Returned tt, w2) ∧
              sessions w2 !! sid = None
          end
    end.
Proof.
  intros Hreg. rewrite (deleteSession_run env cfg sid v w h Hreg).
  destruct (disconnect_client_spec env sid h v w)
    as (r1 & w1 & tb & ta & Hrun & Htr & Hfb & Hfa & Hs1 & Hfs1 & Herr).
  exists r1, w1. rewrite Hrun. split_and!; [done..|].
  destruct r1 as [[]|e].
  - assert (Hgone : sessions (unregistered sid w1) !! sid = None)
      by (cbn; apply lookup_delete_eq).
    split; [exact Hgone|].
    pose proof (deleteSessionFolder_adds env cfg sid (unregistered sid w1))
      as (_ & Hkeep).
    unfold keeps in Hkeep.
    destruct (deleteSessionFolder env cfg sid (unregistered sid w1))
      as [[[]|e] w2] eqn:Hfolder; cbn in Hkeep.
    + exists (Returned tt), w2. split; [done|]. split; [done|]. by rewrite Hkeep.
    + exists (Thrown e), w2. split; [done|]. eexists. split; [done|].
      change (sessions (delete_logged sid e w2)) with (sessions w2).
      change (fs (delete_logged sid e w2)) with (fs w2).
      split; [by rewrite Hkeep|].
      apply deleteSessionFolder_throws in Hfolder.
      change (fs (unregistered sid w1)) with (fs w1) in Hfolder.
      rewrite Hfs1 in Hfolder.
      destruct Hfolder as [Hsame|(target & failure & Htarget & Hrm & -> & Hleft)].
      * rewrite Hsame. split_and!.
        -- intros target Htarget. unfold realpath in Htarget.
           destruct (exists_node (fs w) _) eqn:Hex; [|discriminate].
           by injection Htarget as <-.
        -- intros p Hin Hout. by destruct Hout.
        -- by left.
      * rewrite Hleft. split_and!.
        -- intros target' Htarget'. rewrite Htarget in Htarget'.
           injection Htarget' as <-. rewrite rm_interrupted_keeps_target.
           unfold realpath in Htarget.
           destruct (exists_node (fs w) _) eqn:Hex; [|discriminate].
           by injection Htarget as <-.
        -- intros p Hin Hout. exists target. split; [done|].
           by eapply rm_interrupted_removes.
        -- right. by exists target, failure.
  - eexists. split; [done|]. cbn. by rewrite Hs1.
Qed.

Lemma deleteSession_unregisters_before_folder_removal_witness :
  ∃ w',
    deleteSession Sample.rm_busy Sample.config "alpha"
      (Validation.Build true (Some "CONNECTED") "session_connected")
      Sample.two_sessions
    = (Thrown (MkError "EBUSY: resource busy or locked, rmdir '/data/sessions/session-alpha'"),
       w') ∧
    sessions w' !! "alpha" = None ∧
    exists_node (fs w') "/data/sessions/session-alpha" = true.
Proof.
  destruct (deleteSession_unregisters_before_folder_removal
              Sample.rm_busy Sample.config "alpha"
              (Validation.Build true (Some "CONNECTED") "session_connected")
              Sample.two_sessions 0%nat eq_refl)
    as (r1 & w1 & Hrun & _ & _ & _ & Hcases).
  vm_compute in Hrun. injection Hrun as <- <-.
  destruct Hcases as (_ & r2 & w2 & Hfolder & Hcases).
  vm_compute in Hfolder. injection Hfolder as <- <-.
  destruct Hcases as (w' & Hdelete & Hgone & Hpersists & _).
  exists w'. split; [exact Hdelete|]. split; [exact Hgone|].
  apply Hpersists. reflexivity.
Defined.

(** ** flushSessions *)

Lemma flush_each_app (env : Env) (cfg : Config) (b : bool)
    (before after : list string) (w : World) :
  flush_each env cfg b (before ++ after)%list w =
    match flush_each env cfg b before w with
    | (Returned _, w1) => flush_each env cfg b after w1
    | (Thrown e, w1) => (Thrown e, w1)
    end.
Proof.
  revert w. induction before as [|file before IH]; intros w; [done|].
  cbn [flush_each app]. unfold bind.
  destruct (flush_file env cfg b file w) as [[[]|e] w0]; [|done].
  apply IH.
Qed.

(** When every folder is handled without an error, the flush returns. *)
Lemma flushSessions_handles_all
    (env : Env) (cfg : Config) (deleteOnlyInactive : bool) (w w1 : World)
    (files : list string) :
  readdir env (fs w) (sessionFolderPath cfg) = Returned files →
  flush_each env cfg deleteOnlyInactive files w = (Returned tt, w1) →
  flushSessions env cfg deleteOnlyInactive w = (Returned tt, w1).
Proof.
  intros Hdir Hfiles.
  unfold flushSessions. unfold try_catch, bind at 1 2, get_world. cbv beta.
  rewrite Hdir. cbn [lift ret]. by rewrite Hfiles.
Qed.

(** C4, as the code has it.  [flushSessions] handles the enumerated folders
    in order inside one [try] block: when the handling of a folder throws,
    the folders after it are not handled at all, the error is logged once and
    rethrown to the caller. *)
Theorem flushSessions_stops_at_first_failure
    (env : Env) (cfg : Config) (deleteOnlyInactive : bool) (w w1 w2 : World)
    (handled : list string) (file : string) (remaining : list string) (e : Error) :
  readdir env (fs w) (sessionFolderPath cfg) = Returned (handled ++ file :: remaining)%list →
  flush_each env cfg deleteOnlyInactive handled w = (Returned tt, w1) →
  flush_file env cfg deleteOnlyInactive file w1 = (Thrown e, w2) →
  flushSessions env cfg deleteOnlyInactive w = (Thrown e, flush_logged e w2).
Proof.
  intros Hdir Hhandled Hfile.
  unfold flushSessions. unfold try_catch, bind at 1 2, get_world. cbv beta.
  rewrite Hdir. cbn [lift ret].
  rewrite flush_each_app, Hhandled. cbn [flush_each]. unfold bind at 1.
  rewrite Hfile. reflexivity.
Qed.

Lemma flushSessions_stops_at_first_failure_witness :
  ∃ w2,
    flushSessions Sample.logout_fails Sample.config false Sample.two_sessions
      = (Thrown (MkError "Protocol error"), flush_logged (MkError "Protocol error") w2) ∧
    sessions w2 !! "beta" = Some 1%nat ∧
    exists_node (fs w2) "/data/sessions/session-beta" = true.
Proof.
  eexists. split.
  - apply (flushSessions_stops_at_first_failure Sample.logout_fails Sample.config false
             Sample.two_sessions Sample.two_sessions _
             [] "session-alpha" ["session-beta"; "scratch"] (MkError "Protocol error")).
    + reflexivity.
    + reflexivity.
    + vm_compute. reflexivity.
  - split; reflexivity.
Defined.

(** C4 fails as stated: with two session folders and a client whose
    [logout()] rejects, the deletion of the first session throws; the flush
    throws that error to its caller, and the second session is neither
    validated nor deleted. *)
Lemma flushSessions_aborts_on_first_failure :
  readdir Sample.logout_fails (fs Sample.two_sessions) (sessionFolderPath Sample.config)
    = Returned ["session-alpha"; "session-beta"; "scratch"] ∧
  ∃ w',
    flushSessions Sample.logout_fails Sample.config false Sample.two_sessions
      = (Thrown (MkError "Protocol error"), w') ∧
    sessions w' !! "beta" = Some 1%nat ∧
    exists_node (fs w') "/data/sessions/session-beta" = true ∧
    (∀ attempt, Probe 1%nat attempt ∉ trace w') ∧
    (Logout 1%nat ∉ trace w') ∧ (Destroy 1%nat ∉ trace w').
Proof.
  split; [reflexivity|].
  eexists. split; [vm_compute; reflexivity|].
  split; [reflexivity|]. split; [reflexivity|].
  split_and!; [intros attempt Hin|intros Hin..]; cbn in Hin; in_trace Hin; discriminate.
Qed.

(** ** initializeEvents and the listeners *)

(** Solves [x ∈ [e1; ...; en]] when [x] is one of the listed elements. *)
Ltac listed :=
  solve [repeat first [apply list_elem_of_here | apply list_elem_of_further]].

Lemma listeners_bind_all (cfg : Config) (sid : string) (events : list string) (c : Client) :
  listeners (bind_all cfg sid events c)
  = (listeners c ++ bound_forwarders cfg sid events)%list.
Proof.
  revert c. induction events as [|event events IH]; intros c; cbn.
  - by rewrite app_nil_r.
  - unfold bind_all in IH. rewrite IH. unfold on_if_enabled.
    destruct (isEventEnabled cfg event); cbn; [|done].
    by rewrite <- app_assoc.
Qed.

Lemma listeners_bind_listeners
    (env : Env) (cfg : Config) (h : nat) (sid : string) (c : Client) :
  listeners (bind_listeners env cfg h sid c)
  = (listeners c ++ bound_listeners cfg sid)%list.
Proof.
  unfold bind_listeners, bound_listeners, on_if_enabled.
  rewrite !listeners_bind_all. cbn [listeners on].
  rewrite !listeners_bind_all. cbn [listeners on].
  rewrite !listeners_bind_all.
  destruct (recoverSessions cfg), (isEventEnabled cfg "auth_failure"),
    (isEventEnabled cfg "authenticated"); cbn [listeners on set_qr set_recovery_hooks];
    rewrite <- ?app_assoc; cbn [app]; reflexivity.
Qed.

Lemma bound_forwarders_elem
    (cfg : Config) (sid : string) (events : list string) (name : string) (l : Listener) :
  (name, l) ∈ bound_forwarders cfg sid events →
  name ∈ events ∧ isEventEnabled cfg name = true ∧
  l = Forward (sessionWebhook cfg sid) sid name.
Proof.
  unfold bound_forwarders. rewrite list_elem_of_In, in_flat_map.
  intros (event & Hin & Hbound). apply list_elem_of_In in Hin.
  destruct (isEventEnabled cfg event) eqn:Hen; [|done].
  destruct Hbound as [[= <- <-]|[]]. done.
Qed.

(** Every listener [initializeEvents] binds is the message listener, the QR
    listener, or a forwarder for a category enabled at bind time, delivering
    under the category's own name or, for [auth_failure], under ['status']. *)
Lemma bound_listeners_elem (cfg : Config) (sid : string) (name : string) (l : Listener) :
  (name, l) ∈ bound_listeners cfg sid →
  (name = "message" ∧ l = OnMessage (sessionWebhook cfg sid) sid) ∨
  (name = "qr" ∧ l = OnQr (sessionWebhook cfg sid) sid) ∨
  (isEventEnabled cfg name = true ∧ name ≠ "message" ∧ name ≠ "qr" ∧
   ∃ dataType, l = Forward (sessionWebhook cfg sid) sid dataType ∧
               (dataType = name ∨ dataType = "status")).
Proof.
  unfold bound_listeners. rewrite !elem_of_app.
  intros [Hin|[Hin|[Hin|[Hin|[Hin|[Hin|Hin]]]]]].
  - destruct (isEventEnabled cfg "auth_failure") eqn:Hen; in_trace Hin.
    injection Hin as -> ->. right; right. split_and!; [done..|]. eauto.
  - destruct (isEventEnabled cfg "authenticated") eqn:Hen; in_trace Hin.
    injection Hin as -> ->. right; right. split_and!; [done..|]. eauto.
  - apply bound_forwarders_elem in Hin as (Hev & Hen & ->).
    right; right. split_and!; [done| | |eauto];
      intros ->; unfold events_before_message in Hev; in_trace Hev; discriminate.
  - in_trace Hin. injection Hin as -> ->. by left.
  - apply bound_forwarders_elem in Hin as (Hev & Hen & ->).
    right; right. split_and!; [done| | |eauto];
      intros ->; unfold events_before_qr in Hev; in_trace Hev; discriminate.
  - in_trace Hin. injection Hin as -> ->. right; by left.
  - apply bound_forwarders_elem in Hin as (Hev & Hen & ->).
    right; right. split_and!; [done| | |eauto];
      intros ->; unfold events_after_qr in Hev; in_trace Hev; discriminate.
Qed.

Lemma run_listeners_app (env : Env) (cfg : Config) (h : nat)
    (l1 l2 : list (string * Listener)) (event : string) (data : Payload) (w : World) :
  run_listeners env cfg h (l1 ++ l2) event data w =
    match run_listeners env cfg h l1 event data w with
    | (Returned _, w1) => run_listeners env cfg h l2 event data w1
    | (Thrown e, w1) => (Thrown e, w1)
    end.
Proof.
  revert w. induction l1 as [|[name l] l1 IH]; intros w; [done|].
  cbn [run_listeners app]. unfold bind.
  destruct (String.eqb name event);
    [destruct (run_listener env cfg h l data w) as [[[]|e] w0]; [|done]|cbn [ret]];
    apply IH.
Qed.

Lemma run_listeners_skip (env : Env) (cfg : Config) (h : nat)
    (ls : list (string * Listener)) (event : string) (data : Payload) (w : World) :
  (∀ l, (event, l) ∉ ls) →
  run_listeners env cfg h ls event data w = (Returned tt, w).
Proof.
  induction ls as [|[name l] ls IH]; intros Hnone; [done|].
  cbn [run_listeners]. unfold bind.
  destruct (String.eqb_spec name event) as [->|Hne].
  - exfalso. apply (Hnone l). by left.
  - cbn. apply IH. intros l' Hin. apply (Hnone l'). by right.
Qed.

Lemma forwarders_skip (env : Env) (cfg0 cfg : Config) (h : nat) (sid : string)
    (events : list string) (event : string) (data : Payload) (w : World) :
  event ∉ events →
  run_listeners env cfg h (bound_forwarders cfg0 sid events) event data w
  = (Returned tt, w).
Proof.
  intros Hout. apply run_listeners_skip. intros l Hin.
  by apply bound_forwarders_elem in Hin as (Hev & _).
Qed.

Lemma unit_run (m : M unit) (w : World) :
  match m w with
  | (Returned _, w1) => (Returned tt, w1)
  | (Thrown e, w1) => (Thrown e, w1)
  end = m w.
Proof. by destruct (m w) as [[[]|e] w1]. Qed.

(** On a client bound by [initializeEvents], a ['message'] event runs the
    message listener, once. *)
Lemma run_bound_message (env : Env) (cfg0 cfg : Config) (h : nat) (sid : string)
    (m : Message) (w : World) :
  run_listeners env cfg h (bound_listeners cfg0 sid) "message" (MessageData m) w
  = on_message env cfg (sessionWebhook cfg0 sid) sid m w.
Proof.
  unfold bound_listeners.
  rewrite run_listeners_app.
  replace (run_listeners env cfg h (if isEventEnabled cfg0 "auth_failure" then _ else _) _ _ w)
    with (Returned tt, w) by (by destruct (isEventEnabled cfg0 "auth_failure")).
  rewrite run_listeners_app.
  replace (run_listeners env cfg h (if isEventEnabled cfg0 "authenticated" then _ else _) _ _ w)
    with (Returned tt, w) by (by destruct (isEventEnabled cfg0 "authenticated")).
  rewrite run_listeners_app, forwarders_skip
    by (intros Hin; unfold events_before_message in Hin; in_trace Hin; discriminate).
  rewrite run_listeners_app. cbn [run_listeners String.eqb Ascii.eqb Bool.eqb run_listener].
  unfold bind at 1.
  destruct (on_message env cfg (sessionWebhook cfg0 sid) sid m w) as [[[]|e] w1]; [|done].
  cbn [ret]. rewrite run_listeners_app, forwarders_skip
    by (intros Hin; unfold events_before_qr in Hin; in_trace Hin; discriminate).
  rewrite run_listeners_app. cbn [run_listeners String.eqb Ascii.eqb Bool.eqb].
  unfold bind at 1. cbn [ret].
  apply forwarders_skip.
  intros Hin; unfold events_after_qr in Hin; in_trace Hin; discriminate.
Qed.

(** On a client bound by [initializeEvents], a ['qr'] event runs the QR
    listener, once. *)
Lemma run_bound_qr (env : Env) (cfg0 cfg : Config) (h : nat) (sid : string)
    (code : string) (w : World) :
  run_listeners env cfg h (bound_listeners cfg0 sid) "qr" (QrData code) w
  = on_qr cfg h (sessionWebhook cfg0 sid) sid code w.
Proof.
  unfold bound_listeners.
  rewrite run_listeners_app.
  replace (run_listeners env cfg h (if isEventEnabled cfg0 "auth_failure" then _ else _) _ _ w)
    with (Returned tt, w) by (by destruct (isEventEnabled cfg0 "auth_failure")).
  rewrite run_listeners_app.
  replace (run_listeners env cfg h (if isEventEnabled cfg0 "authenticated" then _ else _) _ _ w)
    with (Returned tt, w) by (by destruct (isEventEnabled cfg0 "authenticated")).
  rewrite run_listeners_app, forwarders_skip
    by (intros Hin; unfold events_before_message in Hin; in_trace Hin; discriminate).
  rewrite run_listeners_app. cbn [run_listeners String.eqb Ascii.eqb Bool.eqb].
  unfold bind at 1. cbn [ret].
  rewrite run_listeners_app, forwarders_skip
    by (intros Hin; unfold events_before_qr in Hin; in_trace Hin; discriminate).
  rewrite run_listeners_app.
  cbn [run_listeners String.eqb Ascii.eqb Bool.eqb run_listener].
  unfold bind at 1.
  destruct (on_qr cfg h (sessionWebhook cfg0 sid) sid code w) as [[[]|e] w1]; [|done].
  cbn [ret]. apply forwarders_skip.
  intros Hin; unfold events_after_qr in Hin; in_trace Hin; discriminate.
Qed.

Lemma set_qr_keeps_listeners (h client : nat) (c : Client) (code : option string)
    (timer : bool) (w : World) :
  heap w !! client = Some c →
  listeners_of h (snd (set_client client (set_qr code timer c) w)) = listeners_of h w.
Proof.
  intros Hc. unfold listeners_of. cbn.
  destruct (decide (client = h)) as [->|Hne].
  - by rewrite lookup_insert_eq, Hc.
  - by rewrite lookup_insert_ne.
Qed.

Lemma on_qr_keeps_listeners (cfg : Config) (h client : nat)
    (url sid code : string) :
  steps (keeps (listeners_of h)) (on_qr cfg client url sid code).
Proof.
  intros w. unfold keeps, on_qr, sinks. unfold_monad. cbv beta.
  destruct (heap w !! client) as [c|] eqn:Hc; cbn; [|done].
  pose proof (set_qr_keeps_listeners h client c (Some code) true w Hc) as Hkeep.
  by destruct (isEventEnabled cfg "qr").
Qed.

Lemma qr_timeout_keeps_listeners (h client : nat) (sid : string) :
  steps (keeps (listeners_of h)) (qr_timeout client sid).
Proof.
  intros w. unfold keeps, qr_timeout. unfold_monad. cbv beta.
  destruct (heap w !! client) as [c|] eqn:Hc; cbn; [|done].
  destruct (truthy (qr c)); cbn; [|done].
  unfold listeners_of. cbn.
  destruct (decide (client = h)) as [->|Hne].
  - by rewrite lookup_insert_eq, Hc.
  - by rewrite lookup_insert_ne.
Qed.

Lemma on_message_keeps_listeners (env : Env) (cfg : Config) (h : nat)
    (url sid : string) (m : Message) :
  steps (keeps (listeners_of h)) (on_message env cfg url sid m).
Proof. unfold on_message, media_settled, sinks. steps. Qed.

Lemma run_listeners_keep_listeners (env : Env) (cfg : Config) (h client : nat)
    (ls : list (string * Listener)) (event : string) (data : Payload) :
  steps (keeps (listeners_of h)) (run_listeners env cfg client ls event data).
Proof.
  induction ls as [|[name l] ls IH]; cbn [run_listeners]; [steps|].
  apply steps_bind; [|intros; exact IH].
  destruct (String.eqb name event); [|steps].
  destruct l; cbn [run_listener].
  - unfold sinks. steps.
  - destruct data; try apply steps_ret. apply on_message_keeps_listeners.
  - destruct data; try apply steps_ret. apply on_qr_keeps_listeners.
Qed.

Lemma happen_keeps_listeners (env : Env) (h : nat) (hp : Happening) :
  steps (keeps (listeners_of h)) (happen env hp).
Proof.
  destruct hp as [cfg client event data|client sid]; cbn [happen].
  - intros w. unfold client_emit. unfold_monad. cbv beta.
    destruct (heap w !! client) as [c|]; [|done].
    apply run_listeners_keep_listeners.
  - apply qr_timeout_keeps_listeners.
Qed.

Lemma replay_keeps_listeners (env : Env) (h : nat) (history : list Happening) (w : World) :
  listeners_of h (replay env history w) = listeners_of h w.
Proof.
  revert w. induction history as [|hp history IH]; intros w; [done|].
  cbn [replay]. rewrite IH. apply happen_keeps_listeners.
Qed.

(** The listeners of a freshly constructed client, from [initializeEvents]
    on, whatever happens afterwards. *)
Lemma bound_for_life (env : Env) (cfg0 : Config) (h : nat) (sid : string)
    (c0 : Client) (w0 : World) (history : list Happening) :
  heap w0 !! h = Some c0 → listeners c0 = [] →
  listeners_of h (replay env history (snd (initializeEvents env cfg0 h sid w0)))
  = Some (bound_listeners cfg0 sid).
Proof.
  intros Hc Hfresh. rewrite replay_keeps_listeners.
  unfold initializeEvents, listeners_of. unfold_monad. cbv beta. rewrite Hc.
  cbn [snd heap]. rewrite lookup_insert_eq.
  change (Some (listeners (bind_listeners env cfg0 h sid c0))
          = Some (bound_listeners cfg0 sid)).
  by rewrite listeners_bind_listeners, Hfresh.
Qed.

Lemma client_emit_bound (env : Env) (cfg : Config) (h : nat) (w : World)
    (ls : list (string * Listener)) (event : string) (data : Payload) :
  listeners_of h w = Some ls →
  client_emit env cfg h event data w = run_listeners env cfg h ls event data w.
Proof.
  unfold listeners_of, client_emit. unfold_monad. cbv beta.
  destruct (heap w !! h) as [c|]; [|done]. by intros [= <-].
Qed.

Lemma run_listener_no_sink (env : Env) (cfg0 cfg : Config) (h : nat) (sid : string)
    (category name : string) (l : Listener) (data : Payload) :
  isEventEnabled cfg0 category = false →
  category ≠ "message" → category ≠ "qr" → category ≠ "media" → category ≠ "status" →
  (name, l) ∈ bound_listeners cfg0 sid →
  steps (adds (no_sink_for category)) (run_listener env cfg h l data).
Proof.
  intros Hoff Hm Hq Hmedia Hstatus Hin.
  apply bound_listeners_elem in Hin
    as [[-> ->]|[[-> ->]|(Hon & _ & _ & dataType & -> & Hdt)]]; cbn [run_listener].
  - destruct data; try apply steps_ret.
    unfold on_message, media_settled, sinks. steps.
    all: unfold no_sink_for; cbn; congruence.
  - destruct data; try apply steps_ret.
    unfold on_qr, sinks. steps.
    all: unfold no_sink_for; cbn; congruence.
  - unfold sinks. steps.
    all: unfold no_sink_for; cbn; intros [= ->]; destruct Hdt as [->| ->]; congruence.
Qed.

Lemma run_listeners_no_sink (env : Env) (cfg0 cfg : Config) (h : nat) (sid : string)
    (category : string) (ls : list (string * Listener)) (event : string) (data : Payload) :
  isEventEnabled cfg0 category = false →
  category ≠ "message" → category ≠ "qr" → category ≠ "media" → category ≠ "status" →
  (∀ p, p ∈ ls → p ∈ bound_listeners cfg0 sid) →
  steps (adds (no_sink_for category)) (run_listeners env cfg h ls event data).
Proof.
  intros Hoff Hm Hq Hmedia Hstatus.
  induction ls as [|[name l] ls IH]; intros Hsub; cbn [run_listeners]; [steps|].
  apply steps_bind; [|intros; apply IH; intros p Hp; apply Hsub; by right].
  destruct (String.eqb name event); [|steps].
  eapply run_listener_no_sink; try done. apply Hsub. by left.
Qed.

(** C6, as the code has it.  Take a freshly constructed client, bind its
    listeners with [initializeEvents] under the configuration [cfg0], and let
    anything happen afterwards.  For a category disabled in [cfg0] other than
    ['message'] and ['qr'], no listener was bound: an event of that category
    changes nothing, whatever the configuration reads by then; and unless the
    category is also ['media'] (or the ['status'] name under which
    [auth_failure] delivers), no event at all makes the client call a sink
    under that category.  The listeners of ['qr'] and ['message'] are always
    bound and consult the gate when the event fires: they call the sinks
    exactly when the category is enabled in the configuration of that
    moment. *)
Theorem gate_resolved_at_bind_time
    (env : Env) (cfg0 : Config) (h : nat) (sid : string) (c0 : Client) (w0 : World)
    (category : string) (history : list Happening) (cfg1 : Config) :
  heap w0 !! h = Some c0 → listeners c0 = [] →
  isEventEnabled cfg0 category = false →
  let w := replay env history (snd (initializeEvents env cfg0 h sid w0)) in
  let url := sessionWebhook cfg0 sid in
  (category ≠ "message" → category ≠ "qr" →
   ∀ data, client_emit env cfg1 h category data w = (Returned tt, w)) ∧
  (category ≠ "message" → category ≠ "qr" → category ≠ "media" → category ≠ "status" →
   ∀ event data,
     adds (no_sink_for category) w (snd (client_emit env cfg1 h event data w))) ∧
  (∀ code, ∃ w',
     client_emit env cfg1 h "qr" (QrData code) w = (Returned tt, w') ∧
     trace w' = ((if isEventEnabled cfg1 "qr"
                  then [TriggerWebSocket sid "qr" (QrData code);
                        TriggerWebhook url sid "qr" (QrData code)]
                  else []) ++ trace w)%list) ∧
  (∀ m, ∃ w' t,
     client_emit env cfg1 h "message" (MessageData m) w = (Returned tt, w') ∧
     trace w' = (t ++ trace w)%list ∧
     (TriggerWebhook url sid "message" (MessageData m) ∈ t
        ↔ isEventEnabled cfg1 "message" = true) ∧
     (TriggerWebSocket sid "message" (MessageData m) ∈ t
        ↔ isEventEnabled cfg1 "message" = true)).
Proof.
  intros Hc Hfresh Hoff w url.
  pose proof (bound_for_life env cfg0 h sid c0 w0 history Hc Hfresh) as Hbound.
  fold w in Hbound. split_and!.
  - intros Hm Hq data. rewrite (client_emit_bound _ _ _ _ _ _ _ Hbound).
    apply run_listeners_skip. intros l Hin.
    apply bound_listeners_elem in Hin as [[? _]|[[? _]|(Hon & _)]]; congruence.
  - intros Hm Hq Hmedia Hstatus event data.
    rewrite (client_emit_bound _ _ _ _ _ _ _ Hbound).
    by apply (run_listeners_no_sink env cfg0 cfg1 h sid category).
  - intros code. rewrite (client_emit_bound _ _ _ _ _ _ _ Hbound), run_bound_qr.
    unfold on_qr, sinks. unfold_monad. cbv beta.
    unfold listeners_of in Hbound.
    destruct (heap w !! h) as [c|]; [|discriminate]. cbn.
    destruct (isEventEnabled cfg1 "qr"); cbn; eexists; split; reflexivity.
  - intros m. rewrite (client_emit_bound _ _ _ _ _ _ _ Hbound), run_bound_message.
    unfold on_message, media_settled, sinks. unfold_monad. cbv beta zeta.
    destruct (isEventEnabled cfg1 "message"), (hasMedia m),
      (size_below m (maxAttachmentSize cfg1)), (isEventEnabled cfg1 "media"),
      (downloadMedia env m), (setMessagesAsSeen cfg1),
      (media_settles_first env m); cbn.
    all: eexists _, _; split; [reflexivity|]; split; [cbn; grown|].
    all: split; (split; [intros Hin; in_trace Hin; try discriminate; done
                        |intros Hon; try discriminate; listed]).
Qed.

Lemma gate_resolved_at_bind_time_witness :
  client_emit Sample.healthy Sample.config 0%nat "call" NoData
    (replay Sample.healthy
       [Emitted Sample.config 0%nat "qr" (QrData "2@abc")]
       (snd (initializeEvents Sample.healthy
               (Sample.with_disabled ["call"] Sample.config) 0%nat "alpha"
               Sample.constructed)))
  = (Returned tt,
     replay Sample.healthy
       [Emitted Sample.config 0%nat "qr" (QrData "2@abc")]
       (snd (initializeEvents Sample.healthy
               (Sample.with_disabled ["call"] Sample.config) 0%nat "alpha"
               Sample.constructed))).
Proof.
  destruct (gate_resolved_at_bind_time Sample.healthy
              (Sample.with_disabled ["call"] Sample.config) 0%nat "alpha"
              (Sample.fresh_client "alpha") Sample.constructed "call"
              [Emitted Sample.config 0%nat "qr" (QrData "2@abc")] Sample.config
              eq_refl eq_refl eq_refl) as (Hnothing & _).
  apply Hnothing; discriminate.
Defined.

(** C6 fails as stated: with ['qr'] disabled when the session is set up and
    enabled afterwards, the next QR event of the same client reaches both
    sinks. *)
Lemma qr_gate_follows_the_configuration :
  isEventEnabled (Sample.with_disabled ["qr"] Sample.config) "qr" = false ∧
  isEventEnabled Sample.config "qr" = true ∧
  ∃ r w1 w2,
    setupSession Sample.healthy (Sample.with_disabled ["qr"] Sample.config) "alpha"
      Sample.boot = (Returned r, w1) ∧
    SetupResult.client r = Some 0%nat ∧
    client_emit Sample.healthy Sample.config 0%nat "qr" (QrData "2@abc") w1
      = (Returned tt, w2) ∧
    trace w2 =
      TriggerWebSocket "alpha" "qr" (QrData "2@abc")
      :: TriggerWebhook (baseWebhookURL Sample.config) "alpha" "qr" (QrData "2@abc")
      :: trace w1.
Proof.
  split; [reflexivity|]. split; [reflexivity|].
  eexists _, _, _. split; [vm_compute; reflexivity|]. split; [reflexivity|].
  split; [vm_compute; reflexivity|]. reflexivity.
Qed.

(** C9, as the code has it.  On a client bound by [initializeEvents], an
    inbound message runs the message listener with the configuration of that
    moment, and the calls it makes are exactly these, in this order.  When
    the ['message'] category is enabled, the message is delivered to the
    webhook and the websocket; then, if it has media below the size ceiling
    and the ['media'] category is enabled as well, the attachment fetch is
    started (and in no other case).  When [setMessagesAsSeen] is set,
    whatever the gates say, the listener then pauses for one second and only
    after the pause sends the "seen" acknowledgment, once.  A fetch that was
    started is settled after the pause has begun, before or after the
    acknowledgment: its result is delivered to both sinks under ['media'],
    its failure is logged.  Nothing is delivered under ['media'] without a
    fetch. *)
Theorem message_side_effects
    (env : Env) (cfg0 cfg : Config) (h : nat) (sid : string) (c0 : Client) (w0 : World)
    (history : list Happening) (m : Message) :
  heap w0 !! h = Some c0 → listeners c0 = [] →
  let w := replay env history (snd (initializeEvents env cfg0 h sid w0)) in
  let url := sessionWebhook cfg0 sid in
  let fetching :=
    isEventEnabled cfg "message" && hasMedia m &&
    size_below m (maxAttachmentSize cfg) && isEventEnabled cfg "media" in
  let delivered :=
    if isEventEnabled cfg "message"
    then [TriggerWebSocket sid "message" (MessageData m);
          TriggerWebhook url sid "message" (MessageData m)]
    else [] in
  let fetch := if fetching then [DownloadMedia m] else [] in
  let settled :=
    if fetching then
      match downloadMedia env m with
      | Returned media =>
          [TriggerWebSocket sid "media" (MediaData media m);
           TriggerWebhook url sid "media" (MediaData media m)]
      | Thrown error => [Log Err (Some sid) (Some error) "Failed to download media"]
      end
    else [] in
  ∃ w',
    client_emit env cfg h "message" (MessageData m) w = (Returned tt, w') ∧
    trace w' =
      (if setMessagesAsSeen cfg then
         if media_settles_first env m then
           SendMessageSeenStatus m :: settled ++ Sleep 1000 :: fetch ++ delivered ++ trace w
         else
           settled ++ SendMessageSeenStatus m :: Sleep 1000 :: fetch ++ delivered ++ trace w
       else settled ++ fetch ++ delivered ++ trace w)%list.
Proof.
  intros Hc Hfresh w url.
  pose proof (bound_for_life env cfg0 h sid c0 w0 history Hc Hfresh) as Hbound.
  fold w in Hbound.
  rewrite (client_emit_bound _ _ _ _ _ _ _ Hbound), run_bound_message.
  unfold on_message, media_settled, sinks. unfold_monad. cbv beta zeta.
  destruct (isEventEnabled cfg "message"), (hasMedia m),
    (size_below m (maxAttachmentSize cfg)), (isEventEnabled cfg "media"),
    (downloadMedia env m) as [media0|err], (setMessagesAsSeen cfg),
    (media_settles_first env m); cbn.
  all: eexists; split; reflexivity.
Qed.

Lemma message_side_effects_witness :
  ∃ w',
    client_emit Sample.healthy Sample.config 0%nat "message"
      (MessageData Sample.photo)
      (snd (initializeEvents Sample.healthy Sample.config 0%nat "alpha"
              Sample.constructed)) = (Returned tt, w') ∧
    trace w' =
      SendMessageSeenStatus Sample.photo
      :: TriggerWebSocket "alpha" "media" (MediaData "base64" Sample.photo)
      :: TriggerWebhook "http://localhost:3000/localCallbackExample" "alpha" "media"
           (MediaData "base64" Sample.photo)
      :: Sleep 1000
      :: DownloadMedia Sample.photo
      :: TriggerWebSocket "alpha" "message" (MessageData Sample.photo)
      :: TriggerWebhook "http://localhost:3000/localCallbackExample" "alpha" "message"
           (MessageData Sample.photo)
      :: trace (snd (initializeEvents Sample.healthy Sample.config 0%nat "alpha"
                       Sample.constructed)).
Proof.
  destruct (message_side_effects Sample.healthy Sample.config Sample.config 0%nat
              "alpha" (Sample.fresh_client "alpha") Sample.constructed []
              Sample.photo eq_refl eq_refl)
    as (w' & Hrun & Htrace).
  exists w'. split; [exact Hrun|exact Htrace].
Defined.

(** C9 fails as stated: with the ['message'] category disabled, an inbound
    message with a small attachment is acknowledged as seen, but its
    attachment is not fetched and nothing is delivered under ['media']. *)
Lemma attachment_fetch_is_gated :
  hasMedia Sample.photo = true ∧
  size_below Sample.photo (maxAttachmentSize Sample.config) = true ∧
  isEventEnabled (Sample.with_disabled ["message"] Sample.config) "message" = false ∧
  ∃ r w1 w2,
    setupSession Sample.healthy (Sample.with_disabled ["message"] Sample.config)
      "alpha" Sample.boot = (Returned r, w1) ∧
    SetupResult.client r = Some 0%nat ∧
    client_emit Sample.healthy (Sample.with_disabled ["message"] Sample.config)
      0%nat "message" (MessageData Sample.photo) w1 = (Returned tt, w2) ∧
    trace w2 = SendMessageSeenStatus Sample.photo :: Sleep 1000 :: trace w1 ∧
    (DownloadMedia Sample.photo ∉ trace w2) ∧
    (∀ e, e ∈ trace w2 → sink_dataType e ≠ Some "media").
Proof.
  split; [reflexivity|]. split; [reflexivity|]. split; [reflexivity|].
  eexists _, _, _. split; [vm_compute; reflexivity|]. split; [reflexivity|].
  split; [vm_compute; reflexivity|]. split; [reflexivity|].
  split.
  - intros Hin. cbn in Hin. in_trace Hin; discriminate.
  - intros e Hin. cbn in Hin. in_trace Hin; subst e; discriminate.
Qed.

(** * Further properties *)

(** ** validateSession as an observer *)

Lemma probe_loop_observes (env : Env) (h n : nat) :
  steps observes (probe_loop env h n).
Proof.
  unfold observes. induction n as [|n IH]; cbn [probe_loop]; steps.
Qed.

Lemma validateSession_observes (env : Env) (sid : string) :
  steps observes (validateSession env sid).
Proof.
  unfold validateSession, waitForNestedObject.
  apply steps_try_catch; [|unfold observes; intros; steps].
  apply steps_bind; [unfold observes; steps|]. intros w0.
  destruct (sessions w0 !! sid) as [h|]; [|unfold observes; steps].
  apply steps_bind; [unfold observes; steps|]. intros _.
  apply steps_bind; [apply probe_loop_observes|]. intros exit.
  unfold observes. steps.
Qed.

(** X1. [validateSession] is an observer: whatever it returns, the registry,
    the client objects, the file system and the allocation counter are as
    before, and the only calls it makes are probes of the page, [getState()]
    and log entries. *)
Theorem validateSession_changes_nothing (env : Env) (sid : string) (w : World) :
  let w' := snd (validateSession env sid w) in
  sessions w' = sessions w ∧ heap w' = heap w ∧ fs w' = fs w ∧
  next_handle w' = next_handle w ∧
  ∃ t, trace w' = (t ++ trace w)%list ∧ Forall validation_call t.
Proof.
  destruct (validateSession_observes env sid w) as (Ht & Hs & Hh & Hf & Hn).
  by split_and!.
Qed.

(** The outcome of the probe loop does not depend on the world. *)
Lemma probe_loop_stable (env : Env) (h n : nat) (w1 w2 : World) :
  fst (probe_loop env h n w1) = fst (probe_loop env h n w2).
Proof.
  revert w1 w2. induction n as [|n IH]; intros w1 w2; cbn [probe_loop];
    unfold_monad; destruct (pupPage env h _); cbn; try done; apply IH.
Qed.

Lemma probe_loop_returns (env : Env) (h n : nat) (w : World) :
  ∃ exit, fst (probe_loop env h n w) = Returned exit.
Proof.
  revert w. induction n as [|n IH]; intros w; cbn [probe_loop];
    unfold_monad; destruct (pupPage env h _); cbn; eauto.
Qed.

Lemma validateSession_stable (env : Env) (sid : string) (w1 w2 : World) :
  sessions w1 !! sid = sessions w2 !! sid →
  fst (validateSession env sid w1) = fst (validateSession env sid w2).
Proof.
  intros Hreg. unfold validateSession, waitForNestedObject. unfold_monad. cbv beta.
  rewrite <- Hreg. destruct (sessions w1 !! sid) as [h|]; [|done].
  destruct (pupPage_appears env h); cbn beta iota.
  all: match goal with
       | |- context [probe_loop ?e ?c 2 ?wa] =>
           match goal with
           | |- context [probe_loop e c 2 ?wb] =>
               tryif constr_eq wa wb then fail else
               pose proof (probe_loop_stable e c 2 wa wb) as Hsame;
               destruct (probe_loop_returns e c 2 wa) as (exit & Hexit);
               destruct (probe_loop e c 2 wa) as [ra wa'];
               destruct (probe_loop e c 2 wb) as [rb wb'];
               cbn in Hsame, Hexit; subst ra rb
           end
       end.
  all: destruct exit; cbn; [|done].
  all: destruct (getState env h) as [st|e]; cbn; [|done].
  all: by destruct (bool_decide (st = Some "CONNECTED")).
Qed.

(** X2. The verdict of [validateSession] depends only on the registry entry
    of the id and on the collaborators' answers: two states that agree on
    that entry get the same verdict, whatever else differs (file system,
    other sessions, history). *)
Theorem validateSession_verdict_depends_on_entry
    (env : Env) (sid : string) (w1 w2 : World) :
  sessions w1 !! sid = sessions w2 !! sid →
  fst (validateSession env sid w1) = fst (validateSession env sid w2).
Proof. apply validateSession_stable. Qed.

Lemma validateSession_verdict_depends_on_entry_witness :
  fst (validateSession Sample.healthy "alpha" Sample.two_sessions)
  = fst (validateSession Sample.healthy "alpha" Sample.folder_lost).
Proof.
  apply (validateSession_verdict_depends_on_entry Sample.healthy "alpha"
           Sample.two_sessions Sample.folder_lost).
  reflexivity.
Defined.

(** ** More on deleteSession *)

Lemma deleteSession_absent (env : Env) (cfg : Config) (sid : string)
    (v : Validation.t) (w : World) :
  sessions w !! sid = None → deleteSession env cfg sid v w = (Returned tt, w).
Proof.
  intros Hreg. unfold deleteSession. unfold_monad. cbv beta. by rewrite Hreg.
Qed.

(** What [deleteSession] does to the registry. *)
Lemma deleteSession_registry (env : Env) (cfg : Config) (sid : string)
    (v : Validation.t) (w : World) :
  (sessions (snd (deleteSession env cfg sid v w)) = sessions w ∨
   sessions (snd (deleteSession env cfg sid v w)) = delete sid (sessions w)) ∧
  (fst (deleteSession env cfg sid v w) = Returned tt →
   sessions (snd (deleteSession env cfg sid v w)) = delete sid (sessions w)).
Proof.
  destruct (sessions w !! sid) as [h|] eqn:Hreg.
  - rewrite (deleteSession_run env cfg sid v w h Hreg).
    destruct (disconnect_client_spec env sid h v w)
      as (r1 & w1 & tb & ta & Hrun & _ & _ & _ & Hs1 & _ & _).
    rewrite Hrun. destruct r1 as [[]|e]; [|cbn; split; [by left|done]].
    pose proof (deleteSessionFolder_adds env cfg sid (unregistered sid w1))
      as (_ & Hkeep). unfold keeps in Hkeep.
    destruct (deleteSessionFolder env cfg sid (unregistered sid w1)) as [[[]|e] w2];
      cbn in Hkeep |- *; rewrite Hkeep, Hs1; split; [by right|done|by right|done].
  - rewrite (deleteSession_absent env cfg sid v w Hreg). cbn.
    split; [by left|]. intros _. symmetry. by apply delete_id.
Qed.

(** X3. Deleting twice: once [deleteSession] has returned, a further
    [deleteSession] of the same id (with any validation result) returns at
    once and changes nothing, not even the log. *)
Theorem deleteSession_twice (env : Env) (cfg : Config) (sid : string)
    (v v' : Validation.t) (w w1 : World) :
  deleteSession env cfg sid v w = (Returned tt, w1) →
  deleteSession env cfg sid v' w1 = (Returned tt, w1).
Proof.
  intros Hrun. apply deleteSession_absent.
  destruct (deleteSession_registry env cfg sid v w) as (_ & Hgone).
  rewrite Hrun in Hgone. cbn in Hgone. rewrite (Hgone eq_refl).
  apply lookup_delete_eq.
Qed.

(** X4. [deleteSession] touches the registry entry of its own id only:
    whether it returns or throws, every other id keeps its entry. *)
Theorem deleteSession_spares_other_sessions (env : Env) (cfg : Config)
    (sid other : string) (v : Validation.t) (w : World) :
  other ≠ sid →
  sessions (snd (deleteSession env cfg sid v w)) !! other = sessions w !! other.
Proof.
  intros Hne. destruct (deleteSession_registry env cfg sid v w) as ([-> | ->] & _);
    [done|]. by apply lookup_delete_ne.
Qed.

Lemma deleteSession_twice_witness :
  deleteSession Sample.healthy Sample.config "alpha"
    (Validation.Build false None "session_not_found")
    (snd (deleteSession Sample.healthy Sample.config "alpha"
            (Validation.Build true (Some "CONNECTED") "session_connected")
            Sample.two_sessions))
  = (Returned tt,
     snd (deleteSession Sample.healthy Sample.config "alpha"
            (Validation.Build true (Some "CONNECTED") "session_connected")
            Sample.two_sessions)).
Proof.
  apply (deleteSession_twice Sample.healthy Sample.config "alpha"
           (Validation.Build true (Some "CONNECTED") "session_connected")
           (Validation.Build false None "session_not_found")
           Sample.two_sessions).
  vm_compute. reflexivity.
Defined.

Lemma deleteSession_spares_other_sessions_witness :
  sessions (snd (deleteSession Sample.logout_fails Sample.config "alpha"
                   (Validation.Build true (Some "CONNECTED") "session_connected")
                   Sample.two_sessions)) !! "beta"
  = sessions Sample.two_sessions !! "beta".
Proof.
  apply (deleteSession_spares_other_sessions Sample.logout_fails Sample.config
           "alpha" "beta"). discriminate.
Defined.

(** ** More on deleteSessionFolder *)

Lemma rm_recursive_force_gone (f : FileSystem) (dir : string) :
  exists_node (rm_recursive_force f dir) dir = false.
Proof.
  unfold exists_node. cbn. apply not_true_is_false. intros Hex.
  apply existsb_exists in Hex as (p & Hin & Heq).
  apply filter_In in Hin as (_ & Hkept).
  apply String.eqb_eq in Heq. subst p.
  unfold under in Hkept. by rewrite String.eqb_refl in Hkept.
Qed.

(** X5. When [deleteSessionFolder] returns, both paths resolved, the target
    was strictly under the root, one [rm] was issued on the resolved target,
    and the file system has lost exactly the target and what lay below it;
    the registry is untouched. *)
Theorem deleteSessionFolder_success (env : Env) (cfg : Config) (sid : string)
    (w w' : World) :
  deleteSessionFolder env cfg sid w = (Returned tt, w') →
  ∃ target root,
    realpath env (fs w) (Path.join [sessionFolderPath cfg; "session-" +:+ sid])
      = Returned target ∧
    realpath env (fs w) (sessionFolderPath cfg) = Returned root ∧
    startsWith target (root +:+ Path.sep) = true ∧
    (∀ p, p ∈ nodes (fs w') ↔ p ∈ nodes (fs w) ∧ under target p = false) ∧
    exists_node (fs w') target = false ∧
    sessions w' = sessions w ∧
    trace w' = Rm target :: trace w.
Proof.
  unfold deleteSessionFolder. unfold_monad. cbv beta.
  destruct (realpath env (fs w) (Path.join _)) as [target|e1]; cbn; [|done].
  destruct (realpath env (fs w) (sessionFolderPath cfg)) as [root|e2]; cbn; [|done].
  destruct (startsWith target (root +:+ Path.sep)) eqn:Hnested; cbn; [|done].
  destruct (rm_fails env target) as [failure|]; cbn; [done|].
  intros [= <-]. exists target, root. cbn. split_and!; try done.
  - intros p. rewrite !list_elem_of_In, filter_In, negb_true_iff. done.
  - apply rm_recursive_force_gone.
Qed.

Lemma deleteSessionFolder_success_witness :
  ∃ target root,
    realpath Sample.healthy (fs Sample.boot)
      (Path.join [sessionFolderPath Sample.config; "session-" +:+ "alpha"])
      = Returned target ∧
    realpath Sample.healthy (fs Sample.boot) (sessionFolderPath Sample.config)
      = Returned root ∧
    startsWith target (root +:+ Path.sep) = true ∧
    (∀ p, p ∈ nodes (fs (snd (deleteSessionFolder Sample.healthy Sample.config
                                "alpha" Sample.boot)))
          ↔ p ∈ nodes (fs Sample.boot) ∧ under target p = false) ∧
    exists_node (fs (snd (deleteSessionFolder Sample.healthy Sample.config
                            "alpha" Sample.boot))) target = false ∧
    sessions (snd (deleteSessionFolder Sample.healthy Sample.config
                     "alpha" Sample.boot)) = sessions Sample.boot ∧
    trace (snd (deleteSessionFolder Sample.healthy Sample.config "alpha" Sample.boot))
      = Rm target :: trace Sample.boot.
Proof.
  apply (deleteSessionFolder_success Sample.healthy Sample.config "alpha" Sample.boot).
  vm_compute. reflexivity.
Defined.

Lemma deleteSessionFolder_stays_under_root_witness :
  ∃ root,
    realpath Sample.healthy (fs Sample.boot) (sessionFolderPath Sample.config)
      = Returned root ∧
    startsWith "/data/sessions/session-alpha/SingletonLock" (root +:+ Path.sep) = true.
Proof.
  apply (deleteSessionFolder_stays_under_root Sample.healthy Sample.config "alpha"
           Sample.boot "/data/sessions/session-alpha/SingletonLock").
  - vm_compute. listed.
  - vm_compute. intros Hin. in_trace Hin; discriminate.
Defined.

(** ** More on flushSessions *)

Lemma validateSession_absent (env : Env) (sid : string) (w : World) :
  sessions w !! sid = None →
  validateSession env sid w
  = (Returned (Validation.Build false None "session_not_found"), w).
Proof.
  intros Hreg. unfold validateSession. unfold_monad. cbv beta. by rewrite Hreg.
Qed.

Lemma flush_each_orphans (env : Env) (cfg : Config) (b : bool)
    (files : list string) (w : World) :
  (∀ file sid, file ∈ files → match_session_folder file = Some sid →
               sessions w !! sid = None) →
  flush_each env cfg b files w = (Returned tt, w).
Proof.
  induction files as [|file files IH]; intros Horphan; [done|].
  cbn [flush_each]. unfold bind at 1.
  assert (Hfile : flush_file env cfg b file w = (Returned tt, w)).
  { unfold flush_file.
    destruct (match_session_folder file) as [sid|] eqn:Hmatch; [|done].
    assert (Hreg : sessions w !! sid = None)
      by (apply (Horphan file sid); [by left|done]).
    unfold bind. rewrite (validateSession_absent env sid w Hreg). cbn.
    rewrite orb_true_r. by apply deleteSession_absent. }
  rewrite Hfile. apply IH. intros f sid Hin. apply Horphan. by right.
Qed.

(** When none of the enumerated session folders belongs to a registered id,
    the flush returns with the state exactly as it was: validation answers
    ['session_not_found'] and [deleteSession] returns before reaching the
    folder removal. *)
Lemma flushSessions_leaves_orphan_folders
    (env : Env) (cfg : Config) (deleteOnlyInactive : bool)
    (files : list string) (w : World) :
  readdir env (fs w) (sessionFolderPath cfg) = Returned files →
  (∀ file sid, file ∈ files → match_session_folder file = Some sid →
               sessions w !! sid = None) →
  flushSessions env cfg deleteOnlyInactive w = (Returned tt, w).
Proof.
  intros Hdir Horphan.
  unfold flushSessions. unfold try_catch, bind at 1 2, get_world. cbv beta.
  rewrite Hdir. cbn [lift ret]. by rewrite flush_each_orphans.
Qed.

Example flushSessions_on_a_fresh_process :
  flushSessions Sample.healthy Sample.config false Sample.boot
  = (Returned tt, Sample.boot).
Proof.
  apply (flushSessions_leaves_orphan_folders Sample.healthy Sample.config false
           ["session-alpha"; "session-beta"; "scratch"] Sample.boot).
  - reflexivity.
  - intros file sid _ _. reflexivity.
Defined.

(** The loop body of [flushSessions(true)] keeps a session that validates as
    live registered. *)
Lemma flush_file_keeps_live (env : Env) (cfg : Config) (sid : string) (h : nat)
    (v : Validation.t) (file : string) (w0 w : World) :
  sessions w0 !! sid = Some h →
  fst (validateSession env sid w0) = Returned v → Validation.success v = true →
  sessions w !! sid = Some h →
  sessions (snd (flush_file env cfg true file w)) !! sid = Some h.
Proof.
  intros Hreg0 Hlive Hsucc Hreg. unfold flush_file.
  destruct (match_session_folder file) as [sid'|]; [|done].
  unfold bind.
  pose proof (validateSession_observes env sid' w) as (_ & Hkeep & _).
  unfold keeps in Hkeep.
  assert (Hsame : fst (validateSession env sid w0) = fst (validateSession env sid w))
    by (apply validateSession_stable; by rewrite Hreg0, Hreg).
  destruct (validateSession env sid' w) as [[v'|e] w1] eqn:Hval; cbn in Hkeep;
    [|cbn; by rewrite Hkeep].
  destruct (decide (sid' = sid)) as [->|Hne].
  - rewrite Hval, Hlive in Hsame. cbn in Hsame. injection Hsame as <-.
    rewrite Hsucc. cbn. by rewrite Hkeep.
  - destruct (negb true || negb (Validation.success v')); cbn; [|by rewrite Hkeep].
    destruct (deleteSession_registry env cfg sid' v' w1) as ([-> | ->] & _).
    + by rewrite Hkeep.
    + rewrite lookup_delete_ne by done. by rewrite Hkeep.
Qed.

Lemma flush_each_keeps_live (env : Env) (cfg : Config) (sid : string) (h : nat)
    (v : Validation.t) (files : list string) (w0 w : World) :
  sessions w0 !! sid = Some h →
  fst (validateSession env sid w0) = Returned v → Validation.success v = true →
  sessions w !! sid = Some h →
  sessions (snd (flush_each env cfg true files w)) !! sid = Some h.
Proof.
  intros Hreg0 Hlive Hsucc. revert w.
  induction files as [|file files IH]; intros w Hreg; [done|].
  cbn [flush_each]. unfold bind.
  pose proof (flush_file_keeps_live env cfg sid h v file w0 w Hreg0 Hlive Hsucc Hreg)
    as Hstep.
  destruct (flush_file env cfg true file w) as [[[]|e] w1]; cbn in Hstep; [|done].
  by apply IH.
Qed.

(** X8. [flushSessions(true)] keeps live sessions: a registered session
    that [validateSession] reports as connected is still registered, with the
    same client, after the flush, whether the flush returns or throws. *)
Theorem flushSessions_inactive_only_keeps_live_sessions
    (env : Env) (cfg : Config) (sid : string) (h : nat) (v : Validation.t) (w : World) :
  sessions w !! sid = Some h →
  fst (validateSession env sid w) = Returned v → Validation.success v = true →
  sessions (snd (flushSessions env cfg true w)) !! sid = Some h.
Proof.
  intros Hreg Hlive Hsucc.
  unfold flushSessions. unfold try_catch, bind at 1 2, get_world. cbv beta.
  destruct (readdir env (fs w) (sessionFolderPath cfg)) as [files|e]; cbn [lift ret throw];
    [|done].
  pose proof (flush_each_keeps_live env cfg sid h v files w w Hreg Hlive Hsucc Hreg)
    as Hkept.
  by destruct (flush_each env cfg true files w) as [[[]|e] w1].
Qed.

Lemma flushSessions_inactive_only_keeps_live_sessions_witness :
  sessions (snd (flushSessions Sample.second_offline Sample.config true
                   Sample.two_sessions)) !! "alpha" = Some 0%nat.
Proof.
  apply (flushSessions_inactive_only_keeps_live_sessions Sample.second_offline
           Sample.config "alpha" 0%nat
           (Validation.Build true (Some "CONNECTED") "session_connected")
           Sample.two_sessions); reflexivity.
Defined.

(** In the same run the session that is not connected is removed. *)
Example flushSessions_inactive_only_removes_offline :
  sessions (snd (flushSessions Sample.second_offline Sample.config true
                   Sample.two_sessions)) !! "beta" = None.
Proof. vm_compute. reflexivity. Qed.


(** ** Folder names and session ids *)

Lemma substring_whole (s : string) : substring 0 (String.length s) s = s.
Proof. induction s as [|c s IH]; cbn; [done|by rewrite IH]. Qed.

Lemma prefix_split (p s : string) :
  String.prefix p s = true →
  s = p +:+ substring (String.length p) (String.length s - String.length p) s.
Proof.
  revert s. induction p as [|c p IH]; intros s Hpre.
  - cbn. by rewrite Nat.sub_0_r, substring_whole.
  - destruct s as [|d s]; [done|]. cbn in Hpre |- *.
    destruct (ascii_dec c d) as [->|]; [|done].
    change (String d s
            = String d (p +:+ substring (String.length p)
                                (String.length s - String.length p) s)).
    f_equal. by apply IH.
Qed.

Lemma append_cons (c : ascii) (p s : string) :
  String c p +:+ s = String c (p +:+ s).
Proof. reflexivity. Qed.

Lemma substring_after_prefix (p s : string) :
  substring (String.length p) (String.length (p +:+ s) - String.length p) (p +:+ s) = s.
Proof.
  induction p as [|c p IH].
  - change (EmptyString +:+ s) with s. cbn. by rewrite Nat.sub_0_r, substring_whole.
  - rewrite append_cons. cbn. exact IH.
Qed.

(** The folder pattern [/^session-(.+)$/] and the folder name
    [`session-${sessionId}`]: a name matches with capture [id] exactly when
    it is ["session-"] followed by [id], for [id] non-empty and free of line
    terminators. *)
Lemma match_session_folder_roundtrip (file id : string) :
  match_session_folder file = Some id ↔
  file = "session-" +:+ id ∧ id ≠ EmptyString ∧ has_line_terminator id = false.
Proof.
  unfold match_session_folder. split.
  - destruct (startsWith file "session-") eqn:Hpre; [|done].
    apply prefix_split in Hpre.
    destruct (String.eqb_spec
                (substring (String.length "session-")
                   (String.length file - String.length "session-") file)
                EmptyString) as [Hempty|Hfull]; [done|].
    destruct (has_line_terminator _) eqn:Hline; [done|].
    cbn [orb]. intros [= <-]. done.
  - intros (-> & Hfull & Hline).
    rewrite startsWith_append.
    rewrite substring_after_prefix.
    rewrite Hline. by destruct (String.eqb_spec id EmptyString).
Qed.

(** ** The registry invariant *)

(** The shape of the state [setupSession] leaves. *)
Lemma setupSession_shape (env : Env) (cfg : Config) (sid : string) (w : World) :
  ∃ r w',
    setupSession env cfg sid w = (Returned r, w') ∧
    (next_handle w ≤ next_handle w')%nat ∧
    (∀ h, is_Some (heap w !! h) → is_Some (heap w' !! h)) ∧
    ((SetupResult.success r = false ∧ sessions w' = sessions w) ∨
     (SetupResult.success r = true ∧ sessions w !! sid = None ∧
      sessions w' = <[sid := next_handle w]> (sessions w) ∧
      (next_handle w < next_handle w')%nat ∧
      is_Some (heap w' !! next_handle w) ∧
      SetupResult.client r = Some (next_handle w))).
Proof.
  unfold setupSession, new_Client, release_browser_lock, initializeEvents.
  unfold_monad.
  destruct (sessions w !! sid) as [existing|] eqn:Hreg; simpl.
  { eexists _, _. split_and!; [reflexivity|lia|done|by left]. }
  destruct (new_client env (clientOptions cfg sid)) as [e0|] eqn:Hnew; simpl.
  { eexists _, _. split_and!; [reflexivity|simpl; lia|done|by left]. }
  assert (Hgrow : ∀ (c : Client) h, is_Some (heap w !! h) →
                    is_Some (<[next_handle w := c]> (heap w) !! h)).
  { intros c h Hh. destruct (decide (next_handle w = h)) as [->|Hne].
    - rewrite lookup_insert_eq. eauto.
    - by rewrite lookup_insert_ne. }
  destruct (releaseBrowserLock cfg); simpl;
    [destruct (lstat_exists _ _); simpl;
       [destruct (unlink_fails env _) as [eu|] eqn:Hunlink; simpl|]|].
  all: try (destruct (initialize env (next_handle w)) as [e1|] eqn:Hinit; simpl;
            [|destruct (initWebSocketServer env sid) as [e2|] eqn:Hws; simpl;
              [|rewrite lookup_insert_eq; simpl]]).
  all: eexists _, _; split; [reflexivity|]; simpl.
  all: split; [lia|].
  all: split; [intros h Hh; rewrite ?insert_insert_eq; by apply Hgrow|].
  all: first [ left; split; reflexivity
             | right; split_and!; try done; try lia;
               rewrite lookup_insert_eq; eauto ].
Qed.

Global Instance shrinks_preorder : PreOrder shrinks.
Proof.
  split.
  - intros w. unfold shrinks. by split_and!.
  - intros w1 w2 w3 (Hn1 & Hh1 & Hs1) (Hn2 & Hh2 & Hs2). unfold shrinks. split_and!.
    + lia.
    + auto.
    + auto.
Qed.

Global Instance keeps_tidy_preorder : PreOrder keeps_tidy.
Proof.
  split; [intros w Hw; exact Hw|].
  intros w1 w2 w3 H1 H2 Hw. apply H2, H1, Hw.
Qed.

Lemma shrinks_keeps_tidy (w w' : World) : shrinks w w' → keeps_tidy w w'.
Proof.
  intros (Hn & Hh & Hs) (Hfresh & Hinj). split.
  - intros sid h Hreg. destruct (Hfresh sid h (Hs _ _ Hreg)) as [Hlt Hobj].
    split; [lia|auto].
  - intros sid1 sid2 h H1 H2. eauto.
Qed.

Lemma steps_shrinks_tidy {A} (m : M A) : steps shrinks m → steps keeps_tidy m.
Proof. intros Hm w. apply shrinks_keeps_tidy, Hm. Qed.

Lemma set_client_shrinks (h : nat) (c : Client) : steps shrinks (set_client h c).
Proof.
  intros w. unfold shrinks. cbn. split_and!; [done| |done].
  intros h' Hh'. destruct (decide (h = h')) as [->|Hne].
  - rewrite lookup_insert_eq. eauto.
  - by rewrite lookup_insert_ne.
Qed.

Lemma unregister_shrinks (sid : string) : steps shrinks (unregister sid).
Proof.
  intros w. unfold shrinks. cbn. split_and!; [done|done|].
  intros sid' h Hreg. by apply lookup_delete_Some in Hreg as [_ ?].
Qed.

(** A step that changes neither the registry, nor the heap, nor the
    allocation counter. *)
Lemma shrinks_still {A} (m : M A) :
  (∀ w, sessions (snd (m w)) = sessions w ∧ heap (snd (m w)) = heap w ∧
        next_handle (snd (m w)) = next_handle w) →
  steps shrinks m.
Proof.
  intros Hm w. destruct (Hm w) as (Hs & Hh & Hn).
  unfold shrinks. split_and!; [lia|by rewrite Hh|by rewrite Hs].
Qed.

(** Breaks [steps shrinks m] down along the structure of [m]. *)
Ltac shrinking :=
  repeat first
    [ assumption
    | apply unregister_shrinks
    | apply set_client_shrinks
    | apply steps_ret | apply steps_throw | apply steps_get_world | apply steps_lift
    | apply steps_bind; [|intros ?]
    | apply steps_try_catch; [|intros ?]
    | match goal with
      | |- steps _ (match ?x with _ => _ end) => destruct x
      | |- steps _ (call _ _) => unfold call
      | |- steps _ (call_value _ _) => unfold call_value
      | |- steps _ (log _ _ _ _) => unfold log
      | |- steps _ ?m =>
          let m' := eval hnf in m in
          lazymatch m' with
          | match _ with _ => _ end => change m with m'
          end
      | |- steps shrinks _ => apply shrinks_still; intros ?; by split_and!
      end
    | progress cbv zeta ].

Lemma validateSession_shrinks (env : Env) (sid : string) :
  steps shrinks (validateSession env sid).
Proof.
  apply shrinks_still. intros w.
  destruct (validateSession_observes env sid w) as (_ & Hs & Hh & _ & Hn).
  by split_and!.
Qed.

Lemma wait_disconnected_shrinks (env : Env) (h n : nat) :
  steps shrinks (wait_disconnected env h n).
Proof. induction n as [|n IH]; cbn [wait_disconnected]; shrinking. Qed.

Lemma deleteSession_shrinks (env : Env) (cfg : Config) (sid : string) (v : Validation.t) :
  steps shrinks (deleteSession env cfg sid v).
Proof.
  unfold deleteSession.
  apply steps_try_catch; [|intros; shrinking].
  apply steps_bind; [shrinking|]. intros w0.
  destruct (sessions w0 !! sid) as [h|]; [|shrinking].
  unfold disconnect_client.
  pose proof (wait_disconnected_shrinks env h 10).
  shrinking.
Qed.

Lemma flush_each_shrinks (env : Env) (cfg : Config) (b : bool) (files : list string) :
  steps shrinks (flush_each env cfg b files).
Proof.
  induction files as [|file files IH]; cbn [flush_each]; [shrinking|].
  apply steps_bind; [|intros; exact IH].
  unfold flush_file. destruct (match_session_folder file) as [sid|]; [|shrinking].
  apply steps_bind; [apply validateSession_shrinks|]. intros v.
  destruct (negb b || negb (Validation.success v)); [|shrinking].
  apply deleteSession_shrinks.
Qed.

Lemma flushSessions_shrinks (env : Env) (cfg : Config) (b : bool) :
  steps shrinks (flushSessions env cfg b).
Proof.
  unfold flushSessions.
  apply steps_try_catch; [|intros; shrinking].
  apply steps_bind; [shrinking|]. intros w0.
  apply steps_bind; [shrinking|]. intros files.
  apply flush_each_shrinks.
Qed.

Lemma wait_disconnected_if_browser_shrinks (env : Env) (browser : Browser) (h n : nat) :
  steps shrinks (wait_disconnected_if_browser env browser h n).
Proof. induction n as [|n IH]; cbn [wait_disconnected_if_browser]; shrinking. Qed.

Lemma destroySession_shrinks (env : Env) (browser : Browser) (sid : string) :
  steps shrinks (destroySession env browser sid).
Proof.
  unfold destroySession.
  apply steps_try_catch; [|intros; shrinking].
  apply steps_bind; [shrinking|]. intros w0.
  destruct (sessions w0 !! sid) as [h|]; [|shrinking].
  pose proof (wait_disconnected_if_browser_shrinks env browser h 10).
  shrinking.
Qed.

Lemma run_listeners_shrink (env : Env) (cfg : Config) (h : nat)
    (ls : list (string * Listener)) (event : string) (data : Payload) :
  steps shrinks (run_listeners env cfg h ls event data).
Proof.
  induction ls as [|[name l] ls IH]; cbn [run_listeners]; [shrinking|].
  apply steps_bind; [|intros; exact IH].
  destruct (String.eqb name event); [|shrinking].
  destruct l; cbn [run_listener]; unfold sinks, on_message, on_qr, sinks; shrinking.
Qed.

Lemma happen_shrinks (env : Env) (hp : Happening) : steps shrinks (happen env hp).
Proof.
  destruct hp as [cfg client event data|client sid]; cbn [happen].
  - unfold client_emit. apply steps_bind; [shrinking|]. intros w0.
    destruct (heap w0 !! client); [|shrinking]. apply run_listeners_shrink.
  - unfold qr_timeout. shrinking.
Qed.

(** X10. [setupSession] never replaces or removes a registered client: an
    entry present before the call, for the same or for another id, is present
    and unchanged after it. *)
Theorem setupSession_keeps_registered (env : Env) (cfg : Config)
    (sid other : string) (h : nat) (w : World) :
  sessions w !! other = Some h →
  sessions (snd (setupSession env cfg sid w)) !! other = Some h.
Proof.
  intros Hreg.
  destruct (setupSession_shape env cfg sid w)
    as (r & w' & Hrun & _ & _ & [[_ Hsame]|(_ & Hfree & Hnew & _)]);
    rewrite Hrun; cbn.
  - by rewrite Hsame.
  - rewrite Hnew, lookup_insert_ne; [done|]. intros ->. congruence.
Qed.

Lemma setupSession_keeps_registered_witness :
  sessions (snd (setupSession Sample.healthy Sample.config "alpha"
                   Sample.two_sessions)) !! "alpha" = Some 0%nat.
Proof.
  apply (setupSession_keeps_registered Sample.healthy Sample.config "alpha" "alpha"
           0%nat Sample.two_sessions).
  reflexivity.
Defined.

Lemma setupSession_keeps_tidy (env : Env) (cfg : Config) (sid : string) :
  steps keeps_tidy (setupSession env cfg sid).
Proof.
  intros w (Hfresh & Hinj).
  destruct (setupSession_shape env cfg sid w)
    as (r & w' & Hrun & Hn & Hh & [[_ Hsame]|(_ & Hfree & Hnew & Hlt & Hobj & _)]);
    rewrite Hrun; cbn.
  - split.
    + intros sid' h Hreg. rewrite Hsame in Hreg.
      destruct (Hfresh sid' h Hreg). split; [lia|auto].
    + intros sid1 sid2 h. rewrite Hsame. apply Hinj.
  - split.
    + intros sid' h. rewrite Hnew.
      destruct (decide (sid = sid')) as [->|Hne].
      * rewrite lookup_insert_eq. intros [= <-]. done.
      * rewrite lookup_insert_ne by done. intros Hreg.
        destruct (Hfresh sid' h Hreg). split; [lia|auto].
    + intros sid1 sid2 h. rewrite Hnew, !lookup_insert.
      repeat case_decide; subst; try done.
      * intros [= <-] Hreg. destruct (Hfresh sid2 _ Hreg). lia.
      * intros Hreg [= <-]. destruct (Hfresh sid1 _ Hreg). lia.
      * apply Hinj.
Qed.

Lemma restartSession_keeps_tidy (env : Env) (cfg : Config) (h : nat) (sid : string) :
  steps keeps_tidy (restartSession env cfg h sid).
Proof.
  unfold restartSession.
  apply steps_bind; [apply steps_shrinks_tidy, unregister_shrinks|]. intros _.
  apply steps_bind; [apply steps_shrinks_tidy; shrinking|]. intros _.
  apply steps_bind; [apply setupSession_keeps_tidy|]. intros _. apply steps_ret.
Qed.

Lemma reloadSession_keeps_tidy (env : Env) (browser : Browser) (cfg : Config)
    (sid : string) :
  steps keeps_tidy (reloadSession env browser cfg sid).
Proof.
  unfold reloadSession.
  apply steps_try_catch; [|intros; apply steps_shrinks_tidy; shrinking].
  apply steps_bind; [apply steps_get_world|]. intros w0.
  destruct (sessions w0 !! sid) as [h|]; [|apply steps_ret].
  apply steps_bind; [apply steps_shrinks_tidy; shrinking|]. intros _.
  apply steps_bind;
    [apply steps_shrinks_tidy; unfold close_gracefully, kill_process; shrinking|].
  intros _.
  apply steps_bind; [apply steps_shrinks_tidy, unregister_shrinks|]. intros _.
  apply steps_bind; [apply setupSession_keeps_tidy|]. intros _. apply steps_ret.
Qed.

Lemma restore_each_keeps_tidy (env : Env) (cfg : Config) (files : list string) :
  steps keeps_tidy (restore_each env cfg files).
Proof.
  induction files as [|file files IH]; cbn [restore_each]; [apply steps_ret|].
  apply steps_bind; [|intros; exact IH].
  unfold restore_file. destruct (match_session_folder file) as [sid|]; [|apply steps_ret].
  apply steps_bind; [apply steps_shrinks_tidy; shrinking|]. intros _.
  apply steps_bind; [apply setupSession_keeps_tidy|]. intros _. apply steps_ret.
Qed.

Lemma restoreSessions_keeps_tidy (env : Env) (cfg : Config) :
  steps keeps_tidy (restoreSessions env cfg).
Proof.
  unfold restoreSessions.
  apply steps_bind; [apply steps_shrinks_tidy; shrinking|]. intros scheduled.
  destruct scheduled; [|apply steps_ret].
  apply steps_bind; [apply steps_get_world|]. intros w0.
  unfold restore_callback.
  destruct (readdir env (fs w0) (sessionFolderPath cfg)); [|apply steps_throw].
  apply restore_each_keeps_tidy.
Qed.

Lemma serve_keeps_tidy (env : Env) (browser : Browser) (cfg : Config) (req : Request) :
  steps keeps_tidy (serve env browser cfg req).
Proof.
  destruct req; cbn [serve].
  - apply steps_bind; [apply setupSession_keeps_tidy|intros; apply steps_ret].
  - apply steps_bind;
      [apply steps_shrinks_tidy, validateSession_shrinks|intros; apply steps_ret].
  - apply steps_shrinks_tidy, deleteSession_shrinks.
  - apply steps_shrinks_tidy, destroySession_shrinks.
  - apply reloadSession_keeps_tidy.
  - apply steps_shrinks_tidy, flushSessions_shrinks.
  - apply restoreSessions_keeps_tidy.
  - unfold on_page_close.
    apply steps_bind; [apply steps_shrinks_tidy; shrinking|]. intros _.
    apply restartSession_keeps_tidy.
  - unfold on_page_error.
    apply steps_bind; [apply steps_shrinks_tidy; shrinking|]. intros _.
    apply restartSession_keeps_tidy.
  - apply steps_shrinks_tidy, happen_shrinks.
Qed.

(** X11. The registry stays tidy under everything the module does: after
    any series of requests (setup, validate, delete, destroy, reload, flush,
    restore), page crashes and client events, every registered handle is an
    allocated client object and no two ids share a client. *)
Theorem registry_stays_tidy (env : Env) (browser : Browser) (cfg : Config)
    (requests : list Request) (w : World) :
  tidy w → tidy (serve_all env browser cfg requests w).
Proof.
  revert w. induction requests as [|req requests IH]; intros w Hw; [done|].
  cbn [serve_all]. apply IH. by apply serve_keeps_tidy.
Qed.

(** ** destroySession *)

Lemma remove_recovery_listeners_idle (env : Env) (h : nat) :
  steps idle (remove_recovery_listeners env h).
Proof. unfold idle, remove_recovery_listeners. steps. Qed.

Lemma terminate_idle (env : Env) (sid : string) :
  steps idle
    (try_catch
       (call (TerminateWebSocketServer sid) (terminateWebSocketServer env sid))
       (fun error => log Err (Some sid) (Some error)
                       "Failed to terminate WebSocket server")).
Proof. unfold idle. steps. Qed.

Lemma wait_disconnected_if_browser_idle (env : Env) (browser : Browser) (h n : nat) :
  steps idle (wait_disconnected_if_browser env browser h n).
Proof.
  unfold idle. induction n as [|n IH]; cbn [wait_disconnected_if_browser]; steps.
Qed.

Lemma harmless_absent (t : list Effect) (e : Effect) :
  Forall harmless t → ¬ harmless e → e ∉ t.
Proof.
  intros Hall He Hin. rewrite Forall_forall in Hall. by apply He, Hall.
Qed.

(** X12. [destroySession] on an unregistered id returns at once and changes
    nothing.  On a registered id it calls [destroy()] on that client exactly
    once, never [logout()] and never the file system, and leaves the disk as
    it was; it unregisters the id when it returns, and when it throws the
    registry is unchanged.  When [destroy()] rejects, it throws that
    error. *)
Theorem destroySession_effect (env : Env) (browser : Browser) (sid : string) (w : World) :
  match sessions w !! sid with
  | None => destroySession env browser sid w = (Returned tt, w)
  | Some h =>
      ∃ r w' before after,
        destroySession env browser sid w = (r, w') ∧
        trace w' = (after ++ Destroy h :: before ++ trace w)%list ∧
        Forall harmless before ∧ Forall harmless after ∧
        fs w' = fs w ∧
        (r = Returned tt → sessions w' = delete sid (sessions w)) ∧
        (∀ e, r = Thrown e → sessions w' = sessions w) ∧
        (∀ e, destroy env h = Some e → r = Thrown e)
  end.
Proof.
  destruct (sessions w !! sid) as [h|] eqn:Hreg;
    [|unfold destroySession; unfold_monad; cbv beta; by rewrite Hreg].
  assert (Hbody : ∃ r w' before after,
            (remove_recovery_listeners env h ;;;
             try_catch
               (call (TerminateWebSocketServer sid) (terminateWebSocketServer env sid))
               (fun error => log Err (Some sid) (Some error)
                               "Failed to terminate WebSocket server") ;;;
             call (Destroy h) (destroy env h) ;;;
             wait_disconnected_if_browser env browser h 10 ;;;
             unregister sid) w = (r, w') ∧
            trace w' = (after ++ Destroy h :: before ++ trace w)%list ∧
            Forall harmless before ∧ Forall harmless after ∧
            fs w' = fs w ∧
            (r = Returned tt → sessions w' = delete sid (sessions w)) ∧
            (∀ e, r = Thrown e → sessions w' = sessions w) ∧
            (∀ e, destroy env h = Some e → r = Thrown e)).
  { pose proof (remove_recovery_listeners_idle env h w) as Hq0.
    pose proof (remove_recovery_listeners_returns env h w) as Hr0.
    unfold bind at 1.
    destruct (remove_recovery_listeners env h w) as [r0 w0]; simpl in Hq0, Hr0. subst r0.
    pose proof (terminate_idle env sid w0) as Hq1.
    pose proof (terminate_returns env sid w0) as Hr1.
    unfold bind at 1.
    destruct (try_catch _ _ w0) as [r1 w1]; simpl in Hq1, Hr1. subst r1.
    destruct Hq0 as ((t0 & Ht0 & Hf0) & Hs0 & Hfs0).
    destruct Hq1 as ((t1 & Ht1 & Hf1) & Hs1 & Hfs1).
    unfold keeps in *.
    assert (Hpre : trace w1 = ((t1 ++ t0) ++ trace w)%list)
      by (by rewrite Ht1, Ht0, app_assoc).
    assert (Hfpre : Forall harmless (t1 ++ t0)) by (by apply Forall_app).
    unfold bind at 1. unfold call at 1. unfold bind at 1, tell at 1.
    destruct (destroy env h) as [err|] eqn:Hdestroy; cbn [ret throw].
    - eexists (Thrown err), _, (t1 ++ t0)%list, []. split; [reflexivity|]. cbn.
      rewrite Hpre. split_and!; try done; try congruence; try (by intros ? [= <-]).
    - unfold bind at 1.
      match goal with
      | |- context [wait_disconnected_if_browser ?e ?b ?c 10 ?w2] =>
          pose proof (wait_disconnected_if_browser_idle e b c 10 w2) as Hq2;
          destruct (wait_disconnected_if_browser e b c 10 w2) as [[[]|err] w3]
      end;
      destruct Hq2 as ((t2 & Ht2 & Hf2) & Hs2 & Hfs2); unfold keeps in *;
      cbn in Ht2, Hs2, Hfs2 |- *.
      + eexists (Returned tt), _, (t1 ++ t0)%list, t2. split; [reflexivity|]. cbn.
        rewrite Ht2, Hpre. split_and!; try done; try congruence.
      + eexists (Thrown err), _, (t1 ++ t0)%list, t2. split; [reflexivity|].
        rewrite Ht2, Hpre. split_and!; try done; congruence. }
  destruct Hbody as (r & w' & before & after & Hrun & Htr & Hb & Ha & Hfs & Hret & Hthr & Hdes).
  unfold destroySession. unfold try_catch at 1. unfold bind at 1, get_world. cbv beta.
  rewrite Hreg, Hrun. destruct r as [[]|err].
  - exists (Returned tt), w', before, after. by split_and!.
  - eexists (Thrown err), _, before,
      (Log Err (Some sid) (Some err) "Failed to stop session" :: after).
    split; [reflexivity|]. cbn. rewrite Htr.
    split_and!; try done; try (by constructor); try (intros _; by apply (Hthr err)).
Qed.

(** ** setupSession, the recovery hooks and reloadSession *)

Lemma setupSession_adds (env : Env) (cfg : Config) (sid : string) :
  steps (adds keeps_credentials) (setupSession env cfg sid).
Proof.
  unfold setupSession, new_Client, release_browser_lock, initializeEvents. steps.
Qed.

(** What [setupSession] does to the disk. *)
Lemma setupSession_disk (env : Env) (cfg : Config) (sid : string) (w : World) :
  fs (snd (setupSession env cfg sid w)) = fs w ∨
  (releaseBrowserLock cfg = true ∧
   fs (snd (setupSession env cfg sid w))
   = unlink (fs w) (singletonLockPath env cfg sid)).
Proof.
  unfold setupSession, new_Client, release_browser_lock, initializeEvents,
    singletonLockPath.
  unfold_monad.
  destruct (sessions w !! sid) as [existing|]; simpl; [by left|].
  destruct (new_client env (clientOptions cfg sid)) as [e0|]; simpl; [by left|].
  destruct (releaseBrowserLock cfg); simpl;
    [destruct (lstat_exists _ _); simpl;
       [destruct (unlink_fails env _) as [eu|]; simpl|]|].
  all: try (destruct (initialize env (next_handle w)) as [e1|]; simpl;
            [|destruct (initWebSocketServer env sid) as [e2|]; simpl;
              [|rewrite lookup_insert_eq; simpl]]).
  all: first [by left | by right].
Qed.

Lemma unlink_removes (f : FileSystem) (lock p : string) :
  p ∈ nodes f → p ∉ nodes (unlink f lock) → p = lock.
Proof.
  intros Hin Hout. destruct (String.eqb_spec p lock) as [->|Hne]; [done|].
  exfalso. apply Hout. cbn. apply list_elem_of_In, filter_In.
  split; [by apply list_elem_of_In|]. by apply negb_true_iff, String.eqb_neq.
Qed.

(** X13. The only entry [setupSession] ever removes from the disk is the
    [SingletonLock] of the session's own folder, and only when
    [releaseBrowserLock] is set. *)
Theorem setupSession_removes_only_the_lock (env : Env) (cfg : Config)
    (sid : string) (w : World) (p : string) :
  p ∈ nodes (fs w) → p ∉ nodes (fs (snd (setupSession env cfg sid w))) →
  releaseBrowserLock cfg = true ∧ p = singletonLockPath env cfg sid.
Proof.
  intros Hin Hout. destruct (setupSession_disk env cfg sid w) as [Hsame|[Hflag Hunlink]].
  - by rewrite Hsame in Hout.
  - split; [done|]. rewrite Hunlink in Hout. by eapply unlink_removes.
Qed.

Lemma setupSession_removes_only_the_lock_witness :
  releaseBrowserLock Sample.config = true ∧
  "/data/sessions/session-alpha/SingletonLock"
  = singletonLockPath Sample.healthy Sample.config "alpha".
Proof.
  apply (setupSession_removes_only_the_lock Sample.healthy Sample.config "alpha"
           Sample.boot "/data/sessions/session-alpha/SingletonLock").
  - vm_compute. listed.
  - vm_compute. intros Hin. in_trace Hin; discriminate.
Defined.

(** X14. [restartSession], the recovery of a crashed page, never throws: it
    first calls [destroy()] on the old client, once, swallowing its error;
    what follows calls neither [logout()], nor [destroy()], nor [rm]; the id
    ends up either unregistered or registered to a newly allocated client,
    and the other sessions keep their entries. *)
Theorem restartSession_effect (env : Env) (cfg : Config) (client : nat)
    (sid : string) (w : World) :
  ∃ w' t,
    restartSession env cfg client sid w = (Returned tt, w') ∧
    trace w' = (t ++ Destroy client :: trace w)%list ∧
    Forall keeps_credentials t ∧
    renewed sid w w'.
Proof.
  pose (w1 := {| sessions := delete sid (sessions w); heap := heap w;
                 next_handle := next_handle w; fs := fs w;
                 trace := Destroy client :: trace w |}).
  assert (Hrun1 : restartSession env cfg client sid w
                  = (_ <- setupSession env cfg sid ;; ret tt) w1).
  { unfold restartSession, unregister, try_catch, call, tell.
    unfold bind, get_world, set_sessions, throw, ret.
    by destruct (destroy env client). }
  rewrite Hrun1. unfold bind at 1.
  destruct (setupSession_shape env cfg sid w1) as (r & w' & Hrun & _ & _ & Hreg).
  destruct (setupSession_adds env cfg sid w1) as (t & Ht & Hf).
  rewrite Hrun in Ht |- *. cbn in Ht |- *.
  exists w', t. split_and!; [done|exact Ht|exact Hf|].
  destruct Hreg as [[_ Hsame]|(_ & _ & Hnew & _)]; [by left|by right].
Qed.

Lemma remove_recovery_listeners_calm (env : Env) (h : nat) :
  steps calm (remove_recovery_listeners env h).
Proof. unfold calm, remove_recovery_listeners. steps. Qed.

Lemma close_or_kill_calm (browser : Browser) (h : nat) :
  steps calm (try_catch (close_gracefully browser h) (fun _ => kill_process browser h)).
Proof. unfold calm, close_gracefully, kill_process. steps. Qed.

Lemma close_or_kill_outcome (browser : Browser) (h : nat) (w : World) :
  fst (try_catch (close_gracefully browser h) (fun _ => kill_process browser h) w)
  = if pupBrowser_defined browser h then Returned tt
    else Thrown (type_error_reading "process").
Proof.
  unfold close_gracefully, kill_process. unfold_monad.
  destruct (pupBrowser_defined browser h); [|done].
  destruct (close_pages browser h); cbn;
    [|destruct (close_browser browser h); cbn];
    by destruct (browser_process browser h).
Qed.

(** X15. [reloadSession] on an unregistered id returns at once and changes
    nothing.  On a registered id it never calls [logout()], [destroy()] or
    [rm]; with a browser attached it returns normally, whatever the browser
    and the new setup answer, leaving the id unregistered or registered to a
    newly allocated client; with [client.pupBrowser] unset it throws the
    [TypeError] of the inner [catch] and keeps the registry and the disk. *)
Theorem reloadSession_effect (env : Env) (browser : Browser) (cfg : Config)
    (sid : string) (w : World) :
  match sessions w !! sid with
  | None => reloadSession env browser cfg sid w = (Returned tt, w)
  | Some h =>
      ∃ w' t,
        trace w' = (t ++ trace w)%list ∧ Forall keeps_credentials t ∧
        if pupBrowser_defined browser h then
          reloadSession env browser cfg sid w = (Returned tt, w') ∧
          renewed sid w w'
        else
          reloadSession env browser cfg sid w
          = (Thrown (type_error_reading "process"), w') ∧
          sessions w' = sessions w ∧ fs w' = fs w
  end.
Proof.
  destruct (sessions w !! sid) as [h|] eqn:Hreg;
    [|unfold reloadSession; unfold_monad; cbv beta; by rewrite Hreg].
  pose proof (remove_recovery_listeners_calm env h w) as Hq0.
  pose proof (remove_recovery_listeners_returns env h w) as Hr0.
  assert (Hrun0 : reloadSession env browser cfg sid w
                  = try_catch
                      (remove_recovery_listeners env h ;;;
                       try_catch (close_gracefully browser h)
                         (fun _ => kill_process browser h) ;;;
                       unregister sid ;;;
                       _ <- setupSession env cfg sid ;;
                       ret tt)
                      (fun error =>
                         log Err (Some sid) (Some error) "Failed to reload session" ;;;
                         throw error) w).
  { unfold reloadSession. unfold try_catch at 1 3. unfold bind at 1, get_world.
    cbv beta. by rewrite Hreg. }
  rewrite Hrun0. clear Hrun0.
  pose proof (close_or_kill_outcome browser h) as Hr1.
  destruct (pupBrowser_defined browser h).
  all: unfold try_catch at 1; unfold bind at 1.
  all: destruct (remove_recovery_listeners env h w) as [r0 w0]; simpl in Hq0, Hr0; subst r0.
  all: pose proof (close_or_kill_calm browser h w0) as Hq1; specialize (Hr1 w0).
  all: unfold bind at 1.
  all: destruct (try_catch _ _ w0) as [r1 w1]; simpl in Hq1, Hr1; subst r1.
  all: destruct Hq0 as ((t0 & Ht0 & Hf0) & Hs0 & Hfs0 & Hn0).
  all: destruct Hq1 as ((t1 & Ht1 & Hf1) & Hs1 & Hfs1 & Hn1).
  all: unfold keeps in *.
  - unfold unregister. unfold bind at 1 2, get_world, set_sessions. cbv beta.
    set (w2 := {| sessions := delete sid (sessions w1); heap := heap w1;
                  next_handle := next_handle w1; fs := fs w1; trace := trace w1 |}).
    destruct (setupSession_shape env cfg sid w2) as (r & w' & Hrun & _ & _ & Hnew).
    destruct (setupSession_adds env cfg sid w2) as (t & Ht & Hf).
    unfold bind at 1. rewrite Hrun in Ht |- *. subst w2. cbn in Ht, Hnew |- *.
    exists w', (t ++ t1 ++ t0)%list. split_and!.
    + by rewrite Ht, Ht1, Ht0, !app_assoc.
    + by rewrite !Forall_app.
    + done.
    + unfold renewed. rewrite Hs1, Hs0, Hn1, Hn0 in Hnew.
      destruct Hnew as [[_ Hsame]|(_ & _ & Hins & _)]; [by left|by right].
  - eexists _, (Log Err (Some sid) (Some (type_error_reading "process"))
                  "Failed to reload session" :: t1 ++ t0)%list.
    split_and!. 3: reflexivity. all: cbn.
    + by rewrite Ht1, Ht0, !app_assoc.
    + constructor; [done|]. by rewrite Forall_app.
    + by rewrite Hs1.
    + by rewrite Hfs1.
Qed.

Lemma setupSession_initialize_rejects (env : Env) (cfg : Config) (sid : string)
    (w : World) (e : Error) :
  initialize env (next_handle w) = Some e →
  sessions (snd (setupSession env cfg sid w)) = sessions w.
Proof.
  intros Hinit.
  unfold setupSession, new_Client, release_browser_lock, initializeEvents.
  unfold_monad.
  destruct (sessions w !! sid) as [existing|]; simpl; [done|].
  destruct (new_client env (clientOptions cfg sid)) as [e0|]; simpl; [done|].
  destruct (releaseBrowserLock cfg); simpl;
    [destruct (lstat_exists _ _); simpl;
       [destruct (unlink_fails env _) as [eu|]; simpl; [done|]|]|];
    by rewrite Hinit.
Qed.

(** X16. When the browser of the replacement client fails to start,
    [reloadSession] still returns normally, and the session is no longer
    registered: the failure of the new setup is not reported to the
    caller. *)
Theorem reloadSession_may_lose_the_session (env : Env) (browser : Browser)
    (cfg : Config) (sid : string) (w : World) (h : nat) (e : Error) :
  sessions w !! sid = Some h →
  pupBrowser_defined browser h = true →
  initialize env (next_handle w) = Some e →
  fst (reloadSession env browser cfg sid w) = Returned tt ∧
  sessions (snd (reloadSession env browser cfg sid w)) !! sid = None.
Proof.
  intros Hreg Hdef Hinit.
  assert (Hrun0 : reloadSession env browser cfg sid w
                  = try_catch
                      (remove_recovery_listeners env h ;;;
                       try_catch (close_gracefully browser h)
                         (fun _ => kill_process browser h) ;;;
                       unregister sid ;;;
                       _ <- setupSession env cfg sid ;;
                       ret tt)
                      (fun error =>
                         log Err (Some sid) (Some error) "Failed to reload session" ;;;
                         throw error) w).
  { unfold reloadSession. unfold try_catch at 1 3. unfold bind at 1, get_world.
    cbv beta. by rewrite Hreg. }
  rewrite Hrun0. clear Hrun0.
  pose proof (remove_recovery_listeners_calm env h w) as Hq0.
  pose proof (remove_recovery_listeners_returns env h w) as Hr0.
  unfold try_catch at 1 3. unfold bind at 1 6.
  destruct (remove_recovery_listeners env h w) as [r0 w0]; simpl in Hq0, Hr0. subst r0.
  pose proof (close_or_kill_calm browser h w0) as Hq1.
  pose proof (close_or_kill_outcome browser h w0) as Hr1.
  rewrite Hdef in Hr1.
  unfold bind at 1 5.
  destruct (try_catch _ _ w0) as [r1 w1]; simpl in Hq1, Hr1. subst r1.
  destruct Hq0 as (_ & Hs0 & Hfs0 & Hn0).
  destruct Hq1 as (_ & Hs1 & Hfs1 & Hn1).
  unfold keeps in *.
  unfold unregister. unfold bind, get_world, set_sessions. cbv beta.
  set (w2 := {| sessions := delete sid (sessions w1); heap := heap w1;
                next_handle := next_handle w1; fs := fs w1; trace := trace w1 |}).
  destruct (setupSession_shape env cfg sid w2) as (r & w' & Hrun & _).
  assert (Hnext : initialize env (next_handle w2) = Some e)
    by (subst w2; cbn; by rewrite Hn1, Hn0).
  pose proof (setupSession_initialize_rejects env cfg sid w2 e Hnext) as Hkept.
  rewrite Hrun in Hkept |- *. cbn in Hkept |- *.
  split; [done|]. rewrite Hkept. apply lookup_delete_eq.
Qed.

Lemma reloadSession_may_lose_the_session_witness :
  fst (reloadSession relaunch_fails attached_browser Sample.config "alpha" alpha_running)
  = Returned tt ∧
  sessions (snd (reloadSession relaunch_fails attached_browser Sample.config "alpha"
                   alpha_running)) !! "alpha" = None.
Proof.
  apply (reloadSession_may_lose_the_session _ _ _ _ _ 0%nat
           (MkError "Failed to launch the browser process"));
    by vm_compute.
Defined.

Lemma registry_stays_tidy_witness :
  tidy (serve_all Sample.healthy attached_browser Sample.config
          [ReqSetup "alpha"; ReqSetup "beta"; ReqReload "alpha";
           ReqPageClose 1 "beta"; ReqDestroy "alpha"; ReqFlush false]
          Sample.boot).
Proof.
  apply (registry_stays_tidy Sample.healthy attached_browser Sample.config).
  split; intros *; cbn; by rewrite lookup_empty.
Defined.

(** ** restoreSessions *)

Lemma restoreSessions_listing (env : Env) (cfg : Config) (w : World)
    (names : list string) :
  readdir env (fs w) (sessionFolderPath cfg) = Returned names →
  restoreSessions env cfg w = restore_each env cfg names w.
Proof.
  intros Hdir. unfold restoreSessions.
  assert (Hexists : existsSync env (fs w) (sessionFolderPath cfg) = true).
  { unfold existsSync. unfold readdir in Hdir.
    by destruct (realpath env (fs w) (sessionFolderPath cfg)). }
  unfold try_catch, bind, get_world, ret. rewrite Hexists. cbn.
  by rewrite Hdir.
Qed.

Lemma restore_file_returns (env : Env) (cfg : Config) (file : string) (w : World) :
  fst (restore_file env cfg file w) = Returned tt.
Proof.
  unfold restore_file. destruct (match_session_folder file) as [sid|]; [|done].
  unfold log, tell. unfold bind at 1 2.
  match goal with
  | |- context [setupSession env cfg sid ?w1] =>
      destruct (setupSession_shape env cfg sid w1) as (r & w' & -> & _)
  end.
  done.
Qed.

Lemma restore_each_returns (env : Env) (cfg : Config) (names : list string) (w : World) :
  fst (restore_each env cfg names w) = Returned tt.
Proof.
  revert w. induction names as [|file names IH]; intros w; [done|].
  cbn [restore_each]. unfold bind.
  pose proof (restore_file_returns env cfg file w) as Hfile.
  destruct (restore_file env cfg file w) as [r w1]. cbn in Hfile. subst r.
  apply IH.
Qed.

(** What one round of the loop does to the registry. *)
Lemma restore_file_registry (env : Env) (cfg : Config) (file : string) (w : World) :
  ∃ w', restore_file env cfg file w = (Returned tt, w') ∧
        (next_handle w ≤ next_handle w')%nat ∧
        (sessions w' = sessions w ∨
         ∃ sid, match_session_folder file = Some sid ∧ sessions w !! sid = None ∧
                sessions w' = <[sid := next_handle w]> (sessions w)).
Proof.
  unfold restore_file. destruct (match_session_folder file) as [sid|];
    [|exists w; split_and!; [done|lia|by left]].
  unfold log, tell. unfold bind at 1 2.
  match goal with
  | |- context [setupSession env cfg sid ?w1] =>
      destruct (setupSession_shape env cfg sid w1)
        as (r & w' & -> & Hnext & _ & [[_ Hsame]|(_ & Hnone & Hnew & _)])
  end; cbn in *; exists w'.
  - split_and!; [done|done|by left].
  - split_and!; [done|done|]. right. by exists sid.
Qed.

Lemma restore_file_registers (env : Env) (cfg : Config) (file sid : string) (w : World) :
  cooperative env → match_session_folder file = Some sid →
  is_Some (sessions (snd (restore_file env cfg file w)) !! sid).
Proof.
  intros (Hnew & Hunlink & Hinit & Hws) Hmatch. unfold restore_file. rewrite Hmatch.
  unfold log, tell. unfold bind at 1 2.
  unfold setupSession, new_Client, release_browser_lock, initializeEvents.
  unfold_monad. cbn.
  destruct (sessions w !! sid) as [existing|] eqn:Hreg; cbn; [by rewrite Hreg|].
  rewrite Hnew; cbn.
  destruct (releaseBrowserLock cfg); cbn;
    [destruct (lstat_exists _ _); cbn; [rewrite Hunlink; cbn|]|];
    rewrite Hinit; cbn; rewrite Hws; cbn; rewrite lookup_insert_eq; cbn;
    rewrite lookup_insert_eq; eauto.
Qed.

Lemma restore_each_registry (env : Env) (cfg : Config) (names : list string) (w : World) :
  (∀ sid h, sessions w !! sid = Some h →
            sessions (snd (restore_each env cfg names w)) !! sid = Some h) ∧
  (∀ sid h, sessions (snd (restore_each env cfg names w)) !! sid = Some h →
            sessions w !! sid = Some h ∨
            ((next_handle w ≤ h)%nat ∧
             ∃ file, file ∈ names ∧ match_session_folder file = Some sid)).
Proof.
  revert w. induction names as [|file names IH]; intros w.
  { split; [done|]. intros sid h Hreg. by left. }
  cbn [restore_each]. unfold bind.
  destruct (restore_file_registry env cfg file w) as (w1 & -> & Hnext & Hfile).
  destruct (IH w1) as [Hkeep Horigin]. split.
  - intros sid h Hreg. apply Hkeep.
    destruct Hfile as [->|(sid' & _ & Hnone & ->)]; [done|].
    rewrite lookup_insert_ne; [done|]. intros ->. congruence.
  - intros sid h Hreg. apply Horigin in Hreg as [Hreg|(Hh & file' & Hin & Hmatch)].
    + destruct Hfile as [Hsame|(sid' & Hmatch & Hnone & Hnew)]; [left; by rewrite <- Hsame|].
      rewrite Hnew in Hreg. destruct (decide (sid' = sid)) as [->|Hne].
      * rewrite lookup_insert_eq in Hreg. injection Hreg as <-.
        right. split; [done|]. exists file. split; [by left|done].
      * rewrite lookup_insert_ne in Hreg by done. by left.
    + right. split; [lia|]. exists file'. split; [by right|done].
Qed.

Lemma restore_each_registers (env : Env) (cfg : Config) (names : list string)
    (file sid : string) (w : World) :
  cooperative env → file ∈ names → match_session_folder file = Some sid →
  is_Some (sessions (snd (restore_each env cfg names w)) !! sid).
Proof.
  intros Hco Hin Hmatch. revert w.
  induction names as [|file' names IH]; intros w; [by apply elem_of_nil in Hin|].
  cbn [restore_each]. unfold bind.
  pose proof (restore_file_returns env cfg file' w) as Hret.
  pose proof (restore_file_registers env cfg file' sid w Hco) as Hreg.
  destruct (restore_file env cfg file' w) as [r w1]. cbn in Hret, Hreg. subst r.
  apply elem_of_cons in Hin as [<-|Hin].
  - destruct (Hreg Hmatch) as [h Hh].
    exists h. by apply (restore_each_registry env cfg names w1).
  - by apply IH.
Qed.

(** X17. When the session folder can be listed, [restoreSessions] returns
    normally, keeps every session that was registered, and registers new
    sessions only for entries of the folder named [session-<id>]: an id
    registered afterwards was registered before or is the id of such an
    entry, bound to a client allocated during the run. *)
Theorem restoreSessions_restores_only_folders (env : Env) (cfg : Config)
    (w : World) (names : list string) :
  readdir env (fs w) (sessionFolderPath cfg) = Returned names →
  fst (restoreSessions env cfg w) = Returned tt ∧
  (∀ sid h, sessions w !! sid = Some h →
            sessions (snd (restoreSessions env cfg w)) !! sid = Some h) ∧
  (∀ sid h, sessions (snd (restoreSessions env cfg w)) !! sid = Some h →
            sessions w !! sid = Some h ∨
            ((next_handle w ≤ h)%nat ∧
             ∃ file, file ∈ names ∧ match_session_folder file = Some sid)).
Proof.
  intros Hdir. rewrite (restoreSessions_listing env cfg w names Hdir).
  split; [apply restore_each_returns|apply restore_each_registry].
Qed.

(** X18. With collaborators that accept every client, remove every stale
    browser lock and complete every start, [restoreSessions] leaves a
    session registered for each entry of the session folder named
    [session-<id>], for [id] non-empty and free of line terminators. *)
Theorem restoreSessions_restores_every_folder (env : Env) (cfg : Config)
    (w : World) (names : list string) (file sid : string) :
  cooperative env →
  readdir env (fs w) (sessionFolderPath cfg) = Returned names →
  file ∈ names → match_session_folder file = Some sid →
  is_Some (sessions (snd (restoreSessions env cfg w)) !! sid).
Proof.
  intros Hco Hdir Hin Hmatch. rewrite (restoreSessions_listing env cfg w names Hdir).
  by eapply restore_each_registers.
Qed.

Lemma restoreSessions_restores_only_folders_witness :
  fst (restoreSessions Sample.healthy Sample.config Sample.boot) = Returned tt ∧
  sessions (snd (restoreSessions Sample.healthy Sample.config Sample.boot)) !! "scratch"
  = None.
Proof.
  destruct (restoreSessions_restores_only_folders Sample.healthy Sample.config
              Sample.boot ["session-alpha"; "session-beta"; "scratch"])
    as (Hret & _ & Horigin); [by vm_compute|].
  split; [exact Hret|].
  destruct (sessions (snd (restoreSessions Sample.healthy Sample.config Sample.boot))
              !! "scratch") as [h|] eqn:Hreg; [|reflexivity].
  destruct (Horigin "scratch" h Hreg) as [Hold|(_ & file & Hin & Hmatch)].
  - unfold Sample.boot in Hold. cbn [sessions] in Hold. by rewrite lookup_empty in Hold.
  - in_trace Hin; subst file; by vm_compute in Hmatch.
Defined.

Lemma restoreSessions_restores_every_folder_witness :
  is_Some (sessions (snd (restoreSessions Sample.healthy Sample.config Sample.boot))
             !! "beta").
Proof.
  apply (restoreSessions_restores_every_folder Sample.healthy Sample.config Sample.boot
           ["session-alpha"; "session-beta"; "scratch"] "session-beta" "beta").
  - by split_and!.
  - by vm_compute.
  - listed.
  - by vm_compute.
Defined.

(** ** decodeBase64 *)

Lemma substring_empty (i n : nat) : substring i n EmptyString = EmptyString.
Proof. by destruct i, n. Qed.

Lemma substring_none (s : string) (i : nat) : substring i 0 s = EmptyString.
Proof.
  revert i. induction s as [|c s IH]; intros i; [apply substring_empty|].
  destruct i as [|i]; [done|]. exact (IH i).
Qed.

Lemma substring_split (s : string) (i n m : nat) :
  substring i n s +:+ substring (i + n) m s = substring i (n + m) s.
Proof.
  revert i n. induction s as [|c s IH]; intros i n.
  { by rewrite !substring_empty. }
  destruct i as [|i]; [|exact (IH i n)].
  destruct n as [|n]; [done|].
  cbn [substring Nat.add]. rewrite append_cons.
  f_equal. exact (IH 0%nat n).
Qed.

Lemma substring_length (s : string) (i n : nat) :
  String.length (substring i n s) = Nat.min n (String.length s - i).
Proof.
  revert i n. induction s as [|c s IH]; intros i n.
  { rewrite substring_empty. cbn. lia. }
  destruct i as [|i]; [|exact (IH i n)].
  destruct n as [|n]; [done|].
  cbn [substring String.length Nat.sub]. rewrite (IH 0%nat n). lia.
Qed.

Lemma substring_clip (s : string) (i n : nat) :
  (String.length s - i ≤ n)%nat →
  substring i n s = substring i (String.length s - i) s.
Proof.
  revert i n. induction s as [|c s IH]; intros i n Hn.
  { by rewrite !substring_empty. }
  destruct i as [|i]; [|exact (IH i n Hn)].
  cbn [String.length Nat.sub] in *. destruct n as [|n]; [lia|].
  cbn [substring]. f_equal. rewrite (IH 0%nat n) by lia. f_equal. lia.
Qed.

Lemma append_empty_r (s : string) : s +:+ EmptyString = s.
Proof. induction s as [|c s IH]; [done|]. by rewrite append_cons, IH. Qed.

(** The pieces [chunks_from] cuts, put together again, given enough rounds
    to reach the end. *)
Lemma chunks_from_concat (rounds : nat) (s : string) (i : nat) :
  (String.length s - i ≤ rounds)%nat →
  foldr String.append EmptyString (chunks_from rounds s i)
  = substring i (String.length s - i) s.
Proof.
  revert i. induction rounds as [|rounds IH]; intros i Hfuel.
  { replace (String.length s - i)%nat with 0%nat by lia. by rewrite substring_none. }
  cbn [chunks_from]. destruct (Nat.ltb_spec i (String.length s)) as [Hlt|Hge].
  - cbn [foldr]. rewrite IH by (unfold chunkSize; lia). unfold slice_chunk.
    destruct (Nat.le_gt_cases chunkSize (String.length s - i)) as [Hle|Hgt].
    + rewrite substring_split. f_equal. lia.
    + replace (String.length s - (i + chunkSize))%nat with 0%nat by lia.
      rewrite substring_none, append_empty_r. apply substring_clip. lia.
  - replace (String.length s - i)%nat with 0%nat by lia. by rewrite substring_none.
Qed.

Lemma chunks_from_sized (rounds : nat) (s : string) (i : nat) :
  Forall chunk_sized (chunks_from rounds s i).
Proof.
  revert i. induction rounds as [|rounds IH]; intros i; [constructor|].
  cbn [chunks_from]. destruct (Nat.ltb_spec i (String.length s)) as [Hlt|Hge];
    [|constructor].
  constructor; [|apply IH].
  unfold chunk_sized, slice_chunk. rewrite substring_length. unfold chunkSize. lia.
Qed.

Lemma chunks_from_count (rounds : nat) (s : string) (i : nat) :
  (String.length s - i ≤ rounds)%nat →
  (String.length s - i ≤ length (chunks_from rounds s i) * chunkSize
   < String.length s - i + chunkSize)%nat.
Proof.
  revert i. induction rounds as [|rounds IH]; intros i Hfuel.
  { cbn. unfold chunkSize. lia. }
  cbn [chunks_from]. destruct (Nat.ltb_spec i (String.length s)) as [Hlt|Hge].
  - cbn [length]. specialize (IH (i + chunkSize)%nat).
    unfold chunkSize in *. lia.
  - cbn [length]. unfold chunkSize. lia.
Qed.

(** X19. [decodeBase64] decodes the input piece by piece: the pieces, in
    order, make up the input again, each has between 1 and 1024 characters,
    and their number is the length of the input divided by 1024, rounded up
    (none for the empty string). *)
Theorem decodeBase64_chunks {B} (decode : string → B) (base64String : string) :
  ∃ chunks,
    decodeBase64 decode base64String = map decode chunks ∧
    foldr String.append EmptyString chunks = base64String ∧
    Forall chunk_sized chunks ∧
    (String.length base64String ≤ length chunks * chunkSize
     < String.length base64String + chunkSize)%nat.
Proof.
  exists (chunks_from (String.length base64String) base64String 0).
  split; [|split; [|split]].
  - reflexivity.
  - rewrite chunks_from_concat by lia. rewrite Nat.sub_0_r. apply substring_whole.
  - apply chunks_from_sized.
  - pose proof (chunks_from_count (String.length base64String) base64String 0) as Hcount.
    rewrite Nat.sub_0_r in Hcount. apply Hcount. lia.
Qed.

(** ** The listeners of a bound client *)










Lemma sinks_keep_heap (url sid dataType : string) (data : Payload) :
  steps (keeps heap) (sinks url sid dataType data).
Proof. unfold sinks. steps. Qed.

Lemma on_message_keeps_heap (env : Env) (cfg : Config) (url sid : string) (m : Message) :
  steps (keeps heap) (on_message env cfg url sid m).
Proof. unfold on_message, media_settled, sinks. steps. Qed.

(** Listeners other than the QR listener leave the client objects alone. *)
Lemma run_listeners_keep_heap (env : Env) (cfg : Config) (h : nat)
    (ls : list (string * Listener)) (event : string) (data : Payload) :
  (∀ url sid, (event, OnQr url sid) ∉ ls) →
  steps (keeps heap) (run_listeners env cfg h ls event data).
Proof.
  induction ls as [|[name l] ls IH]; intros Hnone; cbn [run_listeners];
    [apply steps_ret|].
  apply steps_bind; [|intros _; apply IH; intros url sid Hin;
                      apply (Hnone url sid); by right].
  destruct (String.eqb_spec name event) as [->|Hne]; [|apply steps_ret].
  destruct l as [url sid dataType|url sid|url sid]; cbn [run_listener].
  - apply sinks_keep_heap.
  - destruct data; try apply steps_ret. apply on_message_keeps_heap.
  - exfalso. apply (Hnone url sid). by left.
Qed.

(** X21. The QR code of a bound client: a ['qr'] event stores the code in
    [client.qr], also when the ['qr'] callbacks are disabled; no event of
    another name changes it (the ['authenticated'] listener does not clear
    it); the expiry timer clears it, unless it is the empty string, which
    the timer's test [if (client.qr)] takes for an absent code and leaves in
    place. *)
Theorem qr_code_lifecycle
    (env : Env) (cfg0 : Config) (h : nat) (sid : string) (c0 : Client) (w0 : World)
    (history : list Happening) (cfg1 : Config) (code : string) :
  heap w0 !! h = Some c0 → listeners c0 = [] →
  let w := replay env history (snd (initializeEvents env cfg0 h sid w0)) in
  let shown := snd (client_emit env cfg1 h "qr" (QrData code) w) in
  qr_of h shown = Some (Some code) ∧
  (∀ cfg2 event data,
     event ≠ "qr" →
     qr_of h (snd (client_emit env cfg2 h event data shown)) = Some (Some code)) ∧
  qr_of h (snd (qr_timeout h sid shown))
  = Some (if String.eqb code EmptyString then Some code else None).
Proof.
  intros Hc Hfresh w shown.
  pose proof (bound_for_life env cfg0 h sid c0 w0 history Hc Hfresh) as Hbound.
  fold w in Hbound.
  assert (Hshown : ∃ c, heap shown !! h = Some (set_qr (Some code) true c) ∧
                        listeners_of h shown = Some (bound_listeners cfg0 sid)).
  { subst shown. rewrite (client_emit_bound env cfg1 h w _ "qr" (QrData code) Hbound).
    rewrite run_bound_qr. unfold listeners_of in Hbound |- *.
    destruct (heap w !! h) as [c|] eqn:Hheap; [|done].
    exists c. unfold on_qr, sinks. unfold_monad. cbv beta. rewrite Hheap.
    destruct (isEventEnabled cfg1 "qr"); cbn; rewrite lookup_insert_eq; by split. }
  destruct Hshown as (c & Hheap & Hls). split_and!.
  - unfold qr_of. by rewrite Hheap.
  - intros cfg2 event data Hne.
    rewrite (client_emit_bound env cfg2 h shown _ event data Hls).
    unfold qr_of.
    rewrite (run_listeners_keep_heap env cfg2 h (bound_listeners cfg0 sid) event data).
    + by rewrite Hheap.
    + intros url sid' Hin. apply bound_listeners_elem in Hin
        as [[_ [=]]|[[-> _]|(_ & _ & _ & dataType & [=] & _)]]. done.
  - unfold qr_of, qr_timeout. unfold_monad. cbv beta. rewrite Hheap. cbn.
    destruct (String.eqb code EmptyString); cbn.
    + by rewrite Hheap.
    + by rewrite lookup_insert_eq.
Qed.

Lemma qr_code_lifecycle_witness :
  qr_of 0 (snd (client_emit Sample.healthy (Sample.with_disabled ["qr"] Sample.config)
                  0%nat "qr" (QrData "2@tGDx")
                  (snd (initializeEvents Sample.healthy Sample.config 0%nat "alpha"
                          Sample.constructed))))
  = Some (Some "2@tGDx") ∧
  qr_of 0 (snd (qr_timeout 0%nat "alpha"
                  (snd (client_emit Sample.healthy
                          (Sample.with_disabled ["qr"] Sample.config)
                          0%nat "qr" (QrData "2@tGDx")
                          (snd (initializeEvents Sample.healthy Sample.config 0%nat
                                  "alpha" Sample.constructed))))))
  = Some None.
Proof.
  destruct (qr_code_lifecycle Sample.healthy Sample.config 0%nat "alpha"
              (Sample.fresh_client "alpha") Sample.constructed []
              (Sample.with_disabled ["qr"] Sample.config) "2@tGDx" eq_refl eq_refl)
    as (Hshown & _ & Hexpired).
  split; [exact Hshown|exact Hexpired].
Defined.

(** ** The outcome of setupSession *)

(** X22. [setupSession] for an id that is not registered always returns a
    result and never calls [destroy()].  It succeeds, registering the newly
    constructed client, exactly when the constructors, the removal of the
    stale browser lock (if one is attempted), [initialize()] and
    [initWebSocketServer] all succeed; otherwise the result carries the
    message of the first of them to fail and no client, and the registry is
    unchanged. *)
Theorem setupSession_outcome (env : Env) (cfg : Config) (sid : string) (w : World) :
  sessions w !! sid = None →
  ∃ w' t,
    trace w' = (t ++ trace w)%list ∧ (∀ h, Destroy h ∉ t) ∧
    match setup_failure env cfg sid w with
    | None =>
        setupSession env cfg sid w
        = (Returned (SetupResult.Build true "Session initiated successfully"
                       (Some (next_handle w))), w') ∧
        sessions w' = <[sid := next_handle w]> (sessions w)
    | Some e =>
        setupSession env cfg sid w
        = (Returned (SetupResult.Build false (error_message e) None), w') ∧
        sessions w' = sessions w
    end.
Proof.
  intros Hreg.
  destruct (setupSession_adds env cfg sid w) as (t & Ht & Hf).
  exists (snd (setupSession env cfg sid w)), t. split; [exact Ht|]. split.
  { intros h Hin. rewrite Forall_forall in Hf. exact (Hf _ Hin). }
  clear t Ht Hf.
  unfold setup_failure, singletonLockPath.
  unfold setupSession, new_Client, release_browser_lock, initializeEvents.
  unfold_monad. rewrite Hreg; simpl.
  destruct (new_client env (clientOptions cfg sid)) as [e0|]; simpl; [done|].
  destruct (releaseBrowserLock cfg); simpl;
    [destruct (lstat_exists _ _); simpl;
       [destruct (unlink_fails env _) as [eu|]; simpl; [done|]|]|];
    (destruct (initialize env (next_handle w)) as [e1|]; simpl; [done|];
     destruct (initWebSocketServer env sid) as [e2|]; simpl; [done|];
     rewrite lookup_insert_eq; simpl; done).
Qed.

Lemma setupSession_outcome_witness :
  ∃ w',
    setupSession Sample.lock_stuck Sample.config "alpha" Sample.boot
    = (Returned (SetupResult.Build false "EPERM: operation not permitted, unlink" None),
       w')
    ∧ sessions w' = sessions Sample.boot.
Proof.
  destruct (setupSession_outcome Sample.lock_stuck Sample.config "alpha" Sample.boot)
    as (w' & t & _ & _ & Hout); [reflexivity|].
  exists w'. exact Hout.
Defined.

(** ** The wait for the browser to disconnect *)

Lemma sleeps_app (t1 t2 : list Effect) : sleeps (t1 ++ t2) = (sleeps t1 + sleeps t2)%nat.
Proof. unfold sleeps. by rewrite List.filter_app, length_app. Qed.

Lemma sleeps_none (t : list Effect) : Forall no_sleep t → sleeps t = 0%nat.
Proof.
  induction 1 as [|e t He _ IH]; [done|].
  unfold sleeps in *. cbn. unfold no_sleep in He. by rewrite He.
Qed.

(** The loop pauses at most once per round left, and exactly so often while
    the browser stays connected. *)
Lemma wait_disconnected_if_browser_sleeps (env : Env) (browser : Browser) (h n : nat)
    (w : World) :
  (n ≤ 10)%nat →
  ∃ r w' t,
    wait_disconnected_if_browser env browser h n w = (r, w') ∧
    trace w' = (t ++ trace w)%list ∧ (sleeps t ≤ n)%nat ∧
    sessions w' = sessions w ∧
    (pupBrowser_defined browser h = true →
     (∀ poll, isConnected env h poll = Returned true) →
     r = Returned tt ∧ sleeps t = n).
Proof.
  revert w. induction n as [|n IH]; intros w Hn.
  - cbn [wait_disconnected_if_browser]. unfold_monad. cbn.
    destruct (pupBrowser_defined browser h); cbn.
    + destruct (isConnected env h 10) as [[]|e] eqn:Hpoll; cbn.
      all: eexists _, _, [IsConnected h 10]; split_and!; try reflexivity; cbn; try lia.
      all: intros _ Hstuck; rewrite Hstuck in Hpoll; by try discriminate.
    + eexists _, _, []. split_and!; try reflexivity; cbn; try lia; try done.
  - cbn [wait_disconnected_if_browser].
    assert (Hround : (10 - S n <? 10)%nat = true) by (apply Nat.ltb_lt; lia).
    unfold bind at 1.
    destruct (pupBrowser_defined browser h) eqn:Hdef.
    + unfold call_value, tell. unfold bind at 1.
      destruct (isConnected env h (10 - S n)) as [[]|e] eqn:Hpoll;
        cbn [lift ret throw andb]; rewrite ?Hround.
      * unfold bind at 1.
        match goal with
        | |- context [wait_disconnected_if_browser env browser h n ?w1] =>
            destruct (IH w1 ltac:(lia)) as (r & w' & t & Hrun & Ht & Hle & Hs & Hstuck)
        end.
        rewrite Hrun. cbn in Ht, Hs.
        exists r, w', (t ++ [Sleep 1000; IsConnected h (10 - S n)])%list.
        split_and!.
        -- done.
        -- by rewrite Ht, <- app_assoc.
        -- rewrite sleeps_app. unfold sleeps at 2. cbn. lia.
        -- done.
        -- intros _ Hall. destruct (Hstuck eq_refl Hall) as [-> Hn']. split; [done|].
           rewrite sleeps_app. unfold sleeps at 2. cbn. lia.
      * eexists _, _, [IsConnected h (10 - S n)]. split_and!; try reflexivity; cbn; try lia.
        intros _ Hall. rewrite Hall in Hpoll. discriminate.
      * eexists _, _, [IsConnected h (10 - S n)]. split_and!; try reflexivity; cbn; try lia.
        intros _ Hall. rewrite Hall in Hpoll. discriminate.
    + cbn. eexists _, _, []. split_and!; try reflexivity; cbn; try lia; try done.
Qed.

Lemma remove_recovery_listeners_no_sleep (env : Env) (h : nat) :
  steps (both (adds no_sleep) (keeps sessions)) (remove_recovery_listeners env h).
Proof. unfold remove_recovery_listeners. steps. Qed.

Lemma terminate_no_sleep (env : Env) (sid : string) :
  steps (both (adds no_sleep) (keeps sessions))
    (try_catch
       (call (TerminateWebSocketServer sid) (terminateWebSocketServer env sid))
       (fun error => log Err (Some sid) (Some error)
                       "Failed to terminate WebSocket server")).
Proof. steps. Qed.

(** X23. [destroySession] on a registered id pauses at most ten times while
    it waits for the browser to disconnect.  When [destroy()] succeeds and
    the browser never reports a disconnect, it pauses exactly ten times,
    then returns normally and unregisters the id all the same. *)
Theorem destroySession_wait_is_bounded (env : Env) (browser : Browser) (sid : string)
    (w : World) (h : nat) :
  sessions w !! sid = Some h →
  ∃ r w' t,
    destroySession env browser sid w = (r, w') ∧
    trace w' = (t ++ trace w)%list ∧
    (sleeps t ≤ 10)%nat ∧
    (destroy env h = None → pupBrowser_defined browser h = true →
     (∀ poll, isConnected env h poll = Returned true) →
     r = Returned tt ∧ sleeps t = 10%nat ∧ sessions w' = delete sid (sessions w)).
Proof.
  intros Hreg.
  unfold destroySession. unfold try_catch at 1. unfold bind at 1, get_world. cbv beta.
  rewrite Hreg.
  pose proof (remove_recovery_listeners_no_sleep env h w) as Hq0.
  pose proof (remove_recovery_listeners_returns env h w) as Hr0.
  unfold bind at 1.
  destruct (remove_recovery_listeners env h w) as [r0 w0]; simpl in Hq0, Hr0. subst r0.
  pose proof (terminate_no_sleep env sid w0) as Hq1.
  pose proof (terminate_returns env sid w0) as Hr1.
  unfold bind at 1.
  destruct (try_catch _ _ w0) as [r1 w1]; simpl in Hq1, Hr1. subst r1.
  destruct Hq0 as ((t0 & Ht0 & Hf0) & Hs0).
  destruct Hq1 as ((t1 & Ht1 & Hf1) & Hs1).
  unfold keeps in *.
  apply sleeps_none in Hf0, Hf1.
  unfold bind at 1. unfold call at 1. unfold bind at 1, tell at 1.
  destruct (destroy env h) as [err|] eqn:Hdestroy; cbn [ret throw].
  - unfold log, tell, throw, bind.
    eexists _, _,
      (Log Err (Some sid) (Some err) "Failed to stop session" :: Destroy h :: t1 ++ t0)%list.
    split; [reflexivity|]. cbn [trace]. split_and!.
    + rewrite Ht1, Ht0. cbn. by rewrite <- ?app_assoc.
    + change (sleeps (t1 ++ t0) ≤ 10)%nat. rewrite sleeps_app. lia.
    + done.
  - unfold bind at 1.
    match goal with
    | |- context [wait_disconnected_if_browser env browser h 10 ?w2] =>
        destruct (wait_disconnected_if_browser_sleeps env browser h 10 w2 ltac:(lia))
          as (r & w3 & t2 & Hrun & Ht2 & Hle & Hs2 & Hstuck)
    end.
    rewrite Hrun. cbn in Ht2, Hs2. destruct r as [[]|err].
    + unfold unregister, bind, get_world, set_sessions.
      eexists _, _, (t2 ++ Destroy h :: t1 ++ t0)%list.
      split; [reflexivity|]. cbn [trace sessions]. split_and!.
      * rewrite Ht2, Ht1, Ht0. cbn. rewrite <- ?app_assoc. cbn. by rewrite <- ?app_assoc.
      * rewrite sleeps_app.
        change (sleeps t2 + sleeps (t1 ++ t0) ≤ 10)%nat. rewrite sleeps_app. lia.
      * intros _ Hdef Hall. destruct (Hstuck Hdef Hall) as [_ Hten]. split_and!.
        -- done.
        -- rewrite sleeps_app.
           change (sleeps t2 + sleeps (t1 ++ t0) = 10)%nat. rewrite sleeps_app. lia.
        -- by rewrite Hs2, Hs1, Hs0.
    + unfold log, tell, throw, bind.
      eexists _, _,
        (Log Err (Some sid) (Some err) "Failed to stop session"
           :: t2 ++ Destroy h :: t1 ++ t0)%list.
      split; [reflexivity|]. cbn [trace]. split_and!.
      * rewrite Ht2, Ht1, Ht0. cbn. rewrite <- ?app_assoc. cbn. by rewrite <- ?app_assoc.
      * change (sleeps (t2 ++ Destroy h :: t1 ++ t0) ≤ 10)%nat. rewrite sleeps_app.
        change (sleeps t2 + sleeps (t1 ++ t0) ≤ 10)%nat. rewrite sleeps_app. lia.
      * intros _ Hdef Hall. by destruct (Hstuck Hdef Hall) as [[=] _].
Qed.

Lemma destroySession_wait_is_bounded_witness :
  ∃ w' t,
    destroySession never_disconnects attached_browser "alpha" alpha_running
    = (Returned tt, w') ∧
    trace w' = (t ++ trace alpha_running)%list ∧
    sleeps t = 10%nat ∧
    sessions w' = delete "alpha" (sessions alpha_running).
Proof.
  destruct (destroySession_wait_is_bounded never_disconnects attached_browser "alpha"
              alpha_running 0%nat)
    as (r & w' & t & Hrun & Ht & _ & Hstuck); [by vm_compute|].
  destruct Hstuck as (-> & Hten & Hs); [reflexivity..|].
  exists w', t. split; [exact Hrun|]. split; [exact Ht|]. split; [exact Hten|exact Hs].
Defined.

(** ** What a flush may remove *)

Lemma filter_all {A} (l : list A) : List.filter (fun _ => true) l = l.
Proof. induction l as [|x l IH]; [done|]. cbn. by rewrite IH. Qed.

Lemma filter_twice {A} (f g : A → bool) (l : list A) :
  List.filter g (List.filter f l) = List.filter (fun x => f x && g x) l.
Proof.
  induction l as [|x l IH]; [done|]. cbn.
  destruct (f x); cbn; [destruct (g x)|]; by rewrite IH.
Qed.

Lemma pruned_refl (f : FileSystem) : pruned f f.
Proof. exists (fun _ => true). by rewrite !filter_all. Qed.

Lemma pruned_trans (f1 f2 f3 : FileSystem) : pruned f1 f2 → pruned f2 f3 → pruned f1 f3.
Proof.
  intros (k1 & Hn1 & Hl1) (k2 & Hn2 & Hl2). exists (fun p => k1 p && k2 p).
  by rewrite Hn2, Hn1, Hl2, Hl1, !filter_twice.
Qed.

Lemma pruned_rm (f : FileSystem) (p : string) : pruned f (rm_recursive_force f p).
Proof. by exists (fun n => negb (under p n)). Qed.

Lemma pruned_rm_interrupted (f : FileSystem) (p : string) (removed : string → bool) :
  pruned f (rm_interrupted f p removed).
Proof. by exists (fun n => negb (strictly_under p n && removed n)). Qed.

Lemma pruned_node (f f' : FileSystem) (p : string) :
  pruned f f' → exists_node f' p = true → exists_node f p = true.
Proof.
  intros (keep & Hn & _). unfold exists_node. rewrite Hn.
  rewrite !existsb_exists. intros (x & Hin & Heq).
  apply filter_In in Hin as [Hin _]. eauto.
Qed.

(** Pruning removes the links of a path together with the entry at it, so
    that a path which still resolves resolves as before. *)
Lemma pruned_link (f f' : FileSystem) (keep : string → bool) (q : string) :
  links f' = List.filter (fun l => keep (fst l)) (links f) →
  lookup_link f' q = if keep q then lookup_link f q else None.
Proof.
  intros Hl. unfold lookup_link. rewrite Hl. clear Hl.
  destruct (keep q) eqn:Hkeep.
  - induction (links f) as [|l ls IH]; [done|].
    cbn. destruct (String.eqb_spec (fst l) q) as [Heq|Hne].
    + rewrite Heq, Hkeep. cbn. by rewrite Heq, String.eqb_refl.
    + destruct (keep (fst l)); cbn; [|exact IH].
      destruct (String.eqb_spec (fst l) q); [done|exact IH].
  - induction (links f) as [|l ls IH]; [done|].
    cbn. destruct (keep (fst l)) eqn:Hl; cbn; [|exact IH].
    destruct (String.eqb_spec (fst l) q) as [Heq|Hne]; [congruence|exact IH].
Qed.

Lemma realpath_pruned (env : Env) (f f' : FileSystem) (p target : string) :
  pruned f f' → realpath env f' p = Returned target → realpath env f p = Returned target.
Proof.
  intros Hpruned. pose proof Hpruned as (keep & Hn & Hl). unfold realpath.
  rewrite (pruned_link f f' keep _ Hl).
  destruct (keep (Path.resolve (cwd env) p)) eqn:Hkeep.
  - destruct (exists_node f' _) eqn:Hex; [|discriminate].
    intros [= <-]. by rewrite (pruned_node f f' _ Hpruned Hex).
  - destruct (exists_node f' _) eqn:Hex; [|discriminate].
    exfalso. unfold exists_node in Hex. rewrite Hn in Hex.
    apply existsb_exists in Hex as (x & Hin & Heq).
    apply filter_In in Hin as [_ Hkept]. apply String.eqb_eq in Heq. subst x.
    congruence.
Qed.

Lemma no_rm_absent (t : list Effect) (p : string) : Forall no_rm t → Rm p ∉ t.
Proof. intros Hall Hin. rewrite Forall_forall in Hall. exact (Hall _ Hin). Qed.

Lemma flushed_refl (env : Env) (cfg : Config) (w : World) : flushed env cfg w w [].
Proof.
  split_and!; [done|done|apply pruned_refl|..].
  - intros p Hin. by apply elem_of_nil in Hin.
  - intros n Hin Hout. by destruct Hout.
Qed.

Lemma flushed_trans (env : Env) (cfg : Config) (w0 w1 w2 : World) (t1 t2 : list Effect) :
  flushed env cfg w0 w1 t1 → flushed env cfg w1 w2 t2 →
  flushed env cfg w0 w2 (t2 ++ t1).
Proof.
  intros (Ht1 & Hs1 & Hp1 & Hrm1 & Hgone1) (Ht2 & Hs2 & Hp2 & Hrm2 & Hgone2).
  split_and!.
  - by rewrite Ht2, Ht1, app_assoc.
  - auto.
  - by eapply pruned_trans.
  - intros p Hin. apply elem_of_app in Hin as [Hin|Hin]; [|by apply Hrm1].
    destruct (Hrm2 p Hin) as (sid & [h Hreg] & Hpath).
    exists sid. split; [eauto|]. by eapply realpath_pruned.
  - intros n Hin Hout.
    destruct (decide (n ∈ nodes (fs w1))) as [Hmid|Hmid].
    + destruct (Hgone2 n Hmid Hout) as (p & Hp & Hu).
      exists p. split; [|done]. apply elem_of_app. by left.
    + destruct (Hgone1 n Hin Hmid) as (p & Hp & Hu).
      exists p. split; [|done]. apply elem_of_app. by right.
Qed.

(** A run that calls no [rm] and keeps the registry and the file system. *)
Lemma flushed_still (env : Env) (cfg : Config) (w w' : World) :
  adds no_rm w w' → sessions w' = sessions w → fs w' = fs w →
  ∃ t, flushed env cfg w w' t.
Proof.
  intros (t & Ht & Hall) Hs Hfs. exists t. split_and!.
  - done.
  - intros sid h. by rewrite Hs.
  - rewrite Hfs. apply pruned_refl.
  - intros p Hin. by apply no_rm_absent in Hin.
  - intros n Hin Hout. by rewrite Hfs in Hout.
Qed.

Lemma wait_disconnected_no_rm (env : Env) (h n : nat) :
  steps (both (adds no_rm) (both (keeps sessions) (keeps fs))) (wait_disconnected env h n).
Proof. induction n as [|n IH]; cbn [wait_disconnected]; steps. Qed.

Lemma disconnect_client_no_rm (env : Env) (sid : string) (h : nat) (v : Validation.t) :
  steps (both (adds no_rm) (both (keeps sessions) (keeps fs)))
    (disconnect_client env sid h v).
Proof.
  unfold disconnect_client, remove_recovery_listeners.
  repeat (apply steps_bind; [|intros ?]); try apply wait_disconnected_no_rm; steps.
Qed.

(** What the folder removal of [sid] does, from any state. *)
Lemma deleteSessionFolder_effect (env : Env) (cfg : Config) (sid : string) (w : World) :
  ∃ t,
    trace (snd (deleteSessionFolder env cfg sid w)) = (t ++ trace w)%list ∧
    sessions (snd (deleteSessionFolder env cfg sid w)) = sessions w ∧
    pruned (fs w) (fs (snd (deleteSessionFolder env cfg sid w))) ∧
    (∀ p, Rm p ∈ t →
          realpath env (fs w) (Path.join [sessionFolderPath cfg; "session-" +:+ sid])
          = Returned p) ∧
    (∀ n, n ∈ nodes (fs w) → n ∉ nodes (fs (snd (deleteSessionFolder env cfg sid w))) →
          ∃ p, Rm p ∈ t ∧ under p n = true).
Proof.
  unfold deleteSessionFolder. unfold_monad. cbv beta.
  destruct (realpath env (fs w) (Path.join _)) as [target|e1]; cbn.
  2:{ exists [Log Err (Some sid) (Some e1) "Folder deletion error"].
      split_and!; [done|done|apply pruned_refl|..].
      - intros p Hin. in_trace Hin. discriminate.
      - intros n Hin Hout. by destruct Hout. }
  destruct (realpath env (fs w) (sessionFolderPath cfg)) as [root|e2]; cbn.
  2:{ exists [Log Err (Some sid) (Some e2) "Folder deletion error"].
      split_and!; [done|done|apply pruned_refl|..].
      - intros p Hin. in_trace Hin. discriminate.
      - intros n Hin Hout. by destruct Hout. }
  destruct (startsWith target (root +:+ Path.sep)); cbn.
  2:{ exists [Log Err (Some sid) (Some traversal_detected) "Folder deletion error"].
      split_and!; [done|done|apply pruned_refl|..].
      - intros p Hin. in_trace Hin. discriminate.
      - intros n Hin Hout. by destruct Hout. }
  destruct (rm_fails env target) as [failure|]; cbn.
  - exists [Log Err (Some sid) (Some (rm_error failure)) "Folder deletion error"; Rm target].
    split_and!; [done|done|apply pruned_rm_interrupted|..].
    + intros p Hin. in_trace Hin; [discriminate|]. by injection Hin as ->.
    + intros n Hin Hout. exists target. split; [listed|].
      apply strictly_under_under.
      exact (rm_interrupted_removes (fs w) target (rm_removed failure) n Hin Hout).
  - exists [Rm target]. split_and!; [done|done|apply pruned_rm|..].
    + intros p Hin. in_trace Hin. by injection Hin as ->.
    + intros n Hin Hout. exists target. split; [listed|].
      exact (rm_recursive_force_removes (fs w) target n Hin Hout).
Qed.

Lemma deleteSession_flushed (env : Env) (cfg : Config) (sid : string)
    (v : Validation.t) (w : World) :
  ∃ t, flushed env cfg w (snd (deleteSession env cfg sid v w)) t.
Proof.
  destruct (sessions w !! sid) as [h|] eqn:Hreg;
    [|rewrite (deleteSession_absent env cfg sid v w Hreg); exists [];
      apply flushed_refl].
  rewrite (deleteSession_run env cfg sid v w h Hreg).
  destruct (disconnect_client_no_rm env sid h v w) as ((t1 & Ht1 & Hall1) & Hs1 & Hfs1).
  unfold keeps in Hs1, Hfs1.
  destruct (disconnect_client env sid h v w) as [[[]|e] w1]; cbn in Ht1, Hs1, Hfs1.
  2:{ exists (Log Err (Some sid) (Some e) "Failed to delete session" :: t1).
      split_and!; cbn.
      - by rewrite Ht1.
      - intros sid' h'. by rewrite Hs1.
      - rewrite Hfs1. apply pruned_refl.
      - intros p Hin. in_trace Hin; [discriminate|]. by apply no_rm_absent in Hin.
      - intros n Hin Hout. by rewrite Hfs1 in Hout. }
  destruct (deleteSessionFolder_effect env cfg sid (unregistered sid w1))
    as (t2 & Ht2 & Hs2 & Hp2 & Hrm2 & Hgone2).
  change (fs (unregistered sid w1)) with (fs w1) in *.
  change (trace (unregistered sid w1)) with (trace w1) in *.
  change (sessions (unregistered sid w1)) with (delete sid (sessions w1)) in *.
  rewrite Hfs1 in *. clear Hfs1.
  assert (Hflushed : flushed env cfg w
            (snd (deleteSessionFolder env cfg sid (unregistered sid w1))) (t2 ++ t1)).
  { split_and!.
    - by rewrite Ht2, Ht1, app_assoc.
    - intros sid' h'. rewrite Hs2, Hs1. intros Hin.
      apply lookup_delete_Some in Hin. tauto.
    - done.
    - intros p Hin. apply elem_of_app in Hin as [Hin|Hin];
        [|by apply no_rm_absent in Hin].
      exists sid. split; [rewrite Hreg; eauto|]. by apply Hrm2.
    - intros n Hin Hout. destruct (Hgone2 n Hin Hout) as (p & Hp & Hu).
      exists p. split; [|done]. apply elem_of_app. by left. }
  destruct (deleteSessionFolder env cfg sid (unregistered sid w1)) as [[[]|e] w2];
    cbn in Hflushed |- *; [by exists (t2 ++ t1)%list|].
  exists (Log Err (Some sid) (Some e) "Failed to delete session" :: t2 ++ t1)%list.
  destruct Hflushed as (Ht & Hs & Hp & Hrm & Hgone). split_and!; cbn.
  - by rewrite Ht.
  - done.
  - done.
  - intros p Hin. apply elem_of_cons in Hin as [Hin|Hin]; [discriminate|]. by apply Hrm.
  - intros n Hin Hout. destruct (Hgone n Hin Hout) as (p & Hp' & Hu).
    exists p. split; [by right|done].
Qed.

Lemma validateSession_flushed (env : Env) (cfg : Config) (sid : string) (w : World) :
  ∃ t, flushed env cfg w (snd (validateSession env sid w)) t.
Proof.
  destruct (validateSession_observes env sid w)
    as ((t & Ht & Hall) & Hs & _ & Hfs & _).
  apply flushed_still; [|done..].
  exists t. split; [done|]. eapply Forall_impl; [exact Hall|].
  by intros [].
Qed.

Lemma flush_file_flushed (env : Env) (cfg : Config) (b : bool) (file : string)
    (w : World) :
  ∃ t, flushed env cfg w (snd (flush_file env cfg b file w)) t.
Proof.
  unfold flush_file.
  destruct (match_session_folder file) as [sid|]; [|exists []; apply flushed_refl].
  unfold bind.
  destruct (validateSession_flushed env cfg sid w) as (t1 & Hval).
  destruct (validateSession env sid w) as [[v|e] w1]; cbn in Hval; [|by exists t1].
  destruct (negb b || negb (Validation.success v)); [|by exists t1].
  destruct (deleteSession_flushed env cfg sid v w1) as (t2 & Hdel).
  exists (t2 ++ t1)%list. by eapply flushed_trans.
Qed.

Lemma flush_each_flushed (env : Env) (cfg : Config) (b : bool) (files : list string)
    (w : World) :
  ∃ t, flushed env cfg w (snd (flush_each env cfg b files w)) t.
Proof.
  revert w. induction files as [|file files IH]; intros w;
    [exists []; apply flushed_refl|].
  cbn [flush_each]. unfold bind.
  destruct (flush_file_flushed env cfg b file w) as (t1 & Hfile).
  destruct (flush_file env cfg b file w) as [[[]|e] w1]; cbn in Hfile; [|by exists t1].
  destruct (IH w1) as (t2 & Hrest).
  exists (t2 ++ t1)%list. by eapply flushed_trans.
Qed.

Lemma flushSessions_flushed (env : Env) (cfg : Config) (b : bool) (w : World) :
  ∃ t, flushed env cfg w (snd (flushSessions env cfg b w)) t.
Proof.
  unfold flushSessions. unfold try_catch, bind at 1 2, get_world. cbv beta.
  destruct (readdir env (fs w) (sessionFolderPath cfg)) as [files|e0]; cbn [lift ret throw].
  2:{ exists [Log Err None (Some e0) "Failed to flush sessions"]. cbn. split_and!.
      - done.
      - done.
      - apply pruned_refl.
      - intros p Hin. in_trace Hin. discriminate.
      - intros n Hin Hout. by destruct Hout. }
  destruct (flush_each_flushed env cfg b files w) as (t & Ht & Hs & Hp & Hrm & Hgone).
  destruct (flush_each env cfg b files w) as [[[]|e] w1];
    cbn in Ht, Hs, Hp, Hgone |- *.
  - exists t. by split_and!.
  - exists (Log Err None (Some e) "Failed to flush sessions" :: t). split_and!; cbn.
    + by rewrite Ht.
    + done.
    + done.
    + intros p Hin. apply elem_of_cons in Hin as [Hin|Hin]; [discriminate|].
      by apply Hrm.
    + intros n Hin Hout. destruct (Hgone n Hin Hout) as (p & Hp' & Hu).
      exists p. split; [by right|done].
Qed.

(** X7. [flushSessions] removes folders of registered sessions only: every
    [rm] it issues is on the path to which the folder of a session that was
    registered when the flush began resolves, and an entry of the file
    system is gone afterwards only if it was such a folder or lay in one.
    The folder of an unregistered session is thus left alone, unless the
    folder of a registered session resolves to it, or to a folder above it,
    through a symbolic link. *)
Theorem flushSessions_removes_registered_folders_only
    (env : Env) (cfg : Config) (deleteOnlyInactive : bool) (w : World) :
  ∃ t,
    trace (snd (flushSessions env cfg deleteOnlyInactive w)) = (t ++ trace w)%list ∧
    (∀ p, Rm p ∈ t →
       ∃ sid, is_Some (sessions w !! sid) ∧
              realpath env (fs w)
                (Path.join [sessionFolderPath cfg; "session-" +:+ sid])
              = Returned p) ∧
    (∀ n, n ∈ nodes (fs w) →
          n ∉ nodes (fs (snd (flushSessions env cfg deleteOnlyInactive w))) →
          ∃ p, Rm p ∈ t ∧ under p n = true).
Proof.
  destruct (flushSessions_flushed env cfg deleteOnlyInactive w)
    as (t & Ht & _ & _ & Hrm & Hgone).
  exists t. split; [exact Ht|]. split; [exact Hrm|exact Hgone].
Qed.

